(** * A shallow embedding of [record.cpp]

    The program configures a polarization camera, grabs a fixed number of
    frames in the packed format [PolarizedAngles_0d_45d_90d_135d_Mono8],
    splits every frame into its four per-angle planes and appends each plane
    to its own video file.

    The embedding follows the source function by function:
    - machine integers are [Z] with the wrap-around written out;
    - [double] is the kernel's binary64 type [float];
    - the GenICam node map is a finite map from node names to nodes;
    - memory is a store of byte blocks addressed by (block, index), so that
      two images built on one buffer can be told from two images that own
      their data;
    - C++ exceptions, undefined behaviour and non-termination are the three
      abnormal results of the monad [M]. *)

From Stdlib Require Import ZArith Lia Floats Ascii.
From stdpp Require Import base gmap strings list.

Local Open Scope Z_scope.

#[local] Set Warnings "-clear-no-such-hyp".

(** ** Machine integers *)

Definition wrap_u32 (z : Z) : Z := z mod 2 ^ 32.
Definition wrap_u64 (z : Z) : Z := z mod 2 ^ 64.
Definition wrap_i64 (z : Z) : Z := (z + 2 ^ 63) mod 2 ^ 64 - 2 ^ 63.

(** ** Results of running a piece of the program *)

Inductive exn : Type :=
| GenericException (what : string)   (* GenICam::GenericException *)
| StdException (what : string)       (* std::exception *)
| UnknownException.                  (* anything else: catch (...) *)

Inductive res (A : Type) : Type :=
| Ret (a : A)          (* normal return *)
| Throw (e : exn)      (* a C++ exception propagates *)
| Fault                (* undefined behaviour: access out of bounds, x / 0 *)
| OutOfFuel.           (* no result within the loop bound given to the model;
                          a loop that gives this for every bound never ends *)

Arguments Ret {A} a.
Arguments Throw {A} e.
Arguments Fault {A}.
Arguments OutOfFuel {A}.

Definition res_bind {A B : Type} (r : res A) (k : A → res B) : res B :=
  match r with
  | Ret a => k a
  | Throw e => Throw e
  | Fault => Fault
  | OutOfFuel => OutOfFuel
  end.

#[global] Instance res_mbind : MBind res := λ A B k r, res_bind r k.
#[global] Instance res_mret : MRet res := λ A a, Ret a.

(** ** The GenICam node map

    Only the node kinds the program touches.  An integer node carries its
    value, minimum, maximum and increment; a float node its value, minimum
    and maximum. *)

Inductive Node : Type :=
| IntegerNode (value min max inc : Z)
| FloatNode (value min max : float)
| BooleanNode (value : bool)
| StringNode (value : string).

Abbreviation INodeMap := (gmap string Node).

Definition null_node (nodeName : string) : exn :=
  GenericException ("invalid node: " +:+ nodeName).

Definition out_of_range (nodeName : string) : exn :=
  GenericException ("value not accepted: " +:+ nodeName).

(** [int64_t] division has no result for a divisor of 0 and for
    [INT64_MIN / -1]: the processor traps on both. *)
Definition div_traps (a b : Z) : bool :=
  (b =? 0) || ((a =? - 2 ^ 63) && (b =? -1)).

(** Modelled from the spec: [GenApi::IInteger::SetValue] (the GenApi headers
    are missing; the spec leaves the node's contract to the external
    collaborator).  The node takes what the comments of [SetIntValue] at
    lines 91-93 and 96-98 say it takes: "only multiples of the increment can
    be set", "values must not be less than the minimum or exceed the maximum
    value of a node".  Any other value is refused with a GenICam exception
    and the node keeps its value. *)
Definition IInteger_accepts (GetMin GetMax GetInc value : Z) : bool :=
  (GetMin <=? value) && (value <=? GetMax) && ((value - GetMin) mod GetInc =? 0).

(** [SetIntValue], record.cpp lines 86-114.  The arithmetic is [int64_t];
    [/] is C++ division, truncating towards zero; [-], [*] and [+] wrap
    around, as the compiled program's do. *)
Definition SetIntValue (pNodeMap : INodeMap) (nodeName : string) (value : Z)
  : res (INodeMap * Z) :=
  match pNodeMap !! nodeName with
  | Some (IntegerNode _ GetMin GetMax GetInc) =>
      if div_traps (wrap_i64 (value - GetMin)) GetInc then Fault else
      let value :=
        wrap_i64 (wrap_i64 (wrap_i64 (wrap_i64 (value - GetMin) ÷ GetInc) * GetInc) + GetMin) in
      let value := if value <? GetMin then GetMin else value in
      let value := if value >? GetMax then GetMax else value in
      if IInteger_accepts GetMin GetMax GetInc value
      then Ret (<[nodeName := IntegerNode value GetMin GetMax GetInc]> pNodeMap, value)
      else Throw (out_of_range nodeName)
  | _ => Throw (null_node nodeName)
  end.

(** [SetFloatValue], record.cpp lines 119-142. *)
Definition SetFloatValue (pNodeMap : INodeMap) (nodeName : string) (value : float)
  : res (INodeMap * float) :=
  match pNodeMap !! nodeName with
  | Some (FloatNode _ GetMin GetMax) =>
      let value := if (value <? GetMin)%float then GetMin else value in
      let value := if (GetMax <? value)%float then GetMax else value in
      Ret (<[nodeName := FloatNode value GetMin GetMax]> pNodeMap, value)
  | _ => Throw (null_node nodeName)
  end.

(** ** Memory

    A pointer is the identity of an allocation; the program only ever
    indexes from the start of one.  Reading or writing outside a block is
    undefined behaviour. *)

Abbreviation ptr := nat.

Abbreviation Mem := (list (list Z)).

Definition load (m : Mem) (p : ptr) (i : Z) : res Z :=
  match m !! p with
  | Some blk =>
      if 0 <=? i then
        match blk !! Z.to_nat i with Some b => Ret b | None => Fault end
      else Fault
  | None => Fault
  end.

Definition store (m : Mem) (p : ptr) (i : Z) (b : Z) : res Mem :=
  match m !! p with
  | Some blk =>
      if (0 <=? i) && (Z.to_nat i <? length blk)%nat
      then Ret (<[p := <[Z.to_nat i := b]> blk]> m)
      else Fault
  | None => Fault
  end.

Definition alloc (m : Mem) (blk : list Z) : Mem * ptr := (m ++ [blk], length m).

(** [new uint8_t[n]]: the bytes of the new array are indeterminate; [junk p k]
    is what byte [k] of block [p] happens to hold. *)
Definition new_array (junk : ptr → nat → Z) (m : Mem) (n : Z) : Mem * ptr :=
  alloc m (junk (length m) <$> seq 0 (Z.to_nat n)).

(** What one can observe of a memory: the bytes and the block sizes. *)
Definition peek (m : Mem) (p : ptr) (k : nat) : option Z := m !! p ≫= (.!! k).
Definition blen (m : Mem) (p : ptr) : option nat := length <$> m !! p.

(** ** Images and the image factory *)

Inductive PfncFormat : Type :=
| Mono8 | RGB8 | BGR8 | PolarizedAngles_0d_45d_90d_135d_Mono8.

Record IImage : Type := {
  GetData : ptr;
  GetSizeFilled : Z;
  GetWidth : Z;
  GetHeight : Z;
  GetPixelFormat : PfncFormat
}.

(** The SDK header that says what [Arena::ImageFactory::Create] does with
    [pData] is not part of the repository.  Both readings are kept: the
    factory allocates the image's own data and copies [dataSize] bytes of
    [pData] into it, or the image keeps [pData] itself. *)
Inductive Ownership : Type := OwnsData | SharesData.

(** Modelled from the spec: [Arena::ImageFactory::Create] (declared in the
    missing ArenaApi.h).  The spec's data model has every ChannelFrame
    "created fresh per RawFrame per angle" and "no shared or cyclic
    ownership", which is [OwnsData]; [SharesData] is the other reading of the
    call, kept for comparison. *)
Definition ImageFactory_Create (own : Ownership) (m : Mem)
    (pData : ptr) (dataSize width height : Z) (pixelFormat : PfncFormat)
  : res (Mem * IImage) :=
  match m !! pData with
  | Some blk =>
      if (Z.to_nat dataSize <=? length blk)%nat then
        match own with
        | OwnsData =>
            let '(m, p) := alloc m (take (Z.to_nat dataSize) blk) in
            Ret (m, {| GetData := p; GetSizeFilled := dataSize; GetWidth := width;
                       GetHeight := height; GetPixelFormat := pixelFormat |})
        | SharesData =>
            Ret (m, {| GetData := pData; GetSizeFilled := dataSize; GetWidth := width;
                       GetHeight := height; GetPixelFormat := pixelFormat |})
        end
      else Fault
  | None => Fault
  end.

(** A frame as the device delivers it. *)
Record Frame : Type := {
  frame_width : Z;
  frame_height : Z;
  frame_size : Z;
  frame_bytes : list Z
}.

(** Modelled from the spec: [Arena::ImageFactory::Copy] (missing ArenaApi.h);
    the capture loop keeps its own copy of every frame. *)
Definition ImageFactory_Copy (m : Mem) (f : Frame) : Mem * IImage :=
  let '(m, p) := alloc m (frame_bytes f) in
  (m, {| GetData := p; GetSizeFilled := frame_size f; GetWidth := frame_width f;
         GetHeight := frame_height f;
         GetPixelFormat := PolarizedAngles_0d_45d_90d_135d_Mono8 |}).

(** Modelled from the spec: [Arena::ImageFactory::Convert (image, RGB8)]
    (missing ArenaApi.h) for a Mono8 image: "the splitter's
    single-byte-per-pixel output is expanded to a 3-channel representation". *)
Definition mono8_to_rgb8 (bytes : list Z) : list Z :=
  bytes ≫= (λ g, [g; g; g]).

Definition ImageFactory_Convert_RGB8 (m : Mem) (img : IImage) : res (Mem * IImage) :=
  match m !! GetData img with
  | Some blk =>
      if (Z.to_nat (GetSizeFilled img) <=? length blk)%nat then
        let '(m, p) := alloc m (mono8_to_rgb8 (take (Z.to_nat (GetSizeFilled img)) blk)) in
        Ret (m, {| GetData := p; GetSizeFilled := 3 * GetSizeFilled img;
                   GetWidth := GetWidth img; GetHeight := GetHeight img;
                   GetPixelFormat := RGB8 |})
      else Fault
  | None => Fault
  end.

(** ** The splitting loop, record.cpp lines 246-265 *)

Inductive access : Type :=
| Rd (p : ptr) (i : Z)
| Wr (p : ptr) (i : Z) (b : Z).

(** The four accesses pairs of one pass through the loop body. *)
Definition split_step (inputBufferPtr outputBuffer0 outputBuffer45 outputBuffer90
    outputBuffer135 : ptr) (m : Mem) (i bufferIndex : Z) : res (Mem * list access) :=
  b0 ← load m inputBufferPtr i;
  m ← store m outputBuffer0 bufferIndex b0;
  b1 ← load m inputBufferPtr (wrap_u32 (i + 1));
  m ← store m outputBuffer45 bufferIndex b1;
  b2 ← load m inputBufferPtr (wrap_u32 (i + 2));
  m ← store m outputBuffer90 bufferIndex b2;
  b3 ← load m inputBufferPtr (wrap_u32 (i + 3));
  m ← store m outputBuffer135 bufferIndex b3;
  Ret (m, [Rd inputBufferPtr i; Wr outputBuffer0 bufferIndex b0;
           Rd inputBufferPtr (wrap_u32 (i + 1)); Wr outputBuffer45 bufferIndex b1;
           Rd inputBufferPtr (wrap_u32 (i + 2)); Wr outputBuffer90 bufferIndex b2;
           Rd inputBufferPtr (wrap_u32 (i + 3)); Wr outputBuffer135 bufferIndex b3]).

(** [for (uint32_t i = 0; i < buffer_size; i += 4) { ...; bufferIndex++; }]
    started at some [i] and [bufferIndex]; [tr] collects the accesses. *)
Fixpoint split_loop (fuel : nat) (inputBufferPtr outputBuffer0 outputBuffer45
    outputBuffer90 outputBuffer135 : ptr) (buffer_size : Z)
    (m : Mem) (tr : list access) (i bufferIndex : Z) : res (Mem * list access) :=
  if i <? buffer_size then
    match fuel with
    | O => OutOfFuel
    | S fuel =>
        '(m, ev) ← split_step inputBufferPtr outputBuffer0 outputBuffer45
                     outputBuffer90 outputBuffer135 m i bufferIndex;
        split_loop fuel inputBufferPtr outputBuffer0 outputBuffer45 outputBuffer90
          outputBuffer135 buffer_size m (tr ++ ev)
          (wrap_u32 (i + 4)) (wrap_u32 (bufferIndex + 1))
    end
  else Ret (m, tr).

(** The four output images of one frame. *)
Record Channels : Type := {
  outputImage0 : IImage;
  outputImage45 : IImage;
  outputImage90 : IImage;
  outputImage135 : IImage
}.

(** record.cpp lines 229-265: allocate the output images of frame [img] and
    fill them. *)
Definition split_frame (own : Ownership) (junk : ptr → nat → Z) (fuel : nat)
    (m : Mem) (img : IImage) : res (Mem * Channels * list access) :=
  let srcWidth := wrap_u32 (GetWidth img) in
  let srcHeight := wrap_u32 (GetHeight img) in
  let '(m, dummyBuffer) := new_array junk m (wrap_u32 (srcWidth * srcHeight)) in
  '(m, o0) ← ImageFactory_Create own m dummyBuffer
               (wrap_u32 (srcWidth * srcHeight)) srcWidth srcHeight Mono8;
  '(m, o45) ← ImageFactory_Create own m dummyBuffer
               (wrap_u32 (srcWidth * srcHeight)) srcWidth srcHeight Mono8;
  '(m, o90) ← ImageFactory_Create own m dummyBuffer
               (wrap_u32 (srcWidth * srcHeight)) srcWidth srcHeight Mono8;
  '(m, o135) ← ImageFactory_Create own m dummyBuffer
               (wrap_u32 (srcWidth * srcHeight)) srcWidth srcHeight Mono8;
  let buffer_size := wrap_u64 (GetSizeFilled img - 1) in
  '(m, tr) ← split_loop fuel (GetData img) (GetData o0) (GetData o45) (GetData o90)
               (GetData o135) buffer_size m [] 0 0;
  Ret (m, {| outputImage0 := o0; outputImage45 := o45;
             outputImage90 := o90; outputImage135 := o135 |}, tr).

(** The bytes an image holds. *)
Definition image_bytes (m : Mem) (img : IImage) : option (list Z) :=
  take (Z.to_nat (GetSizeFilled img)) <$> m !! GetData img.

(** The plane of one angle as the spec words it:
    [ChannelFrame_angle[k] = RawFrame[4k + angle_offset]]. *)
Fixpoint spec_channel (angle_offset : nat) (raw : list Z) : list Z :=
  match raw with
  | a :: b :: c :: d :: rest =>
      nth angle_offset [a; b; c; d] 0 :: spec_channel angle_offset rest
  | _ => []
  end.

(** ** The world the program runs in *)

Inductive StreamState : Type := Unopened | Open | Closed.

Record VideoParams : Type := {
  vp_width : Z;
  vp_height : Z;
  vp_fps : float
}.

(** Modelled from the spec: [Save::VideoRecorder] (missing SaveApi.h), the
    spec's VideoStream: "a sink with state {Unopened, Open, Closed}, bound to
    one output file path, one (width, height, frame-rate) triple, and a fixed
    codec/container/pixel-format choice". *)
Record VideoRecorder : Type := {
  vr_params : VideoParams;
  vr_h264_mp4_bgr8 : bool;
  vr_state : StreamState;
  vr_frames : list (list Z)
}.

(** Everything the program reads from outside. *)
Record Env : Type := {
  strtol : string → Z;                (* libc *)
  strtof : string → float;            (* libc *)
  continueExample : ascii;            (* the character typed at the prompt *)
  pending : list ascii;               (* what follows it on the standard input *)
  deviceInfos : nat;                  (* number of cameras found *)
  GetImage : nat → option Frame;      (* n-th grab: a frame, or a timeout *)
  can_open : string → bool;           (* can the encoder open this file? *)
  junk : ptr → nat → Z                (* contents of fresh arrays *)
}.

Record Sys : Type := {
  device : INodeMap;                  (* pDevice->GetNodeMap() *)
  tlstream : INodeMap;                (* pDevice->GetTLStreamNodeMap() *)
  streaming : bool;
  grabbed : nat;
  mem : Mem;
  videos : gmap string VideoRecorder  (* the recorders, by file name *)
}.

Definition set_device (nm : INodeMap) (s : Sys) : Sys :=
  {| device := nm; tlstream := tlstream s; streaming := streaming s;
     grabbed := grabbed s; mem := mem s; videos := videos s |}.
Definition set_tlstream (nm : INodeMap) (s : Sys) : Sys :=
  {| device := device s; tlstream := nm; streaming := streaming s;
     grabbed := grabbed s; mem := mem s; videos := videos s |}.
Definition set_streaming (b : bool) (s : Sys) : Sys :=
  {| device := device s; tlstream := tlstream s; streaming := b;
     grabbed := grabbed s; mem := mem s; videos := videos s |}.
Definition set_grabbed (n : nat) (s : Sys) : Sys :=
  {| device := device s; tlstream := tlstream s; streaming := streaming s;
     grabbed := n; mem := mem s; videos := videos s |}.
Definition set_mem (m : Mem) (s : Sys) : Sys :=
  {| device := device s; tlstream := tlstream s; streaming := streaming s;
     grabbed := grabbed s; mem := m; videos := videos s |}.
Definition set_videos (v : gmap string VideoRecorder) (s : Sys) : Sys :=
  {| device := device s; tlstream := tlstream s; streaming := streaming s;
     grabbed := grabbed s; mem := mem s; videos := v |}.

(** State and exceptions: the state reached when an exception is thrown is
    kept, as the device and the files keep what was done to them. *)
Definition M (A : Type) : Type := Sys → res A * Sys.

Definition M_bind {A B : Type} (c : M A) (k : A → M B) : M B :=
  λ s, match c s with
       | (Ret a, s) => k a s
       | (Throw e, s) => (Throw e, s)
       | (Fault, s) => (Fault, s)
       | (OutOfFuel, s) => (OutOfFuel, s)
       end.

#[global] Instance M_mbind : MBind M := λ A B k c, M_bind c k.
#[global] Instance M_mret : MRet M := λ A a s, (Ret a, s).

Definition lift {A S : Type} (get : Sys → S) (set : S → Sys → Sys)
    (f : S → res (S * A)) : M A :=
  λ s, match f (get s) with
       | Ret (x, a) => (Ret a, set x s)
       | Throw e => (Throw e, s)
       | Fault => (Fault, s)
       | OutOfFuel => (OutOfFuel, s)
       end.

Definition on_device {A : Type} := @lift A INodeMap device set_device.
Definition on_tlstream {A : Type} := @lift A INodeMap tlstream set_tlstream.
Definition on_mem {A : Type} := @lift A Mem mem set_mem.

(** [Arena::GetNodeValue<T>] and [Arena::SetNodeValue<T>] at the three types
    the program uses them at; a missing node or one of another kind throws. *)
Definition GetNodeValue_string (nodeName : string) (nm : INodeMap) : res (INodeMap * string) :=
  match nm !! nodeName with
  | Some (StringNode v) => Ret (nm, v)
  | _ => Throw (null_node nodeName)
  end.
Definition GetNodeValue_bool (nodeName : string) (nm : INodeMap) : res (INodeMap * bool) :=
  match nm !! nodeName with
  | Some (BooleanNode v) => Ret (nm, v)
  | _ => Throw (null_node nodeName)
  end.
Definition GetNodeValue_double (nodeName : string) (nm : INodeMap) : res (INodeMap * float) :=
  match nm !! nodeName with
  | Some (FloatNode v _ _) => Ret (nm, v)
  | _ => Throw (null_node nodeName)
  end.
Definition GetNodeValue_int64 (nodeName : string) (nm : INodeMap) : res (INodeMap * Z) :=
  match nm !! nodeName with
  | Some (IntegerNode v _ _ _) => Ret (nm, v)
  | _ => Throw (null_node nodeName)
  end.
Definition SetNodeValue_string (nodeName : string) (v : string) (nm : INodeMap)
  : res (INodeMap * unit) :=
  match nm !! nodeName with
  | Some (StringNode _) => Ret (<[nodeName := StringNode v]> nm, tt)
  | _ => Throw (null_node nodeName)
  end.
Definition SetNodeValue_bool (nodeName : string) (v : bool) (nm : INodeMap)
  : res (INodeMap * unit) :=
  match nm !! nodeName with
  | Some (BooleanNode _) => Ret (<[nodeName := BooleanNode v]> nm, tt)
  | _ => Throw (null_node nodeName)
  end.

(** ** [RecordVideo], record.cpp lines 151-284 *)

Definition FILE_NAME_0 : string := "video_0.mp4".
Definition FILE_NAME_45 : string := "video_45.mp4".
Definition FILE_NAME_90 : string := "video_90.mp4".
Definition FILE_NAME_135 : string := "video_135.mp4".

Definition with_state (st : StreamState) (r : VideoRecorder) : VideoRecorder :=
  {| vr_params := vr_params r; vr_h264_mp4_bgr8 := vr_h264_mp4_bgr8 r;
     vr_state := st; vr_frames := vr_frames r |}.

Definition VideoRecorder_new (params : VideoParams) (fileName : string) : M unit :=
  λ s, (Ret (),
        set_videos (<[fileName := {| vr_params := params; vr_h264_mp4_bgr8 := false;
                                      vr_state := Unopened; vr_frames := [] |}]>
                      (videos s)) s).

Definition VideoRecorder_SetH264Mp4BGR8 (fileName : string) : M unit :=
  λ s, match videos s !! fileName with
       | Some r =>
           (Ret (),
            set_videos (<[fileName := {| vr_params := vr_params r; vr_h264_mp4_bgr8 := true;
                                          vr_state := vr_state r;
                                          vr_frames := vr_frames r |}]> (videos s)) s)
       | None => (Fault, s)
       end.

Definition VideoRecorder_Open (env : Env) (fileName : string) : M unit :=
  λ s, match videos s !! fileName with
       | Some r =>
           match vr_state r with
           | Unopened =>
               if can_open env fileName
               then (Ret (), set_videos (<[fileName := with_state Open r]> (videos s)) s)
               else (Throw (GenericException ("cannot open " +:+ fileName)), s)
           | _ => (Throw (GenericException ("already opened " +:+ fileName)), s)
           end
       | None => (Fault, s)
       end.

Definition VideoRecorder_AppendImage (fileName : string) (pData : ptr) : M unit :=
  λ s, match videos s !! fileName with
       | Some r =>
           match vr_state r with
           | Open =>
               match mem s !! pData with
               | Some blk =>
                   (Ret (),
                    set_videos (<[fileName := {| vr_params := vr_params r;
                                                  vr_h264_mp4_bgr8 := vr_h264_mp4_bgr8 r;
                                                  vr_state := Open;
                                                  vr_frames := vr_frames r ++ [blk] |}]>
                                  (videos s)) s)
               | None => (Fault, s)
               end
           | _ => (Throw (GenericException ("not open " +:+ fileName)), s)
           end
       | None => (Fault, s)
       end.

Definition VideoRecorder_Close (fileName : string) : M unit :=
  λ s, match videos s !! fileName with
       | Some r =>
           match vr_state r with
           | Open => (Ret (), set_videos (<[fileName := with_state Closed r]> (videos s)) s)
           | _ => (Throw (GenericException ("not open " +:+ fileName)), s)
           end
       | None => (Fault, s)
       end.

(** One pass through the append loop, lines 229-272. *)
Definition append_frame (own : Ownership) (env : Env) (fuel : nat) (img : IImage) : M unit :=
  ch ← on_mem (λ m, '(m, ch, _) ← split_frame own (junk env) fuel m img; Ret (m, ch));
  c0 ← on_mem (λ m, ImageFactory_Convert_RGB8 m (outputImage0 ch));
  VideoRecorder_AppendImage FILE_NAME_0 (GetData c0);;
  c45 ← on_mem (λ m, ImageFactory_Convert_RGB8 m (outputImage45 ch));
  VideoRecorder_AppendImage FILE_NAME_45 (GetData c45);;
  c90 ← on_mem (λ m, ImageFactory_Convert_RGB8 m (outputImage90 ch));
  VideoRecorder_AppendImage FILE_NAME_90 (GetData c90);;
  c135 ← on_mem (λ m, ImageFactory_Convert_RGB8 m (outputImage135 ch));
  VideoRecorder_AppendImage FILE_NAME_135 (GetData c135).

Fixpoint append_images (own : Ownership) (env : Env) (fuel : nat) (images : list IImage)
  : M unit :=
  match images with
  | [] => mret ()
  | img :: images => append_frame own env fuel img;; append_images own env fuel images
  end.

Definition RecordVideo (own : Ownership) (env : Env) (fuel : nat)
    (images : list IImage) (fps : float) : M unit :=
  match images with
  | [] => λ s, (Fault, s)            (* images[0] of an empty vector *)
  | first :: _ =>
      let params := {| vp_width := GetWidth first; vp_height := GetHeight first;
                       vp_fps := fps |} in
      VideoRecorder_new params FILE_NAME_0;;
      VideoRecorder_new params FILE_NAME_45;;
      VideoRecorder_new params FILE_NAME_90;;
      VideoRecorder_new params FILE_NAME_135;;
      VideoRecorder_SetH264Mp4BGR8 FILE_NAME_0;;
      VideoRecorder_SetH264Mp4BGR8 FILE_NAME_45;;
      VideoRecorder_SetH264Mp4BGR8 FILE_NAME_90;;
      VideoRecorder_SetH264Mp4BGR8 FILE_NAME_135;;
      VideoRecorder_Open env FILE_NAME_0;;
      VideoRecorder_Open env FILE_NAME_45;;
      VideoRecorder_Open env FILE_NAME_90;;
      VideoRecorder_Open env FILE_NAME_135;;
      append_images own env fuel images;;
      VideoRecorder_Close FILE_NAME_0;;
      VideoRecorder_Close FILE_NAME_45;;
      VideoRecorder_Close FILE_NAME_90;;
      VideoRecorder_Close FILE_NAME_135
  end.

(** ** [main], record.cpp lines 291-545 *)

Definition WIDTH : Z := 2448.
Definition HEIGHT : Z := 2048.
Definition NUM_IMAGES : Z := 50.
Definition FRAMES_PER_SECOND : float := 10%float.

Inductive Parse : Type :=
| Parsed (width height numImages : Z) (fps : float)
| ParseExit (code : Z).

(** The argument loop, lines 304-339, over [argv[1..]]. *)
Fixpoint parse_args (env : Env) (args : list string)
    (width height numImages : Z) (fps : float) : Parse :=
  match args with
  | [] => Parsed width height numImages fps
  | a :: rest =>
      match rest with
      | v :: rest =>
          if String.eqb a "-w" then
            parse_args env rest (wrap_i64 (strtol env v)) height numImages fps
          else if String.eqb a "-h" then
            parse_args env rest width (wrap_i64 (strtol env v)) numImages fps
          else if String.eqb a "-n" then
            parse_args env rest width height (wrap_u32 (strtol env v)) fps
          else if String.eqb a "-fps" then
            let fps := strtof env v in
            if (fps <=? 0)%float then ParseExit (-1)
            else parse_args env rest width height numImages fps
          else if String.eqb a "--help" then ParseExit 0
          else ParseExit (-1)
      | [] =>
          if String.eqb a "--help" then ParseExit 0 else ParseExit (-1)
      end
  end.

Definition Device_StartStream : M unit := λ s, (Ret (), set_streaming true s).
Definition Device_StopStream : M unit := λ s, (Ret (), set_streaming false s).

(** [pDevice->GetImage(2000)]: the next frame, or a timeout exception. *)
Definition Device_GetImage (env : Env) : M Frame :=
  λ s, if streaming s then
         match GetImage env (grabbed s) with
         | Some f => (Ret f, set_grabbed (S (grabbed s)) s)
         | None => (Throw (GenericException "timeout"), s)
         end
       else (Throw (GenericException "not streaming"), s).

(** The capture loop, lines 465-483. *)
Fixpoint capture (env : Env) (count : nat) (images : list IImage) : M (list IImage) :=
  match count with
  | O => mret images
  | S count =>
      pImage ← Device_GetImage env;
      img ← on_mem (λ m, Ret (ImageFactory_Copy m pImage));
      capture env count (images ++ [img])
  end.

(** The settings saved at the start of the session, lines 391-414. *)
Record Initial : Type := {
  acquisitionModeInitial : string;
  frameRateEnableInitial : bool;
  frameRateInitial : float;
  imageWidthInitial : Z;
  imageHeightInitial : Z
}.

(** "Store initial settings", lines 391-414. *)
Definition store_initial_settings : M Initial :=
  acquisitionModeInitial ← on_device (GetNodeValue_string "AcquisitionMode");
  frameRateEnableInitial ← on_device (GetNodeValue_bool "AcquisitionFrameRateEnable");
  frameRateInitial ←
    (if frameRateEnableInitial : bool
     then on_device (GetNodeValue_double "AcquisitionFrameRate")
     else mret 0%float);
  imageWidthInitial ← on_device (GetNodeValue_int64 "Width");
  imageHeightInitial ← on_device (GetNodeValue_int64 "Height");
  mret {| acquisitionModeInitial := acquisitionModeInitial;
          frameRateEnableInitial := frameRateEnableInitial;
          frameRateInitial := frameRateInitial;
          imageWidthInitial := imageWidthInitial;
          imageHeightInitial := imageHeightInitial |}.

(** Lines 416-460: acquisition mode, pixel format, width, height, frame
    rate, and the two stream settings. *)
Definition configure_device (width height : Z) (fps : float) : M (Z * Z * float) :=
  on_device (SetNodeValue_string "AcquisitionMode" "Continuous");;
  on_device (SetNodeValue_string "PixelFormat" "PolarizedAngles_0d_45d_90d_135d_Mono8");;
  width ← on_device (λ nm, SetIntValue nm "Width" width);
  height ← on_device (λ nm, SetIntValue nm "Height" height);
  on_device (SetNodeValue_bool "AcquisitionFrameRateEnable" true);;
  fps ← on_device (λ nm, SetFloatValue nm "AcquisitionFrameRate" fps);
  on_tlstream (SetNodeValue_bool "StreamAutoNegotiatePacketSize" true);;
  on_tlstream (SetNodeValue_bool "StreamPacketResendEnable" true);;
  mret (width, height, fps).

(** "Restore initial settings", lines 497-512. *)
Definition restore_initial_settings (init : Initial) : M unit :=
  on_device (λ nm, SetIntValue nm "Width" (imageWidthInitial init));;
  on_device (λ nm, SetIntValue nm "Height" (imageHeightInitial init));;
  on_device (SetNodeValue_string "AcquisitionMode" (acquisitionModeInitial init));;
  on_device (SetNodeValue_bool "AcquisitionFrameRateEnable" (frameRateEnableInitial init));;
  if frameRateEnableInitial init
  then on_device (λ nm, SetFloatValue nm "AcquisitionFrameRate" (frameRateInitial init));;
       mret ()
  else mret ().

(** The body of the [try] block, lines 373-516.  [Some code] is a [return
    code] from inside the block. *)
Definition session (own : Ownership) (env : Env) (fuel : nat)
    (width height numImages : Z) (fps : float) : M (option Z) :=
  if (deviceInfos env =? 0)%nat then mret (Some 0)
  else if numImages =? 0 then mret (Some 0)
  else
    init ← store_initial_settings;
    '(width, height, fps) ← configure_device width height fps;
    Device_StartStream;;
    images ← capture env (Z.to_nat numImages) [];
    Device_StopStream;;
    RecordVideo own env fuel images fps;;
    restore_initial_settings init;;
    mret None.

(** "clear input", lines 364-365 and 536-537:
    [while (std::cin.get() != '\n') continue;].  [get] takes the next
    character of the input; once the input has ended it returns [EOF], which
    is not ['\n'], every time it is called. *)
Fixpoint clear_input (fuel : nat) (input : list ascii) : res (list ascii) :=
  match fuel with
  | O => OutOfFuel
  | S fuel =>
      match input with
      | [] => clear_input fuel []
      | c :: input => if Ascii.eqb c "010" then Ret input else clear_input fuel input
      end
  end.

(** [std::getchar()]: one more character, or [EOF]; it returns either way. *)
Definition getchar (input : list ascii) : list ascii := tail input.

(** "Press enter to complete" and [return code], lines 362-368 and 533-544. *)
Definition press_enter (fuel : nat) (input : list ascii) (code : Z) : res Z :=
  input ← clear_input fuel input;
  let _ := getchar input in
  Ret code.

Definition main (own : Ownership) (env : Env) (fuel : nat) (args : list string)
    (s : Sys) : res Z * Sys :=
  match parse_args env args WIDTH HEIGHT NUM_IMAGES FRAMES_PER_SECOND with
  | ParseExit code => (Ret code, s)
  | Parsed width height numImages fps =>
      if (height =? 0) || (width =? 0) then (Ret (-1), s)
      else if negb (Ascii.eqb (continueExample env) "y")
      then (press_enter fuel (pending env) (-1), s)
      else
        match session own env fuel width height numImages fps s with
        | (Ret (Some code), s) => (Ret code, s)   (* [getchar] and [return 0] *)
        | (Ret None, s) => (press_enter fuel (pending env) 0, s)
        | (Throw _, s) =>                         (* the three catch clauses *)
            (press_enter fuel (pending env) (-1), s)
        | (Fault, s) => (Fault, s)
        | (OutOfFuel, s) => (OutOfFuel, s)
        end
  end.

(** ** What the splitting loop is expected to do

    The accesses of stride group [k] on a source [raw], and, for a block
    [q], the offset of the last of the four output pointers that is [q]:
    when two output pointers are the same block, the later store wins. *)

Definition group_accesses (inp o0 o45 o90 o135 : ptr) (raw : list Z) (k : nat)
  : list access :=
  [Rd inp (4 * Z.of_nat k);     Wr o0 (Z.of_nat k) (nth (4 * k) raw 0);
   Rd inp (4 * Z.of_nat k + 1); Wr o45 (Z.of_nat k) (nth (4 * k + 1) raw 0);
   Rd inp (4 * Z.of_nat k + 2); Wr o90 (Z.of_nat k) (nth (4 * k + 2) raw 0);
   Rd inp (4 * Z.of_nat k + 3); Wr o135 (Z.of_nat k) (nth (4 * k + 3) raw 0)].

Definition writer (o0 o45 o90 o135 q : ptr) : option nat :=
  if decide (q = o135) then Some 3%nat
  else if decide (q = o90) then Some 2%nat
  else if decide (q = o45) then Some 1%nat
  else if decide (q = o0) then Some 0%nat
  else None.

(** The outputs are allocated and hold at least [N] bytes each. *)
Definition outputs_fit (o0 o45 o90 o135 : ptr) (N : nat) (m : Mem) : Prop :=
  ∀ o, o ∈ [o0; o45; o90; o135] → ∃ L, blen m o = Some L ∧ (N ≤ L)%nat.

(** The indices the loop reads from the source. *)
Definition reads_of (inp : ptr) (tr : list access) : list Z :=
  omap (λ a, match a with
             | Rd p i => if decide (p = inp) then Some i else None
             | Wr _ _ _ => None
             end) tr.

(** The indices of block [p] the loop writes. *)
Definition writes_to (p : ptr) (tr : list access) : list Z :=
  omap (λ a, match a with
             | Wr q i _ => if decide (q = p) then Some i else None
             | Rd _ _ => None
             end) tr.

(** The bytes of an output block of [size] bytes after [N] groups of [raw]
    were written at offset [off] over the indeterminate contents [old]. *)
Definition plane (old : nat → Z) (raw : list Z) (N size off : nat) : list Z :=
  (λ k, if (k <? N)%nat then nth (4 * k + off) raw 0 else old k) <$> seq 0 size.

(** Number of bytes of the output buffers: [srcWidth * srcHeight] in
    [uint32_t]. *)
Definition out_size (img : IImage) : Z :=
  wrap_u32 (wrap_u32 (GetWidth img) * wrap_u32 (GetHeight img)).

(** The output image the loop fills, at block [p]. *)
Definition channel_image (img : IImage) (p : ptr) : IImage :=
  {| GetData := p; GetSizeFilled := out_size img;
     GetWidth := wrap_u32 (GetWidth img); GetHeight := wrap_u32 (GetHeight img);
     GetPixelFormat := Mono8 |}.

(** The number of stride groups the loop runs on a frame of [size] filled
    bytes: the number of [k] with [4k < size - 1]. *)
Definition stride_groups (size : Z) : nat := Z.to_nat ((size + 2) / 4).

(** The loop runs [N] stride groups over frame [img], whose data is [raw],
    and all its accesses are in bounds. *)
Record frame_fits (m : Mem) (img : IImage) (raw : list Z) (N : nat) : Prop := {
  fits_data : m !! GetData img = Some raw;
  fits_size : 1 ≤ GetSizeFilled img < 2 ^ 64;
  fits_last : GetSizeFilled img - 1 ≤ 4 * Z.of_nat N;
  fits_each : ∀ k, (k < N)%nat → 4 * Z.of_nat k < GetSizeFilled img - 1;
  fits_raw : (4 * N ≤ length raw)%nat;
  fits_out : Z.of_nat N ≤ out_size img;
  fits_u32 : 4 * Z.of_nat N < 2 ^ 32
}.

(** A RawFrame of the spec's data model: [width * height * 4] bytes, all of
    them filled, for an image of at least one pixel whose byte count fits the
    loop counter. *)
Record wf_frame (m : Mem) (img : IImage) (raw : list Z) : Prop := {
  wf_data : m !! GetData img = Some raw;
  wf_width : 0 < GetWidth img;
  wf_height : 0 < GetHeight img;
  wf_filled : GetSizeFilled img = GetWidth img * GetHeight img * 4;
  wf_length : Z.of_nat (length raw) = GetSizeFilled img;
  wf_u32 : GetSizeFilled img < 2 ^ 32
}.

(** The claim about the loop bound as the spec words it: whatever frame is
    split, no source index above the usable length (the filled size minus
    one) is read. *)
Definition reads_stop_at_usable_length : Prop :=
  ∀ (junk : ptr → nat → Z) (fuel : nat) (m m' : Mem) (img : IImage)
    (ch : Channels) (tr : list access),
    split_frame OwnsData junk fuel m img = Ret (m', ch, tr) →
    ∀ i, i ∈ reads_of (GetData img) tr → i ≤ GetSizeFilled img - 1.

(** The value [SetIntValue] settles on: snapped down to the increment grid,
    then pushed into range. *)
Definition snap_clamp (mn mx inc value : Z) : Z :=
  let value := wrap_i64 (wrap_i64 (wrap_i64 (wrap_i64 (value - mn) ÷ inc) * inc) + mn) in
  let value := if value <? mn then mn else value in
  if value >? mx then mx else value.

(** The value [SetFloatValue] settles on. *)
Definition clamp_float (mn mx value : float) : float :=
  let value := if (value <? mn)%float then mn else value in
  if (mx <? value)%float then mx else value.

(** ** Properties of runs of [main] *)

(** The two integer nodes the program sets have a positive increment: the
    division of [SetIntValue] is then defined for every request. *)
Definition positive_increment (o : option Node) : Prop :=
  match o with
  | Some (IntegerNode _ _ _ inc) => 0 < inc
  | _ => True
  end.

Definition positive_increments (nm : INodeMap) : Prop :=
  positive_increment (nm !! "Width") ∧ positive_increment (nm !! "Height").

(** A line end is waiting on the standard input, within the loop bound
    given to the model: "clear input" comes to an end. *)
Definition enter_pending (fuel : nat) (env : Env) : Prop :=
  ∃ k, (k < fuel)%nat ∧ pending env !! k = Some "010"%char.

(** The value an integer node holds is one the node accepts: in range, on
    the increment grid, and the arithmetic of [SetIntValue] on it stays
    within [int64_t]. *)
Definition int_setting_valid (o : option Node) : Prop :=
  match o with
  | Some (IntegerNode v mn mx inc) =>
      mn ≤ v ≤ mx ∧ 0 < inc ∧ (v - mn) mod inc = 0
      ∧ - 2 ^ 63 ≤ mn ∧ mx < 2 ^ 63 ∧ mx - mn < 2 ^ 63
  | _ => True
  end.






(** What the device calls leave alone. *)
Definition same_session (s s' : Sys) : Prop :=
  videos s' = videos s ∧ mem s' = mem s ∧ grabbed s' = grabbed s
  ∧ streaming s' = streaming s.

(** The device node map once [configure_device] has gone through. *)
Definition configured (nm : INodeMap) (width height : Z) (fps : float) : INodeMap :=
  match nm !! "Width", nm !! "Height", nm !! "AcquisitionFrameRate" with
  | Some (IntegerNode _ wmn wmx winc), Some (IntegerNode _ hmn hmx hinc),
    Some (FloatNode _ fmn fmx) =>
      <["AcquisitionFrameRate" := FloatNode (clamp_float fmn fmx fps) fmn fmx]>
      (<["AcquisitionFrameRateEnable" := BooleanNode true]>
      (<["Height" := IntegerNode (snap_clamp hmn hmx hinc height) hmn hmx hinc]>
      (<["Width" := IntegerNode (snap_clamp wmn wmx winc width) wmn wmx winc]>
      (<["PixelFormat" := StringNode "PolarizedAngles_0d_45d_90d_135d_Mono8"]>
      (<["AcquisitionMode" := StringNode "Continuous"]> nm)))))
  | _, _, _ => nm
  end.

(** The device node map once [restore_initial_settings] has gone through. *)
Definition restored (nm : INodeMap) (init : Initial) : INodeMap :=
  match nm !! "Width", nm !! "Height" with
  | Some (IntegerNode _ wmn wmx winc), Some (IntegerNode _ hmn hmx hinc) =>
      let nm' :=
        <["AcquisitionFrameRateEnable" := BooleanNode (frameRateEnableInitial init)]>
        (<["AcquisitionMode" := StringNode (acquisitionModeInitial init)]>
        (<["Height" := IntegerNode (snap_clamp hmn hmx hinc (imageHeightInitial init))
                         hmn hmx hinc]>
        (<["Width" := IntegerNode (snap_clamp wmn wmx winc (imageWidthInitial init))
                        wmn wmx winc]> nm))) in
      if frameRateEnableInitial init then
        match nm !! "AcquisitionFrameRate" with
        | Some (FloatNode _ fmn fmx) =>
            <["AcquisitionFrameRate" :=
                FloatNode (clamp_float fmn fmx (frameRateInitial init)) fmn fmx]> nm'
        | _ => nm'
        end
      else nm'
  | _, _ => nm
  end.

(** A computation leaves the part [f] of the state alone, however it ends. *)
Definition keeps {X A : Type} (f : Sys → X) (c : M A) : Prop :=
  ∀ s, f (c s).2 = f s.

(** ** Properties of the recording *)

(** A recorder set to H264/MP4/BGR8, in state [st], holding [frames]. *)
Definition recorder (params : VideoParams) (st : StreamState) (frames : list (list Z))
  : VideoRecorder :=
  {| vr_params := params; vr_h264_mp4_bgr8 := true; vr_state := st; vr_frames := frames |}.

(** The four streams are in state [st] and hold these frames. *)
Definition streams (s : Sys) (params : VideoParams) (st : StreamState)
    (f0 f45 f90 f135 : list (list Z)) : Prop :=
  videos s !! FILE_NAME_0 = Some (recorder params st f0)
  ∧ videos s !! FILE_NAME_45 = Some (recorder params st f45)
  ∧ videos s !! FILE_NAME_90 = Some (recorder params st f90)
  ∧ videos s !! FILE_NAME_135 = Some (recorder params st f135).

(** What is handed to the recorder of the angle at offset [off] for the
    frame [raw]: that angle's plane, expanded to three bytes per pixel. *)
Definition encoded (off : nat) (raw : list Z) : list Z :=
  mono8_to_rgb8 (spec_channel off raw).

(** Every frame fits the loop bound given to the model. *)
Definition enough_fuel (fuel : nat) (images : list IImage) : Prop :=
  Forall (λ img, (Z.to_nat (GetWidth img * GetHeight img) ≤ fuel)%nat) images.

(** The claim about the buffers handed to the recorders as it is worded:
    whatever is recorded, the four streams receive the same bytes, frame by
    frame. *)
Definition streams_receive_identical_frames (own : Ownership) : Prop :=
  ∀ (env : Env) (fuel : nat) (images : list IImage) (fps : float) (s s' : Sys),
    RecordVideo own env fuel images fps s = (Ret (), s') →
    ∀ a b, a ∈ [FILE_NAME_0; FILE_NAME_45; FILE_NAME_90; FILE_NAME_135] →
           b ∈ [FILE_NAME_0; FILE_NAME_45; FILE_NAME_90; FILE_NAME_135] →
           vr_frames <$> videos s' !! a = vr_frames <$> videos s' !! b.

(** ** A small world to run the program in *)

Definition ex_raw : list Z := [10; 20; 30; 40; 11; 21; 31; 41].

Definition ex_frame : Frame :=
  {| frame_width := 2; frame_height := 1; frame_size := 8; frame_bytes := ex_raw |}.

Definition ex_device : INodeMap :=
  <["AcquisitionMode" := StringNode "SingleFrame"]>
  (<["AcquisitionFrameRateEnable" := BooleanNode true]>
  (<["AcquisitionFrameRate" := FloatNode 30 1 100]>
  (<["Width" := IntegerNode 2448 8 2448 8]>
  (<["Height" := IntegerNode 2048 2 2048 2]>
  (<["PixelFormat" := StringNode "Mono8"]> ∅))))).

Definition ex_tlstream : INodeMap :=
  <["StreamAutoNegotiatePacketSize" := BooleanNode false]>
  (<["StreamPacketResendEnable" := BooleanNode false]> ∅).

Definition ex_sys : Sys :=
  {| device := ex_device; tlstream := ex_tlstream; streaming := false;
     grabbed := 0; mem := []; videos := ∅ |}.

(** The frame of the spec's scenario, two pixels wide, alone in memory. *)
Definition ex_img : IImage :=
  {| GetData := 0%nat; GetSizeFilled := 8; GetWidth := 2; GetHeight := 1;
     GetPixelFormat := PolarizedAngles_0d_45d_90d_135d_Mono8 |}.

(** A frame that reports six filled bytes in a buffer of eight. *)
Definition ex_short : IImage :=
  {| GetData := 0%nat; GetSizeFilled := 6; GetWidth := 2; GetHeight := 1;
     GetPixelFormat := PolarizedAngles_0d_45d_90d_135d_Mono8 |}.

(** The scenario's frame captured once, before recording starts. *)
Definition ex_captured : Sys :=
  {| device := ex_device; tlstream := ex_tlstream; streaming := false;
     grabbed := 1; mem := [ex_raw]; videos := ∅ |}.

(** The same, with the four streams open and empty. *)
Definition ex_params : VideoParams := {| vp_width := 2; vp_height := 1; vp_fps := 10 |}.

Definition ex_recording : Sys :=
  {| device := ex_device; tlstream := ex_tlstream; streaming := false;
     grabbed := 1; mem := [ex_raw];
     videos := <[FILE_NAME_0 := recorder ex_params Open []]>
               (<[FILE_NAME_45 := recorder ex_params Open []]>
               (<[FILE_NAME_90 := recorder ex_params Open []]>
               (<[FILE_NAME_135 := recorder ex_params Open []]> ∅))) |}.

(** A camera that delivers [good] frames and then times out; the user
    types [y] and the enter key. *)
Definition ex_env (good : nat) : Env :=
  {| strtol := λ s, if String.eqb s "0" then 0 else if String.eqb s "2" then 2 else 64;
     strtof := λ _, nan;
     continueExample := "y";
     pending := ["010"%char];
     deviceInfos := 1;
     GetImage := λ n, if (n <? good)%nat then Some ex_frame else None;
     can_open := λ _, true;
     junk := λ _ _, 0 |}.

(** ** Proof steps used throughout *)

(** Reduce the binds of [res] once their first argument is a value. *)
Ltac res_step := cbn [mbind res_mbind res_bind mret res_mret].

Ltac m_step := cbn [mbind M_mbind M_bind mret M_mret].

(** A thrown exception ends the phase in a state that differs from the
    start in the node maps only. *)
Ltac phase_throws :=
  left; do 2 eexists; split; [reflexivity|by repeat split].

(** Look a recorder up in the state a sequence of recorder calls built. *)
Ltac video_lookup :=
  cbn [videos mem set_videos set_mem];
  repeat (rewrite lookup_insert_eq || rewrite lookup_insert_ne by done);
  done.

(** ** Further properties of the argument loop and of [main] *)

(** What the argument loop can hand on: a width and a height that fit
    [int64_t], a frame count that fits [uint32_t], a frame rate that is not
    [<= 0]; or one of the two exit codes. *)
Definition parse_in_range (p : Parse) : Prop :=
  match p with
  | Parsed width height numImages fps =>
      - 2 ^ 63 ≤ width < 2 ^ 63 ∧ - 2 ^ 63 ≤ height < 2 ^ 63
      ∧ 0 ≤ numImages < 2 ^ 32 ∧ (fps <=? 0)%float = false
  | ParseExit code => code = 0 ∨ code = -1
  end.

(** A frame of two pixels of which only the first four bytes are filled. *)
Definition ex_half : IImage :=
  {| GetData := 0%nat; GetSizeFilled := 4; GetWidth := 2; GetHeight := 1;
     GetPixelFormat := PolarizedAngles_0d_45d_90d_135d_Mono8 |}.

(** ** Further properties of the capture loop and of the session *)

(** The images the capture loop builds from [frames], the first of them in
    block [base]. *)
Fixpoint copied (base : ptr) (frames : list Frame) : list IImage :=
  match frames with
  | [] => []
  | f :: frames =>
      {| GetData := base; GetSizeFilled := frame_size f; GetWidth := frame_width f;
         GetHeight := frame_height f;
         GetPixelFormat := PolarizedAngles_0d_45d_90d_135d_Mono8 |}
      :: copied (S base) frames
  end.

(** From grab number [g] on the camera delivers [frames], one per grab. *)
Definition delivers (env : Env) (g : nat) (frames : list Frame) : Prop :=
  ∀ i f, frames !! i = Some f → GetImage env (g + i) = Some f.


(** A well-formed integer node: a positive increment, a value within
    range, a maximum on the increment grid, and bounds small enough for
    differences of values in range to stay within [int64_t]. *)
Definition int_node_ready (o : option Node) : Prop :=
  match o with
  | Some (IntegerNode v mn mx inc) =>
      0 < inc ∧ mn ≤ v ≤ mx ∧ (mx - mn) mod inc = 0 ∧ - 2 ^ 62 ≤ mn ∧ mx < 2 ^ 62
  | _ => False
  end.

(** The device has the nodes the session reads and writes, each of the type
    the call asks for, and the two integer nodes are well formed. *)
Definition device_ready (nm : INodeMap) : Prop :=
  (∃ v, nm !! "AcquisitionMode" = Some (StringNode v))
  ∧ (∃ v, nm !! "PixelFormat" = Some (StringNode v))
  ∧ (∃ v, nm !! "AcquisitionFrameRateEnable" = Some (BooleanNode v))
  ∧ (∃ v mn mx, nm !! "AcquisitionFrameRate" = Some (FloatNode v mn mx))
  ∧ int_node_ready (nm !! "Width")
  ∧ int_node_ready (nm !! "Height").

(** A requested dimension small enough for its distance to a bound of a
    well-formed node to stay within [int64_t]. *)
Definition request_fits (value : Z) : Prop := - 2 ^ 62 ≤ value < 2 ^ 62.

(** The transport layer has the two stream nodes the session switches on. *)
Definition stream_ready (nm : INodeMap) : Prop :=
  (∃ v, nm !! "StreamAutoNegotiatePacketSize" = Some (BooleanNode v))
  ∧ (∃ v, nm !! "StreamPacketResendEnable" = Some (BooleanNode v)).

(** The transport-layer node map once [configure_device] has gone through. *)
Definition negotiated (nm : INodeMap) : INodeMap :=
  <["StreamPacketResendEnable" := BooleanNode true]>
  (<["StreamAutoNegotiatePacketSize" := BooleanNode true]> nm).

(** A delivered frame in the four-angle format: at least one pixel, four
    bytes per pixel, all of them filled, and a byte count that fits the loop
    counter of the splitter. *)
Definition frame_ok (f : Frame) : Prop :=
  0 < frame_width f ∧ 0 < frame_height f
  ∧ frame_size f = frame_width f * frame_height f * 4
  ∧ Z.of_nat (length (frame_bytes f)) = frame_size f
  ∧ frame_size f < 2 ^ 32.

(** A machine on which the 90-degree file cannot be created. *)
Definition ex_locked : Env :=
  {| strtol := strtol (ex_env 1); strtof := strtof (ex_env 1);
     continueExample := "y"; pending := ["010"%char]; deviceInfos := 1;
     GetImage := GetImage (ex_env 1);
     can_open := λ name, negb (String.eqb name FILE_NAME_90);
     junk := λ _ _, 0 |}.

(** Bring a state built by a sequence of setters into one record. *)
Ltac sys_norm :=
  cbn [device tlstream streaming grabbed mem videos
       set_device set_tlstream set_streaming set_grabbed set_mem set_videos].

Ltac sys_norm_in H :=
  cbn [device tlstream streaming grabbed mem videos
       set_device set_tlstream set_streaming set_grabbed set_mem set_videos] in H.

(** The [Open] at the head of the goal is refused, by the lemma [refused]:
    the call ends there, with every stream empty and none closed. *)
Ltac open_fails refused params :=
  match goal with
  | |- context [VideoRecorder_Open ?env ?f ?s0] =>
      let e := fresh "e" in
      destruct (refused env f params s0) as (e & ->); [video_lookup|done|];
      exists e, s0; split; [reflexivity|]; split; [reflexivity|];
      let name := fresh "name" in let Hname := fresh "Hname" in
      intros name Hname;
      repeat (apply elem_of_cons in Hname as [->|Hname]);
      try (by apply elem_of_nil in Hname);
      eexists; (split; [video_lookup|by split])
  end.

(** A user who answers [n] and closes the input. *)
Definition ex_silent : Env :=
  {| strtol := strtol (ex_env 1); strtof := strtof (ex_env 1);
     continueExample := "n"; pending := []; deviceInfos := 1;
     GetImage := GetImage (ex_env 1); can_open := λ _, true; junk := λ _ _, 0 |}.

(** The example machine with frame-rate control switched off. *)
Definition ex_sys_free : Sys :=
  set_device (<["AcquisitionFrameRateEnable" := BooleanNode false]> ex_device) ex_sys.

(** ** Facts about binary64 comparison *)

Section float_order.

Lemma SFcompare_swap x y :
  SFcompare y x = option_map CompOpp (SFcompare x y).
Proof.
  destruct x as [sx|sx| |sx mx ex], y as [sy|sy| |sy my ey]; simpl;
    try reflexivity;
    try (destruct sx; reflexivity); try (destruct sy; reflexivity);
    try (destruct sx, sy; reflexivity).
  destruct sx, sy; simpl; try reflexivity;
    rewrite (Z.compare_antisym ex ey);
    destruct (ex ?= ey) eqn:E; simpl; try reflexivity;
    rewrite ?Pos.compare_cont_antisym; simpl;
    try rewrite CompOpp_involutive; reflexivity.
Qed.

Lemma SFcompare_refl x : x ≠ S754_nan → SFcompare x x = Some Eq.
Proof.
  destruct x as [s|s| |s m e]; simpl; intros H; try congruence;
    try (destruct s; reflexivity).
  destruct s; rewrite Z.compare_refl, Pos.compare_cont_refl; reflexivity.
Qed.

Lemma is_nan_Prim2SF (x : float) : is_nan x = false → Prim2SF x ≠ S754_nan.
Proof.
  unfold is_nan. rewrite FloatAxioms.eqb_spec. unfold SFeqb. intros H E.
  rewrite E in H. discriminate H.
Qed.

(** [¬ (x < y)] gives [y ≤ x] as soon as neither is a NaN. *)
Lemma float_not_ltb_leb (x y : float) :
  is_nan x = false → is_nan y = false →
  (x <? y)%float = false → (y <=? x)%float = true.
Proof.
  intros Hx%is_nan_Prim2SF Hy%is_nan_Prim2SF.
  rewrite FloatAxioms.ltb_spec, FloatAxioms.leb_spec. unfold SFltb, SFleb.
  rewrite (SFcompare_swap (Prim2SF x) (Prim2SF y)).
  destruct (Prim2SF x) as [ | | | ] eqn:Ex, (Prim2SF y) as [ | | | ] eqn:Ey;
    try congruence;
    match goal with
    | |- context [SFcompare ?a ?b] => destruct (SFcompare a b) as [[ | | ]|] eqn:E
    end; simpl; try congruence; simpl in E;
    repeat match goal with b : bool |- _ => destruct b end; discriminate E.
Qed.

Lemma float_leb_not_nan_l (x y : float) : (x <=? y)%float = true → is_nan x = false.
Proof.
  rewrite FloatAxioms.leb_spec. unfold SFleb, is_nan. rewrite FloatAxioms.eqb_spec. unfold SFeqb.
  destruct (Prim2SF x) as [s|s| |s m e] eqn:Ex; simpl; try discriminate;
    intros _; try (destruct s; reflexivity).
  destruct s; rewrite Z.compare_refl, Pos.compare_cont_refl; reflexivity.
Qed.

Lemma float_leb_not_nan_r (x y : float) : (x <=? y)%float = true → is_nan y = false.
Proof.
  rewrite FloatAxioms.leb_spec. unfold SFleb, is_nan. rewrite FloatAxioms.eqb_spec. unfold SFeqb.
  destruct (Prim2SF y) as [s|s| |s m e] eqn:Ey; simpl;
    try (intros _; destruct s; reflexivity).
  - destruct (Prim2SF x); discriminate.
  - intros _. destruct s; rewrite Z.compare_refl, Pos.compare_cont_refl; reflexivity.
Qed.

Lemma float_leb_refl (x : float) : is_nan x = false → (x <=? x)%float = true.
Proof.
  intros H%is_nan_Prim2SF. rewrite FloatAxioms.leb_spec. unfold SFleb.
  rewrite SFcompare_refl by assumption. reflexivity.
Qed.

Lemma float_leb_not_ltb (x y : float) : (x <=? y)%float = true → (y <? x)%float = false.
Proof.
  rewrite FloatAxioms.leb_spec, FloatAxioms.ltb_spec. unfold SFleb, SFltb.
  rewrite (SFcompare_swap (Prim2SF x) (Prim2SF y)).
  destruct (SFcompare (Prim2SF x) (Prim2SF y)) as [[ | | ]|]; simpl; congruence.
Qed.

End float_order.

(** ** Clamping of node values *)

(** The claim about [SetFloatValue] as the spec words it: whatever is
    requested, the value set lies between the node's minimum and maximum. *)
Definition SetFloatValue_always_in_range : Prop :=
  ∀ (nm : INodeMap) (nodeName : string) (v0 mn mx value : float),
    nm !! nodeName = Some (FloatNode v0 mn mx) →
    (mn <=? mx)%float = true →
    ∃ v, SetFloatValue nm nodeName value
           = Ret (<[nodeName := FloatNode v mn mx]> nm, v)
         ∧ (mn <=? v)%float = true ∧ (v <=? mx)%float = true.

Lemma div_traps_positive (a inc : Z) : 0 < inc → div_traps a inc = false.
Proof.
  intros Hinc. unfold div_traps.
  destruct (Z.eqb_spec inc 0); [lia|]. destruct (Z.eqb_spec inc (-1)); [lia|].
  by rewrite andb_false_r.
Qed.

(** [SetIntValue] on an integer node: a trap, or the snapped and clamped
    value, set if the node accepts it and refused if it does not. *)
Lemma SetIntValue_eq (nm : INodeMap) (nodeName : string) (v0 mn mx inc value : Z) :
  nm !! nodeName = Some (IntegerNode v0 mn mx inc) →
  SetIntValue nm nodeName value
  = if div_traps (wrap_i64 (value - mn)) inc then Fault
    else if IInteger_accepts mn mx inc (snap_clamp mn mx inc value)
         then Ret (<[nodeName := IntegerNode (snap_clamp mn mx inc value) mn mx inc]> nm,
                   snap_clamp mn mx inc value)
         else Throw (out_of_range nodeName).
Proof. intros Hnode. unfold SetIntValue, snap_clamp. by rewrite Hnode. Qed.

Lemma IInteger_accepts_spec (mn mx inc v : Z) :
  IInteger_accepts mn mx inc v = true ↔ mn ≤ v ≤ mx ∧ (v - mn) mod inc = 0.
Proof.
  unfold IInteger_accepts. rewrite !andb_true_iff, !Z.leb_le, Z.eqb_eq. tauto.
Qed.

Lemma SetFloatValue_in_range (nm : INodeMap) (nodeName : string) (v0 mn mx value : float) :
  nm !! nodeName = Some (FloatNode v0 mn mx) →
  (mn <=? mx)%float = true →
  is_nan value = false →
  ∃ v, SetFloatValue nm nodeName value
         = Ret (<[nodeName := FloatNode v mn mx]> nm, v)
       ∧ (mn <=? v)%float = true ∧ (v <=? mx)%float = true.
Proof.
  intros Hnode Hle Hnan. unfold SetFloatValue. rewrite Hnode.
  pose proof (float_leb_not_nan_l _ _ Hle) as Hmn.
  pose proof (float_leb_not_nan_r _ _ Hle) as Hmx.
  eexists; split; [reflexivity|].
  destruct (value <? mn)%float eqn:Hlo.
  - rewrite (float_leb_not_ltb _ _ Hle). split; [by apply float_leb_refl|done].
  - destruct (mx <? value)%float eqn:Hhi.
    + split; [done|by apply float_leb_refl].
    + split; by apply float_not_ltb_leb.
Qed.

(** C7 - A frame rate of NaN is not clamped.  The argument loop lets
    [-fps nan] through, because [fps <= 0] is false for a NaN; in
    [SetFloatValue] a NaN is neither [< min] nor [> max], so it is handed to
    the node and returned as it is: the value set is not within
    [min, max], against the function's own header ("ensures over minimum",
    "ensures below maximum"). *)
Theorem C7_nan_frame_rate_is_set :
  parse_args (ex_env 0) ["-fps"; "nan"] WIDTH HEIGHT NUM_IMAGES FRAMES_PER_SECOND
  = Parsed WIDTH HEIGHT NUM_IMAGES nan
  ∧ ∃ nm v,
      SetFloatValue ex_device "AcquisitionFrameRate" nan = Ret (nm, v)
      ∧ nm !! "AcquisitionFrameRate" = Some (FloatNode v 1 100)
      ∧ is_nan v = true
      ∧ (1 <=? v)%float = false ∧ (v <=? 100)%float = false.
Proof.
  split; [reflexivity|].
  unfold SetFloatValue.
  change (ex_device !! "AcquisitionFrameRate") with (Some (FloatNode 30 1 100)).
  cbv iota beta.
  change (nan <? 1)%float with false. cbv iota.
  change (100 <? nan)%float with false. cbv iota.
  do 2 eexists. split; [reflexivity|]. split; [apply lookup_insert_eq|].
  by split_and!.
Qed.

(** The integer sibling, for comparison of the two halves: a request far
    above the range of a node whose maximum is not on the increment grid is
    clamped to that maximum, which the node does not take. *)
Lemma SetIntValue_off_grid_maximum :
  SetIntValue (<["Width" := IntegerNode 0 0 10 4]> ∅) "Width" 100
  = Throw (out_of_range "Width").
Proof. by rewrite (SetIntValue_eq _ _ 0 0 10 4) by apply lookup_insert_eq. Qed.

(** A NaN request is neither below the minimum nor above the maximum: it is
    set and returned as it is. *)
Lemma C7_nan_not_clamped : ¬ SetFloatValue_always_in_range.
Proof.
  intros H.
  destruct (H ex_device "AcquisitionFrameRate"%string 30 1 100 nan)%float
    as (v & Hv & Hlo & _); [reflexivity | reflexivity |].
  assert (E : match SetFloatValue ex_device "AcquisitionFrameRate" nan with
              | Ret (_, x) => x
              | _ => 0%float
              end = v) by (by rewrite Hv).
  vm_compute in E. subst v. vm_compute in Hlo. discriminate Hlo.
Qed.

(** ** Memory *)

Section memory.
Implicit Types (m : Mem) (p q : ptr) (blk : list Z) (k : nat).

Lemma load_ok m p blk (i : Z) b :
  m !! p = Some blk → 0 ≤ i → blk !! Z.to_nat i = Some b → load m p i = Ret b.
Proof.
  intros Hp Hi Hb. unfold load. rewrite Hp.
  destruct (Z.leb_spec 0 i); [|lia]. by rewrite Hb.
Qed.

Lemma store_spec m p k b L :
  blen m p = Some L → (k < L)%nat →
  ∃ m', store m p (Z.of_nat k) b = Ret m'
      ∧ length m' = length m
      ∧ (∀ q, blen m' q = blen m q)
      ∧ (∀ q, q ≠ p → m' !! q = m !! q)
      ∧ (∀ q k', peek m' q k'
                 = if decide (q = p ∧ k' = k) then Some b else peek m q k').
Proof.
  unfold blen. intros HL Hk.
  destruct (m !! p) as [blk|] eqn:Hp; simplify_eq/=.
  pose proof (lookup_lt_Some _ _ _ Hp) as Hlt.
  exists (<[p := <[k := b]> blk]> m). unfold store. rewrite Hp, Nat2Z.id.
  destruct (Z.leb_spec 0 (Z.of_nat k)); [|lia].
  destruct (Nat.ltb_spec k (length blk)); [|lia]. simpl.
  split; [done|]. split; [by rewrite length_insert|].
  split; [|split].
  - intros q. unfold blen. destruct (decide (q = p)) as [->|Hne].
    + rewrite list_lookup_insert_eq by done. simpl. by rewrite length_insert, Hp.
    + by rewrite list_lookup_insert_ne.
  - intros q Hne. by rewrite list_lookup_insert_ne.
  - intros q k'. unfold peek. destruct (decide (q = p)) as [->|Hne].
    + rewrite list_lookup_insert_eq by done. simpl. rewrite Hp. simpl.
      destruct (decide (k' = k)) as [->|Hk'].
      * rewrite decide_True by done. by rewrite list_lookup_insert_eq.
      * rewrite decide_False by naive_solver. by rewrite list_lookup_insert_ne.
    + rewrite decide_False by naive_solver. by rewrite list_lookup_insert_ne.
Qed.

Lemma alloc_lookup_old m blk q :
  (q < length m)%nat → (alloc m blk).1 !! q = m !! q.
Proof. intros. simpl. by rewrite lookup_app_l. Qed.

Lemma alloc_lookup_new m blk : (alloc m blk).1 !! (alloc m blk).2 = Some blk.
Proof. simpl. by rewrite list_lookup_middle. Qed.

End memory.

(** ** The splitting loop *)

Lemma wrap_u32_small (z : Z) : 0 ≤ z < 2 ^ 32 → wrap_u32 z = z.
Proof. intros. unfold wrap_u32. by rewrite Z.mod_small. Qed.

Lemma raw_lookup (raw : list Z) (N k off : nat) :
  (4 * N ≤ length raw)%nat → (k < N)%nat → (off < 4)%nat →
  raw !! (4 * k + off)%nat = Some (nth (4 * k + off) raw 0).
Proof.
  intros Hraw Hk Hoff. rewrite nth_lookup.
  destruct (lookup_lt_is_Some_2 raw (4 * k + off)) as [b ->]; [lia|done].
Qed.

Section split_loop.
Variables (inp o0 o45 o90 o135 : ptr) (raw : list Z) (N : nat).

Hypothesis inp_not_output : inp ≠ o0 ∧ inp ≠ o45 ∧ inp ≠ o90 ∧ inp ≠ o135.
Hypothesis raw_long : (4 * N ≤ length raw)%nat.
Hypothesis no_wrap : 4 * Z.of_nat N < 2 ^ 32.

Lemma split_step_spec (m : Mem) (j : nat) :
  (j < N)%nat → m !! inp = Some raw → outputs_fit o0 o45 o90 o135 N m →
  ∃ m', split_step inp o0 o45 o90 o135 m (4 * Z.of_nat j) (Z.of_nat j)
          = Ret (m', group_accesses inp o0 o45 o90 o135 raw j)
      ∧ length m' = length m
      ∧ (∀ q, blen m' q = blen m q)
      ∧ (∀ q, q ∉ [o0; o45; o90; o135] → m' !! q = m !! q)
      ∧ (∀ q k, peek m' q k
                = match writer o0 o45 o90 o135 q with
                  | Some off => if decide (k = j) then raw !! (4 * j + off)%nat
                                else peek m q k
                  | None => peek m q k
                  end).
Proof.
  intros Hj Hraw Hfit.
  destruct inp_not_output as (Hn0 & Hn45 & Hn90 & Hn135).
  destruct (Hfit o0) as (L0 & HL0 & ?); [set_solver|].
  destruct (Hfit o45) as (L45 & HL45 & ?); [set_solver|].
  destruct (Hfit o90) as (L90 & HL90 & ?); [set_solver|].
  destruct (Hfit o135) as (L135 & HL135 & ?); [set_solver|].
  pose proof (raw_lookup raw N j 0 raw_long) as R0.
  pose proof (raw_lookup raw N j 1 raw_long) as R1.
  pose proof (raw_lookup raw N j 2 raw_long) as R2.
  pose proof (raw_lookup raw N j 3 raw_long) as R3.
  unfold split_step.
  rewrite !wrap_u32_small by lia.
  (* byte 0 *)
  rewrite (load_ok m inp raw _ (nth (4 * j) raw 0)); [|done|lia|]; cycle 1.
  { replace (Z.to_nat (4 * Z.of_nat j)) with (4 * j + 0)%nat by lia.
    rewrite R0 by lia. f_equal. f_equal. lia. }
  res_step.
  destruct (store_spec m o0 j (nth (4 * j) raw 0) L0) as (m1 & -> & E1 & B1 & K1 & P1);
    [done|lia|]. res_step.
  (* byte 1 *)
  rewrite (load_ok m1 inp raw _ (nth (4 * j + 1) raw 0)); [|by rewrite K1|lia|]; cycle 1.
  { replace (Z.to_nat (4 * Z.of_nat j + 1)) with (4 * j + 1)%nat by lia. by apply R1; lia. }
  res_step.
  destruct (store_spec m1 o45 j (nth (4 * j + 1) raw 0) L45)
    as (m2 & -> & E2 & B2 & K2 & P2); [by rewrite B1|lia|]. res_step.
  (* byte 2 *)
  rewrite (load_ok m2 inp raw _ (nth (4 * j + 2) raw 0));
    [|by rewrite K2, K1|lia|]; cycle 1.
  { replace (Z.to_nat (4 * Z.of_nat j + 2)) with (4 * j + 2)%nat by lia. by apply R2; lia. }
  res_step.
  destruct (store_spec m2 o90 j (nth (4 * j + 2) raw 0) L90)
    as (m3 & -> & E3 & B3 & K3 & P3); [by rewrite B2, B1|lia|]. res_step.
  (* byte 3 *)
  rewrite (load_ok m3 inp raw _ (nth (4 * j + 3) raw 0));
    [|by rewrite K3, K2, K1|lia|]; cycle 1.
  { replace (Z.to_nat (4 * Z.of_nat j + 3)) with (4 * j + 3)%nat by lia. by apply R3; lia. }
  res_step.
  destruct (store_spec m3 o135 j (nth (4 * j + 3) raw 0) L135)
    as (m4 & -> & E4 & B4 & K4 & P4); [by rewrite B3, B2, B1|lia|]. res_step.
  exists m4. split; [done|]. split; [congruence|]. split; [|split].
  - intros q. by rewrite B4, B3, B2, B1.
  - intros q Hq. rewrite K4, K3, K2, K1; [done|set_solver..].
  - intros q k. rewrite P4, P3, P2, P1. unfold writer.
    specialize (R0 Hj ltac:(lia)). specialize (R1 Hj ltac:(lia)).
    specialize (R2 Hj ltac:(lia)). specialize (R3 Hj ltac:(lia)).
    rewrite Nat.add_0_r in R0.
    repeat case_decide; rewrite ?Nat.add_0_r, ?R0, ?R1, ?R2, ?R3;
      try done; naive_solver.
Qed.

Variable buffer_size : Z.
Hypothesis size_above : buffer_size ≤ 4 * Z.of_nat N.
Hypothesis size_below : ∀ k, (k < N)%nat → 4 * Z.of_nat k < buffer_size.

(** From group [j] on, with [cnt] groups left, the loop runs [cnt] times. *)
Lemma split_loop_spec (cnt : nat) :
  ∀ (j : nat) (m : Mem) (tr : list access) (fuel : nat),
    (j + cnt = N)%nat → (cnt ≤ fuel)%nat →
    m !! inp = Some raw → outputs_fit o0 o45 o90 o135 N m →
    ∃ m', split_loop fuel inp o0 o45 o90 o135 buffer_size m tr
            (4 * Z.of_nat j) (Z.of_nat j)
            = Ret (m', tr ++ (seq j cnt ≫= group_accesses inp o0 o45 o90 o135 raw))
        ∧ length m' = length m
        ∧ (∀ q, blen m' q = blen m q)
        ∧ (∀ q, q ∉ [o0; o45; o90; o135] → m' !! q = m !! q)
        ∧ (∀ q k, peek m' q k
                  = match writer o0 o45 o90 o135 q with
                    | Some off => if decide (j ≤ k < N)%nat
                                  then raw !! (4 * k + off)%nat
                                  else peek m q k
                    | None => peek m q k
                    end).
Proof.
  induction cnt as [|cnt IH]; intros j m tr fuel Hcnt Hfuel Hraw Hfit.
  - exists m. destruct fuel; simpl;
      (destruct (Z.ltb_spec (4 * Z.of_nat j) buffer_size); [lia|]);
      rewrite app_nil_r;
      (repeat split; try done; intros q k; destruct (writer _ _ _ _ q); [|done];
       by rewrite decide_False by lia).
  - destruct fuel as [|fuel]; [lia|]. simpl.
    destruct (Z.ltb_spec (4 * Z.of_nat j) buffer_size) as [_|Hge];
      [|specialize (size_below j); lia].
    destruct (split_step_spec m j) as (m1 & -> & E1 & B1 & K1 & P1); [lia|done|done|].
    res_step. rewrite !wrap_u32_small by lia.
    replace (4 * Z.of_nat j + 4) with (4 * Z.of_nat (S j)) by lia.
    replace (Z.of_nat j + 1) with (Z.of_nat (S j)) by lia.
    destruct (IH (S j) m1 (tr ++ group_accesses inp o0 o45 o90 o135 raw j) fuel)
      as (m' & -> & E' & B' & K' & P'); [lia|lia| | |].
    { destruct inp_not_output as (? & ? & ? & ?). rewrite K1; [done|set_solver]. }
    { intros o Ho. rewrite B1. by apply Hfit. }
    exists m'. split; [by rewrite <- app_assoc|]. split; [congruence|].
    split; [|split].
    + intros q. by rewrite B', B1.
    + intros q Hq. by rewrite K', K1.
    + intros q k. rewrite P', P1. destruct (writer _ _ _ _ q); [|done].
      repeat case_decide; try done; try lia. by subst.
Qed.

End split_loop.

(** ** Splitting one frame *)

Section split_frame.
Variables (junk : ptr → nat → Z) (m : Mem) (img : IImage) (raw : list Z) (N : nat).
Hypothesis fits : frame_fits m img raw N.

Local Abbreviation d := (length m).
Local Abbreviation size := (Z.to_nat (out_size img)).
Local Abbreviation dummy := (junk (length m) <$> seq 0 (Z.to_nat (out_size img))).

Lemma mem_block_eq (m' : Mem) (q : ptr) (blk : list Z) :
  blen m' q = Some (length blk) → (∀ k, peek m' q k = blk !! k) → m' !! q = Some blk.
Proof.
  unfold blen, peek. destruct (m' !! q) as [blk'|]; [|done]. simpl.
  intros [= Hlen] Hpeek. f_equal. by apply list_eq.
Qed.

Lemma ImageFactory_Create_owns (m0 : Mem) (pData : ptr) (blk : list Z) n w h fmt :
  m0 !! pData = Some blk → Z.to_nat n = length blk →
  ImageFactory_Create OwnsData m0 pData n w h fmt
  = Ret (m0 ++ [blk],
         {| GetData := length m0; GetSizeFilled := n;
            GetWidth := w; GetHeight := h; GetPixelFormat := fmt |}).
Proof.
  intros Hp Hn. unfold ImageFactory_Create. rewrite Hp, Hn.
  destruct (Nat.leb_spec (length blk) (length blk)); [|lia].
  simpl. by rewrite firstn_all.
Qed.

Lemma ImageFactory_Create_shares (m0 : Mem) (pData : ptr) (blk : list Z) n w h fmt :
  m0 !! pData = Some blk → Z.to_nat n = length blk →
  ImageFactory_Create SharesData m0 pData n w h fmt
  = Ret (m0,
         {| GetData := pData; GetSizeFilled := n;
            GetWidth := w; GetHeight := h; GetPixelFormat := fmt |}).
Proof.
  intros Hp Hn. unfold ImageFactory_Create. rewrite Hp, Hn.
  by destruct (Nat.leb_spec (length blk) (length blk)); [|lia].
Qed.

Lemma out_size_nonneg : 0 ≤ out_size img.
Proof. unfold out_size, wrap_u32. apply Z.mod_pos_bound. lia. Qed.

Lemma dummy_length : length dummy = size.
Proof. by rewrite length_fmap, length_seq. Qed.

Lemma plane_length old off : length (plane old raw N size off) = size.
Proof. unfold plane. by rewrite length_fmap, length_seq. Qed.

Lemma plane_lookup old off k :
  plane old raw N size off !! k
  = if decide (k < N)%nat then Some (nth (4 * k + off) raw 0)
    else if decide (k < size)%nat then Some (old k) else None.
Proof.
  unfold plane. rewrite list_lookup_fmap.
  destruct (decide (k < size)%nat) as [Hk|Hk].
  - rewrite lookup_seq_lt by done. simpl.
    destruct (Nat.ltb_spec k N); by case_decide; try lia.
  - rewrite lookup_seq_ge by lia. simpl.
    destruct fits. rewrite decide_False; [done|]. lia.
Qed.

(** With a factory that copies, the frame is split into four fresh blocks
    behind the dummy buffer; nothing that was allocated before changes. *)
Lemma split_frame_owns (fuel : nat) :
  (N ≤ fuel)%nat →
  split_frame OwnsData junk fuel m img
  = Ret (m ++ [dummy; plane (junk d) raw N size 0; plane (junk d) raw N size 1;
               plane (junk d) raw N size 2; plane (junk d) raw N size 3],
         {| outputImage0 := channel_image img (d + 1)%nat;
            outputImage45 := channel_image img (d + 2)%nat;
            outputImage90 := channel_image img (d + 3)%nat;
            outputImage135 := channel_image img (d + 4)%nat |},
         seq 0 N ≫= group_accesses (GetData img) (d + 1)%nat (d + 2)%nat (d + 3)%nat (d + 4)%nat raw).
Proof.
  intros Hfuel. destruct fits as [Hdata Hsize Hlast Heach Hraw Hout Hu32].
  pose proof out_size_nonneg as Hpos. pose proof dummy_length as Hdl.
  pose proof (lookup_lt_Some _ _ _ Hdata) as Hin.
  unfold split_frame, new_array, alloc. fold (out_size img).
  rewrite (ImageFactory_Create_owns _ d dummy) by (by rewrite ?list_lookup_middle).
  res_step.
  rewrite (ImageFactory_Create_owns _ d dummy)
    by (rewrite ?lookup_app_l by (rewrite length_app; simpl; lia);
        by rewrite ?list_lookup_middle).
  res_step.
  rewrite (ImageFactory_Create_owns _ d dummy)
    by (rewrite ?lookup_app_l by (rewrite !length_app; simpl; lia);
        by rewrite ?list_lookup_middle).
  res_step.
  rewrite (ImageFactory_Create_owns _ d dummy)
    by (rewrite ?lookup_app_l by (rewrite !length_app; simpl; lia);
        by rewrite ?list_lookup_middle).
  res_step. cbn [GetData].
  rewrite !length_app. cbn [length].
  replace (d + 1 + 1)%nat with (d + 2)%nat by lia.
  replace (d + 1 + 1 + 1)%nat with (d + 3)%nat by lia.
  replace (d + 2 + 1)%nat with (d + 3)%nat by lia.
  replace (d + 3 + 1)%nat with (d + 4)%nat by lia.
  rewrite <- !app_assoc. cbn [app].
  set (M4 := m ++ [dummy; dummy; dummy; dummy; dummy]).
  assert (HM4 : ∀ q b, [dummy; dummy; dummy; dummy; dummy] !! q = Some b →
                       M4 !! (d + q)%nat = Some b).
  { intros q b Hq. unfold M4. by rewrite lookup_app_r, Nat.add_sub' by lia. }
  unfold wrap_u64. rewrite Z.mod_small by lia.
  destruct (split_loop_spec (GetData img) (d + 1)%nat (d + 2)%nat (d + 3)%nat (d + 4)%nat raw N)
    with (buffer_size := GetSizeFilled img - 1) (cnt := N) (j := 0%nat)
         (m := M4) (tr := @nil access) (fuel := fuel)
    as (m' & Hrun & Hlen & Hblen & Hkeep & Hpeek);
    [lia|done|done|done|done|done|done| | |].
  { unfold M4. by rewrite lookup_app_l. }
  { intros o Ho. exists size. split; [|lia].
    unfold blen. assert (∃ q, o = (d + q)%nat ∧ (1 ≤ q ≤ 4)%nat) as (q & -> & Hq).
    { repeat (apply elem_of_cons in Ho as [->|Ho]);
        [exists 1%nat|exists 2%nat|exists 3%nat|exists 4%nat|by apply elem_of_nil in Ho];
        (split; [done|lia]). }
    rewrite (HM4 q dummy); [simpl; by rewrite Hdl|].
    destruct q as [|[|[|[|[|]]]]]; try done; lia. }
  change (4 * Z.of_nat 0%nat) with 0 in Hrun. change (Z.of_nat 0) with 0 in Hrun.
  rewrite Hrun. res_step. cbn [app]. f_equal. f_equal. clear Hrun.
  f_equal.
  apply list_eq. intros q.
  assert (Hw : ∀ off, (off < 4)%nat →
            m' !! (d + 1 + off)%nat = Some (plane (junk d) raw N size off)).
  { intros off Hoff. apply mem_block_eq.
    - rewrite Hblen, plane_length. unfold blen.
      rewrite <- Nat.add_assoc, (HM4 (1 + off)%nat dummy);
        [simpl; by rewrite Hdl|].
      destruct off as [|[|[|[|]]]]; try done; lia.
    - intros k. rewrite Hpeek, plane_lookup.
      assert (writer (d + 1)%nat (d + 2)%nat (d + 3)%nat (d + 4)%nat (d + 1 + off) = Some off) as ->.
      { unfold writer. destruct off as [|[|[|[|]]]]; try lia;
          repeat case_decide; try lia; done. }
      destruct (decide (k < N)%nat).
      + rewrite decide_True by lia. by apply (raw_lookup raw N).
      + rewrite decide_False by lia. unfold peek.
        rewrite <- Nat.add_assoc, (HM4 (1 + off)%nat dummy)
          by (destruct off as [|[|[|[|]]]]; try done; lia).
        simpl. rewrite list_lookup_fmap.
        case_decide; [by rewrite lookup_seq_lt|by rewrite lookup_seq_ge by lia]. }
  destruct (decide (q < d)%nat) as [Hq|Hq].
  - rewrite Hkeep by (set_unfold; lia). unfold M4. by rewrite !lookup_app_l.
  - replace q with (d + (q - d))%nat by lia.
    rewrite (lookup_app_r m) by lia. rewrite Nat.add_sub'.
    destruct (q - d)%nat as [|[|[|[|[|r]]]]] eqn:Hr.
    + rewrite Hkeep by (set_unfold; lia). by apply HM4.
    + specialize (Hw 0%nat ltac:(lia)). rewrite Nat.add_0_r in Hw. by rewrite Hw.
    + replace (d + 2)%nat with (d + 1 + 1)%nat by lia. by rewrite (Hw 1%nat) by lia.
    + replace (d + 3)%nat with (d + 1 + 2)%nat by lia. by rewrite (Hw 2%nat) by lia.
    + replace (d + 4)%nat with (d + 1 + 3)%nat by lia. by rewrite (Hw 3%nat) by lia.
    + simpl. apply lookup_ge_None. rewrite Hlen. unfold M4.
      rewrite length_app. simpl. lia.
Qed.

End split_frame.

(** ** Frames of the spec's data model *)

Section wf_frame.
Variables (m : Mem) (img : IImage) (raw : list Z).
Hypothesis wf : wf_frame m img raw.

Local Abbreviation pixels := (Z.to_nat (GetWidth img * GetHeight img)).

Lemma wf_out_size : out_size img = GetWidth img * GetHeight img.
Proof.
  destruct wf as [_ Hw Hh Hfilled _ Hu32]. unfold out_size.
  rewrite (wrap_u32_small (GetWidth img)) by nia.
  rewrite (wrap_u32_small (GetHeight img)) by nia.
  apply wrap_u32_small. nia.
Qed.

Lemma wf_pixels : Z.of_nat pixels = GetWidth img * GetHeight img ∧ (0 < pixels)%nat.
Proof. destruct wf as [_ Hw Hh _ _ _]. nia. Qed.

Lemma wf_raw_length : length raw = (4 * pixels)%nat.
Proof. destruct wf as [_ Hw Hh Hfilled Hlen _]. nia. Qed.

Lemma wf_frame_fits : frame_fits m img raw pixels.
Proof.
  pose proof wf_out_size. pose proof wf_pixels as [Hp Hp0]. pose proof wf_raw_length.
  destruct wf as [Hdata Hw Hh Hfilled Hlen Hu32].
  split; try done; lia.
Qed.

End wf_frame.

Lemma wf_frame_extend (m m' : Mem) (img : IImage) (raw : list Z) :
  wf_frame m img raw → m `prefix_of` m' → wf_frame m' img raw.
Proof.
  intros [Hdata Hw Hh Hfilled Hlen Hu32] Hpre. split; try done.
  by apply (prefix_lookup_Some m).
Qed.

Lemma spec_channel_lookup (off : nat) :
  (off < 4)%nat →
  ∀ (k : nat) (raw : list Z),
    spec_channel off raw !! k
    = if decide (4 * k + 3 < length raw)%nat then Some (nth (4 * k + off) raw 0) else None.
Proof.
  intros Hoff k. induction k as [|k IH]; intros raw.
  - destruct raw as [|a [|b [|c [|e rest]]]]; cbn [spec_channel];
      case_decide as Hd; cbn [length] in Hd; try lia; try done.
    by destruct off as [|[|[|[|]]]]; try lia.
  - destruct raw as [|a [|b [|c [|e rest]]]]; cbn [spec_channel];
      try (case_decide as Hd; cbn [length] in Hd; try lia; done).
    rewrite lookup_cons_ne_0 by done.
    rewrite Nat.pred_succ, IH.
    replace (4 * S k + off)%nat with (S (S (S (S (4 * k + off))))) by lia.
    cbn [nth length]. by repeat case_decide; try lia.
Qed.

Lemma plane_full (old : nat → Z) (raw : list Z) (N off : nat) :
  (off < 4)%nat → length raw = (4 * N)%nat →
  plane old raw N N off = spec_channel off raw.
Proof.
  intros Hoff Hlen. apply list_eq. intros k.
  rewrite spec_channel_lookup by done. unfold plane.
  rewrite list_lookup_fmap.
  destruct (decide (k < N)%nat).
  - rewrite lookup_seq_lt by done. simpl.
    destruct (Nat.ltb_spec k N); [|lia]. by rewrite decide_True by lia.
  - rewrite lookup_seq_ge by lia. simpl. by rewrite decide_False by lia.
Qed.

Lemma spec_channel_length (off : nat) (raw : list Z) (N : nat) :
  length raw = (4 * N)%nat → length (spec_channel off raw) = N.
Proof.
  revert raw. induction N as [|N IH]; intros raw Hlen.
  - by destruct raw.
  - destruct raw as [|a [|b [|c [|e rest]]]]; simpl in Hlen; try lia.
    cbn [spec_channel length]. rewrite IH; [done|lia].
Qed.

(** What [split_frame] returns on a frame of the data model. *)
Lemma split_frame_wf (junk : ptr → nat → Z) (m : Mem) (img : IImage) (raw : list Z)
    (fuel : nat) :
  wf_frame m img raw →
  (Z.to_nat (GetWidth img * GetHeight img) ≤ fuel)%nat →
  split_frame OwnsData junk fuel m img
  = Ret (m ++ [junk (length m) <$> seq 0 (Z.to_nat (GetWidth img * GetHeight img));
               spec_channel 0 raw; spec_channel 1 raw;
               spec_channel 2 raw; spec_channel 3 raw],
         {| outputImage0 := channel_image img (length m + 1);
            outputImage45 := channel_image img (length m + 2);
            outputImage90 := channel_image img (length m + 3);
            outputImage135 := channel_image img (length m + 4) |},
         seq 0 (Z.to_nat (GetWidth img * GetHeight img))
           ≫= group_accesses (GetData img) (length m + 1) (length m + 2)
                (length m + 3) (length m + 4) raw).
Proof.
  intros Hwf Hfuel.
  rewrite (split_frame_owns junk m img raw _ (wf_frame_fits m img raw Hwf)) by done.
  rewrite (wf_out_size m img raw Hwf).
  by rewrite !plane_full by (try lia; by apply (wf_raw_length m img raw)).
Qed.

(** ** The accesses of the loop *)

Section accesses.
Variables (inp o0 o45 o90 o135 : ptr) (raw : list Z) (N : nat).

Local Abbreviation trace := (seq 0 N ≫= group_accesses inp o0 o45 o90 o135 raw).

Lemma group_in_trace (k : nat) (a : access) :
  (k < N)%nat → a ∈ group_accesses inp o0 o45 o90 o135 raw k → a ∈ trace.
Proof.
  intros Hk Ha. apply list_elem_of_bind. exists k. split; [done|].
  apply elem_of_seq. lia.
Qed.

(** The source indices read are exactly [0 .. 4N-1]. *)
Lemma elem_of_reads (i : Z) : i ∈ reads_of inp trace ↔ 0 ≤ i < 4 * Z.of_nat N.
Proof.
  unfold reads_of. rewrite list_elem_of_omap. split.
  - intros (a & Ha & Hi). apply list_elem_of_bind in Ha as (k & Ha & Hk).
    apply elem_of_seq in Hk. unfold group_accesses in Ha.
    repeat (apply elem_of_cons in Ha as [->|Ha]);
      try (by apply elem_of_nil in Ha); try done;
      rewrite decide_True in Hi by done; injection Hi as <-; lia.
  - intros Hi. exists (Rd inp i). rewrite decide_True by done. split; [|done].
    apply (group_in_trace (Z.to_nat (i / 4))).
    { apply Nat2Z.inj_lt. rewrite Z2Nat.id by (apply Z.div_pos; lia).
      apply Z.div_lt_upper_bound; lia. }
    unfold group_accesses. rewrite Z2Nat.id by (apply Z.div_pos; lia).
    pose proof (Z.div_mod i 4 ltac:(lia)) as Hdm.
    pose proof (Z.mod_pos_bound i 4 ltac:(lia)) as Hm.
    assert (i mod 4 = 0 ∨ i mod 4 = 1 ∨ i mod 4 = 2 ∨ i mod 4 = 3)
      as [E|[E|[E|E]]] by lia; rewrite E in Hdm.
    + replace (4 * (i / 4)) with i by lia. set_solver.
    + replace (4 * (i / 4) + 1) with i by lia. set_solver.
    + replace (4 * (i / 4) + 2) with i by lia. set_solver.
    + replace (4 * (i / 4) + 3) with i by lia. set_solver.
Qed.

(** Every index below [N] of every output is written. *)
Lemma elem_of_writes (o : ptr) (k : nat) :
  o ∈ [o0; o45; o90; o135] → (k < N)%nat → Z.of_nat k ∈ writes_to o trace.
Proof.
  intros Ho Hk. unfold writes_to. apply list_elem_of_omap.
  repeat (apply elem_of_cons in Ho as [->|Ho]); try (by apply elem_of_nil in Ho).
  - exists (Wr o0 (Z.of_nat k) (nth (4 * k) raw 0)).
    rewrite decide_True by done. split; [|done].
    apply (group_in_trace k); [done|]. unfold group_accesses. set_solver.
  - exists (Wr o45 (Z.of_nat k) (nth (4 * k + 1) raw 0)).
    rewrite decide_True by done. split; [|done].
    apply (group_in_trace k); [done|]. unfold group_accesses. set_solver.
  - exists (Wr o90 (Z.of_nat k) (nth (4 * k + 2) raw 0)).
    rewrite decide_True by done. split; [|done].
    apply (group_in_trace k); [done|]. unfold group_accesses. set_solver.
  - exists (Wr o135 (Z.of_nat k) (nth (4 * k + 3) raw 0)).
    rewrite decide_True by done. split; [|done].
    apply (group_in_trace k); [done|]. unfold group_accesses. set_solver.
Qed.

End accesses.

(** The bytes of the four output images once a frame of the data model has
    been split. *)
Lemma split_frame_wf_bytes (m : Mem) (img : IImage) (raw dummy : list Z) (off : nat)
    (p : ptr) :
  wf_frame m img raw → (off < 4)%nat → p = (length m + 1 + off)%nat →
  image_bytes (m ++ [dummy; spec_channel 0 raw; spec_channel 1 raw;
                     spec_channel 2 raw; spec_channel 3 raw])
              (channel_image img p)
  = Some (spec_channel off raw).
Proof.
  intros Hwf Hoff ->. unfold image_bytes. cbn [GetData GetSizeFilled channel_image].
  rewrite lookup_app_r by lia.
  replace (length m + 1 + off - length m)%nat with (S off) by lia.
  rewrite (wf_out_size m img raw Hwf).
  pose proof (wf_raw_length m img raw Hwf) as Hlen.
  destruct off as [|[|[|[|]]]]; try lia; simpl; f_equal;
    apply take_ge; by rewrite (spec_channel_length _ raw _ Hlen).
Qed.

(** ** The frame splitter: what each output holds *)

(** C1 - For every RawFrame and every stride index [k] below [width *
    height], the splitter writes the byte at source offset [4k + a] into the
    channel frame of angle [a] at index [k], and that is what the frame holds
    afterwards: ChannelFrame0[k] = RawFrame[4k], ChannelFrame45[k] =
    RawFrame[4k+1], ChannelFrame90[k] = RawFrame[4k+2], ChannelFrame135[k] =
    RawFrame[4k+3].  For the RawFrame [10,20,30,40,11,21,31,41] the four
    channel frames are [10,11], [20,21], [30,31] and [40,41]. *)
Theorem C1_channel_holds_stride_samples :
  (∀ (junk : ptr → nat → Z) (m : Mem) (img : IImage) (raw : list Z) (fuel : nat),
     wf_frame m img raw →
     (Z.to_nat (GetWidth img * GetHeight img) ≤ fuel)%nat →
     ∃ m' ch tr,
       split_frame OwnsData junk fuel m img = Ret (m', ch, tr)
       ∧ ∀ k : nat, Z.of_nat k < GetWidth img * GetHeight img →
           (Wr (GetData (outputImage0 ch)) (Z.of_nat k) (nth (4 * k) raw 0) ∈ tr
            ∧ peek m' (GetData (outputImage0 ch)) k = raw !! (4 * k)%nat)
         ∧ (Wr (GetData (outputImage45 ch)) (Z.of_nat k) (nth (4 * k + 1) raw 0) ∈ tr
            ∧ peek m' (GetData (outputImage45 ch)) k = raw !! (4 * k + 1)%nat)
         ∧ (Wr (GetData (outputImage90 ch)) (Z.of_nat k) (nth (4 * k + 2) raw 0) ∈ tr
            ∧ peek m' (GetData (outputImage90 ch)) k = raw !! (4 * k + 2)%nat)
         ∧ (Wr (GetData (outputImage135 ch)) (Z.of_nat k) (nth (4 * k + 3) raw 0) ∈ tr
            ∧ peek m' (GetData (outputImage135 ch)) k = raw !! (4 * k + 3)%nat))
  ∧
  (∀ junk : ptr → nat → Z,
     ∃ m' ch tr,
       split_frame OwnsData junk 2 [ex_raw] ex_img = Ret (m', ch, tr)
       ∧ image_bytes m' (outputImage0 ch) = Some [10; 11]
       ∧ image_bytes m' (outputImage45 ch) = Some [20; 21]
       ∧ image_bytes m' (outputImage90 ch) = Some [30; 31]
       ∧ image_bytes m' (outputImage135 ch) = Some [40; 41]).
Proof.
  split.
  - intros junk m img raw fuel Hwf Hfuel.
    do 3 eexists. split; [by apply split_frame_wf|].
    intros k Hk. cbn [outputImage0 outputImage45 outputImage90 outputImage135
                      channel_image GetData].
    pose proof (wf_raw_length m img raw Hwf) as Hlen.
    assert (Hk' : (k < Z.to_nat (GetWidth img * GetHeight img))%nat) by lia.
    assert (Hpk : ∀ off, (off < 4)%nat →
              peek (m ++ [junk (length m) <$> seq 0 (Z.to_nat (GetWidth img * GetHeight img));
                          spec_channel 0 raw; spec_channel 1 raw;
                          spec_channel 2 raw; spec_channel 3 raw])
                   (length m + 1 + off) k = raw !! (4 * k + off)%nat).
    { intros off Hoff. unfold peek. rewrite lookup_app_r by lia.
      replace (length m + 1 + off - length m)%nat with (S off) by lia.
      transitivity (spec_channel off raw !! k).
      { by destruct off as [|[|[|[|]]]]; try lia. }
      rewrite spec_channel_lookup, decide_True by lia.
      symmetry. eapply raw_lookup; [|done..]. lia. }
    pose proof (Hpk 0%nat ltac:(lia)) as P0. pose proof (Hpk 1%nat ltac:(lia)) as P1.
    pose proof (Hpk 2%nat ltac:(lia)) as P2. pose proof (Hpk 3%nat ltac:(lia)) as P3.
    rewrite !Nat.add_0_r in P0.
    replace (length m + 1 + 1)%nat with (length m + 2)%nat in P1 by lia.
    replace (length m + 1 + 2)%nat with (length m + 3)%nat in P2 by lia.
    replace (length m + 1 + 3)%nat with (length m + 4)%nat in P3 by lia.
    repeat split; try done;
      (eapply group_in_trace; [exact Hk'|unfold group_accesses; set_solver]).
  - intros junk. do 3 eexists. split; [vm_compute; reflexivity|].
    repeat split; reflexivity.
Qed.

(** The spec's scenario, through the general half of C1: index 1 of the
    90-degree frame holds source byte 6, which is 31. *)
Lemma C1_channel_holds_stride_samples_witness :
  ∃ m' ch tr,
    split_frame OwnsData (λ _ _, 0) 2 [ex_raw] ex_img = Ret (m', ch, tr)
    ∧ Wr (GetData (outputImage90 ch)) 1 31 ∈ tr
    ∧ peek m' (GetData (outputImage90 ch)) 1 = Some 31.
Proof.
  destruct (proj1 C1_channel_holds_stride_samples (λ _ _, 0) [ex_raw] ex_img ex_raw 2%nat)
    as (m' & ch & tr & Hrun & Hk).
  - split; [reflexivity|reflexivity|reflexivity|reflexivity|reflexivity|reflexivity].
  - vm_compute. lia.
  - exists m', ch, tr. split; [exact Hrun|].
    destruct (Hk 1%nat) as (_ & _ & [Hw Hp] & _); [reflexivity|].
    split; [exact Hw|exact Hp].
Defined.

(** The frame of the scenario is a frame of the data model. *)
Lemma ex_img_wf : wf_frame [ex_raw] ex_img ex_raw.
Proof. split; reflexivity. Qed.

Lemma ex_img_fits : frame_fits [ex_raw] ex_img ex_raw 2.
Proof.
  split; try reflexivity; try (vm_compute; intuition congruence).
  intros k Hk. cbn [GetSizeFilled ex_img]. lia.
Qed.

(** ** The frame splitter: where the loop stops *)

Lemma stride_groups_guard (size : Z) (k : nat) :
  1 ≤ size → 4 * Z.of_nat k < size - 1 ↔ (k < stride_groups size)%nat.
Proof.
  intros Hsize. unfold stride_groups.
  pose proof (Z.mul_div_le (size + 2) 4 ltac:(lia)) as Hle.
  pose proof (Z.mul_succ_div_gt (size + 2) 4 ltac:(lia)) as Hgt.
  assert (0 ≤ (size + 2) / 4) by (apply Z.div_pos; lia).
  split; intros Hk; lia.
Qed.

Lemma stride_groups_fits (m : Mem) (img : IImage) (raw : list Z) :
  m !! GetData img = Some raw →
  1 ≤ GetSizeFilled img < 2 ^ 32 - 2 →
  (4 * stride_groups (GetSizeFilled img) ≤ length raw)%nat →
  Z.of_nat (stride_groups (GetSizeFilled img)) ≤ out_size img →
  frame_fits m img raw (stride_groups (GetSizeFilled img)).
Proof.
  intros Hdata Hsize Hraw Hout.
  pose proof (Z.mul_div_le (GetSizeFilled img + 2) 4 ltac:(lia)) as Hle.
  pose proof (Z.mul_succ_div_gt (GetSizeFilled img + 2) 4 ltac:(lia)) as Hgt.
  assert (0 ≤ (GetSizeFilled img + 2) / 4) by (apply Z.div_pos; lia).
  split; try done.
  - lia.
  - unfold stride_groups. lia.
  - intros k Hk. apply stride_groups_guard; [lia|done].
  - unfold stride_groups. lia.
Qed.

Lemma load_fault (m : Mem) (p : ptr) (blk : list Z) (i : Z) :
  m !! p = Some blk → blk !! Z.to_nat i = None → load m p i = Fault.
Proof.
  intros Hp Hi. unfold load. rewrite Hp. destruct (0 <=? i); [by rewrite Hi|done].
Qed.

(** A group that does not lie within the source buffer: one of its four
    loads is outside the buffer. *)
Lemma split_step_short (inp o0 o45 o90 o135 : ptr) (raw : list Z) (M : nat) (m : Mem) :
  inp ≠ o0 ∧ inp ≠ o45 ∧ inp ≠ o90 ∧ inp ≠ o135 →
  (length raw < 4 * M + 4)%nat → 4 * Z.of_nat M + 3 < 2 ^ 32 →
  m !! inp = Some raw → outputs_fit o0 o45 o90 o135 (S M) m →
  split_step inp o0 o45 o90 o135 m (4 * Z.of_nat M) (Z.of_nat M) = Fault.
Proof.
  intros (Hn0 & Hn45 & Hn90 & Hn135) Hshort Hwrap Hraw Hfit.
  destruct (Hfit o0) as (L0 & HL0 & ?); [set_solver|].
  destruct (Hfit o45) as (L45 & HL45 & ?); [set_solver|].
  destruct (Hfit o90) as (L90 & HL90 & ?); [set_solver|].
  destruct (Hfit o135) as (L135 & HL135 & ?); [set_solver|].
  unfold split_step. rewrite !wrap_u32_small by lia.
  destruct (raw !! Z.to_nat (4 * Z.of_nat M)) as [b0|] eqn:E0;
    [|by rewrite (load_fault m inp raw)].
  rewrite (load_ok m inp raw _ b0) by (done || lia). res_step.
  destruct (store_spec m o0 M b0 L0) as (m1 & -> & _ & B1 & K1 & _); [done|lia|].
  res_step.
  destruct (raw !! Z.to_nat (4 * Z.of_nat M + 1)) as [b1|] eqn:E1;
    [|by rewrite (load_fault m1 inp raw) by (by rewrite ?K1)].
  rewrite (load_ok m1 inp raw _ b1) by (done || lia || by rewrite K1). res_step.
  destruct (store_spec m1 o45 M b1 L45) as (m2 & -> & _ & B2 & K2 & _);
    [by rewrite B1|lia|].
  res_step.
  destruct (raw !! Z.to_nat (4 * Z.of_nat M + 2)) as [b2|] eqn:E2;
    [|by rewrite (load_fault m2 inp raw) by (by rewrite ?K2, ?K1)].
  rewrite (load_ok m2 inp raw _ b2) by (done || lia || by rewrite K2, K1). res_step.
  destruct (store_spec m2 o90 M b2 L90) as (m3 & -> & _ & B3 & K3 & _);
    [by rewrite B2, B1|lia|].
  res_step.
  destruct (raw !! Z.to_nat (4 * Z.of_nat M + 3)) as [b3|] eqn:E3;
    [|by rewrite (load_fault m3 inp raw) by (by rewrite ?K3, ?K2, ?K1)].
  apply lookup_lt_Some in E3. lia.
Qed.

(** The loop on a source buffer that holds [M] whole groups and not the
    next one, although the guard lets that one run: undefined behaviour at
    group [M]. *)
Lemma split_loop_short (inp o0 o45 o90 o135 : ptr) (raw : list Z) (M : nat)
    (buffer_size : Z) :
  inp ≠ o0 ∧ inp ≠ o45 ∧ inp ≠ o90 ∧ inp ≠ o135 →
  (4 * M ≤ length raw < 4 * M + 4)%nat → 4 * Z.of_nat M + 3 < 2 ^ 32 →
  4 * Z.of_nat M < buffer_size →
  ∀ (cnt j : nat) (m : Mem) (tr : list access) (fuel : nat),
    (j + cnt = M)%nat → (cnt < fuel)%nat →
    m !! inp = Some raw → outputs_fit o0 o45 o90 o135 (S M) m →
    split_loop fuel inp o0 o45 o90 o135 buffer_size m tr (4 * Z.of_nat j) (Z.of_nat j)
    = Fault.
Proof.
  intros Hinp Hraw Hwrap Hguard.
  induction cnt as [|cnt IH]; intros j m tr fuel Hcnt Hfuel Hm Hfit;
    (destruct fuel as [|fuel]; [lia|]); cbn [split_loop];
    (destruct (Z.ltb_spec (4 * Z.of_nat j) buffer_size); [|lia]).
  - replace j with M by lia.
    by rewrite (split_step_short inp o0 o45 o90 o135 raw M m Hinp ltac:(lia) Hwrap Hm Hfit).
  - destruct (split_step_spec inp o0 o45 o90 o135 raw M Hinp ltac:(lia) ltac:(lia) m j)
      as (m1 & -> & E1 & B1 & K1 & _); [lia|done| |].
    { intros o Ho. destruct (Hfit o Ho) as (L & HL & ?). exists L. split; [done|lia]. }
    res_step. rewrite !wrap_u32_small by lia.
    replace (4 * Z.of_nat j + 4) with (4 * Z.of_nat (S j)) by lia.
    replace (Z.of_nat j + 1) with (Z.of_nat (S j)) by lia.
    apply IH; [lia|lia| |].
    + destruct Hinp as (? & ? & ? & ?). rewrite K1; [done|set_solver].
    + intros o Ho. rewrite B1. by apply Hfit.
Qed.


(** With a source buffer shorter than the [4N] bytes of the [N] groups the
    guard lets run, the loop reads past the end of the buffer. *)
Lemma split_frame_short_buffer (junk : ptr → nat → Z) (m : Mem) (img : IImage)
    (raw : list Z) (fuel : nat) :
  m !! GetData img = Some raw →
  1 ≤ GetSizeFilled img < 2 ^ 32 - 2 →
  (length raw < 4 * stride_groups (GetSizeFilled img))%nat →
  Z.of_nat (stride_groups (GetSizeFilled img)) ≤ out_size img →
  (stride_groups (GetSizeFilled img) ≤ fuel)%nat →
  split_frame OwnsData junk fuel m img = Fault.
Proof.
  intros Hdata Hsize Hshort Hout Hfuel.
  set (N := stride_groups (GetSizeFilled img)) in *.
  set (M := (length raw / 4)%nat).
  assert (HM : (4 * M ≤ length raw < 4 * M + 4)%nat).
  { unfold M. pose proof (Nat.div_mod_eq (length raw) 4).
    pose proof (Nat.mod_upper_bound (length raw) 4 ltac:(lia)). lia. }
  assert (HMN : (M < N)%nat) by lia.
  pose proof (proj2 (stride_groups_guard (GetSizeFilled img) M ltac:(lia)) HMN) as Hguard.
  pose proof (proj2 (stride_groups_guard (GetSizeFilled img) (N - 1) ltac:(lia))
                ltac:(fold N; lia)) as Hlast.
  pose proof (lookup_lt_Some _ _ _ Hdata) as Hin.
  set (d := length m).
  set (dummy := junk d <$> seq 0 (Z.to_nat (out_size img))).
  assert (Hdl : length dummy = Z.to_nat (out_size img))
    by (unfold dummy; by rewrite length_fmap, length_seq).
  unfold split_frame, new_array, alloc. fold (out_size img). fold d. fold dummy.
  rewrite (ImageFactory_Create_owns _ d dummy) by (by rewrite ?list_lookup_middle).
  res_step.
  rewrite (ImageFactory_Create_owns _ d dummy)
    by (rewrite ?lookup_app_l by (rewrite length_app; simpl; lia);
        by rewrite ?list_lookup_middle).
  res_step.
  rewrite (ImageFactory_Create_owns _ d dummy)
    by (rewrite ?lookup_app_l by (rewrite !length_app; simpl; lia);
        by rewrite ?list_lookup_middle).
  res_step.
  rewrite (ImageFactory_Create_owns _ d dummy)
    by (rewrite ?lookup_app_l by (rewrite !length_app; simpl; lia);
        by rewrite ?list_lookup_middle).
  res_step. cbn [GetData].
  rewrite !length_app. cbn [length]. fold d.
  rewrite <- !app_assoc. cbn [app].
  set (M4 := m ++ [dummy; dummy; dummy; dummy; dummy]).
  assert (HM4 : ∀ q b, [dummy; dummy; dummy; dummy; dummy] !! q = Some b →
                       M4 !! (d + q)%nat = Some b).
  { intros q b Hq. unfold M4. by rewrite lookup_app_r, Nat.add_sub' by lia. }
  unfold wrap_u64. rewrite Z.mod_small by lia.
  assert (Hrun : split_loop fuel (GetData img) (d + 1)%nat (d + 1 + 1)%nat
                   (d + 1 + 1 + 1)%nat (d + 1 + 1 + 1 + 1)%nat (GetSizeFilled img - 1)
                   M4 [] 0 0 = Fault); [|by rewrite Hrun].
  apply (split_loop_short (GetData img) (d + 1)%nat (d + 1 + 1)%nat (d + 1 + 1 + 1)%nat
           (d + 1 + 1 + 1 + 1)%nat raw M (GetSizeFilled img - 1)
           ltac:(lia) HM ltac:(lia) Hguard M 0%nat M4 [] fuel);
    [done|lia|by unfold M4; rewrite lookup_app_l|].
  intros o Ho. exists (Z.to_nat (out_size img)). split; [|lia].
  unfold blen. assert (∃ q, o = (d + q)%nat ∧ (1 ≤ q ≤ 4)%nat) as (q & -> & Hq).
  { repeat (apply elem_of_cons in Ho as [->|Ho]);
      [exists 1%nat|exists 2%nat|exists 3%nat|exists 4%nat|by apply elem_of_nil in Ho];
      (split; lia). }
  rewrite (HM4 q dummy); [simpl; by rewrite Hdl|].
  destruct q as [|[|[|[|[|]]]]]; try done; lia.
Qed.

(** C2 (as amended) - The loop tests the first index of a stride group,
    not its last: it runs group [k] exactly when [4k] is below the usable
    length (the filled size minus one), and it reads all four bytes of
    every group it runs.  For a frame of at least one filled byte (and
    fewer than 2^32 - 2) whose output frames hold the [N] groups run: if the
    buffer holds at least [4N] bytes, the source indices read are exactly
    [0 .. 4N-1]; when the filled size is [4N] or [4N+1], no source index
    above the usable length is read (at [4N] every byte is read, at [4N+1]
    the last byte alone is left out), and otherwise (filled size [4N-2] or
    [4N-1]) the final, partial group is read in full, through index [4N-1]
    above the usable length.  If the buffer holds fewer than [4N] bytes, the
    loop reads past its end. *)
Theorem C2_reads_follow_group_starts
    (junk : ptr → nat → Z) (m : Mem) (img : IImage) (raw : list Z) (N fuel : nat) :
  N = stride_groups (GetSizeFilled img) →
  m !! GetData img = Some raw →
  1 ≤ GetSizeFilled img < 2 ^ 32 - 2 →
  Z.of_nat N ≤ out_size img →
  (N ≤ fuel)%nat →
  (∀ k : nat, 4 * Z.of_nat k < GetSizeFilled img - 1 ↔ (k < N)%nat)
  ∧ 4 * Z.of_nat N - 2 ≤ GetSizeFilled img ≤ 4 * Z.of_nat N + 1
  ∧ ((4 * N ≤ length raw)%nat →
     ∃ m' ch tr,
       split_frame OwnsData junk fuel m img = Ret (m', ch, tr)
       ∧ (∀ i, i ∈ reads_of (GetData img) tr ↔ 0 ≤ i < 4 * Z.of_nat N)
       ∧ (4 * Z.of_nat N ≤ GetSizeFilled img →
          ∀ i, i ∈ reads_of (GetData img) tr → i ≤ GetSizeFilled img - 1)
       ∧ (GetSizeFilled img = 4 * Z.of_nat N + 1 →
          GetSizeFilled img - 1 ∉ reads_of (GetData img) tr)
       ∧ (GetSizeFilled img < 4 * Z.of_nat N →
          4 * Z.of_nat N - 1 ∈ reads_of (GetData img) tr
          ∧ GetSizeFilled img - 1 < 4 * Z.of_nat N - 1))
  ∧ ((length raw < 4 * N)%nat → split_frame OwnsData junk fuel m img = Fault).
Proof.
  intros -> Hdata Hsize Hout Hfuel.
  split; [intros k; apply stride_groups_guard; lia|].
  split.
  { unfold stride_groups.
    pose proof (Z.mul_div_le (GetSizeFilled img + 2) 4 ltac:(lia)).
    pose proof (Z.mul_succ_div_gt (GetSizeFilled img + 2) 4 ltac:(lia)).
    assert (0 ≤ (GetSizeFilled img + 2) / 4) by (apply Z.div_pos; lia). lia. }
  split; [|intros Hshort; by apply (split_frame_short_buffer junk m img raw)].
  intros Hraw.
  pose proof (stride_groups_fits m img raw Hdata Hsize Hraw Hout) as Hfits.
  do 3 eexists.
  split; [by apply (split_frame_owns junk m img raw _ Hfits)|].
  split; [intros i; apply elem_of_reads|].
  split_and!.
  - intros Hfull i Hi%elem_of_reads. lia.
  - intros Hlast Hi%elem_of_reads. lia.
  - intros Hpartial. split; [|lia]. apply elem_of_reads. lia.
Qed.

(** The frame of six filled bytes in a buffer of eight: two groups are run
    and index 7 is read. *)
Lemma C2_reads_follow_group_starts_witness :
  ∃ m' ch tr,
    split_frame OwnsData (λ _ _, 0) 2 [ex_raw] ex_short = Ret (m', ch, tr)
    ∧ (∀ i, i ∈ reads_of (GetData ex_short) tr ↔ 0 ≤ i < 8)
    ∧ 7 ∈ reads_of (GetData ex_short) tr
    ∧ GetSizeFilled ex_short - 1 < 7.
Proof.
  destruct (C2_reads_follow_group_starts (λ _ _, 0) [ex_raw] ex_short ex_raw 2 2)
    as (_ & _ & Hlong & _);
    [reflexivity|reflexivity|cbn; lia|vm_compute; congruence|lia|].
  destruct Hlong as (m' & ch & tr & Hrun & Hreads & _ & _ & Hpartial); [cbn; lia|].
  exists m', ch, tr. split; [done|]. split; [done|]. apply Hpartial. cbn. lia.
Defined.

(** The same six filled bytes in a buffer of six: the second group leaves
    the buffer. *)
Lemma split_frame_six_of_six :
  split_frame OwnsData (λ _ _, 0) 2 [[10; 20; 30; 40; 11; 21]] ex_short = Fault.
Proof.
  apply (split_frame_short_buffer (λ _ _, 0) [[10; 20; 30; 40; 11; 21]] ex_short
           [10; 20; 30; 40; 11; 21] 2).
  - reflexivity.
  - cbn. lia.
  - vm_compute. lia.
  - vm_compute. congruence.
  - vm_compute. lia.
Qed.

(** A frame that reports six filled bytes has usable length five; the guard
    [4 < 5] lets the second group run, and index 7 is read. *)
Lemma C2_partial_group_is_read : ¬ reads_stop_at_usable_length.
Proof.
  intros H.
  assert (∃ m' ch tr,
            split_frame OwnsData (λ _ _, 0) 2 [ex_raw] ex_short = Ret (m', ch, tr)
            ∧ 7 ∈ reads_of (GetData ex_short) tr) as (m' & ch & tr & Hrun & Hin).
  { do 3 eexists. split; [vm_compute; reflexivity|].
    apply list_elem_of_In. vm_compute. tauto. }
  specialize (H _ _ _ _ _ _ _ Hrun 7 Hin). cbn [GetSizeFilled ex_short] in H. lia.
Qed.

(** ** The frame splitter: four full frames *)

(** C6 - For every RawFrame of [w*h*4] bytes, splitting produces four
    ChannelFrames in four different buffers, each of exactly [w*h] bytes,
    and every index [0 .. w*h-1] of each of them is written: the loop stores
    to it, and afterwards it holds the sample of its angle, whatever the
    buffer held when it was allocated. *)
Theorem C6_four_full_channel_frames
    (junk : ptr → nat → Z) (m : Mem) (img : IImage) (raw : list Z) (fuel : nat) :
  wf_frame m img raw →
  (Z.to_nat (GetWidth img * GetHeight img) ≤ fuel)%nat →
  ∃ m' ch tr,
    split_frame OwnsData junk fuel m img = Ret (m', ch, tr)
    ∧ NoDup [GetData (outputImage0 ch); GetData (outputImage45 ch);
             GetData (outputImage90 ch); GetData (outputImage135 ch)]
    ∧ ∀ (off : nat) (o : IImage),
        [outputImage0 ch; outputImage45 ch; outputImage90 ch; outputImage135 ch] !! off
          = Some o →
        GetSizeFilled o = GetWidth img * GetHeight img
        ∧ (∃ bytes, m' !! GetData o = Some bytes
                    ∧ Z.of_nat (length bytes) = GetWidth img * GetHeight img
                    ∧ ∀ k : nat, Z.of_nat k < GetWidth img * GetHeight img →
                        bytes !! k = Some (nth (4 * k + off) raw 0)
                        ∧ raw !! (4 * k + off)%nat = Some (nth (4 * k + off) raw 0))
        ∧ ∀ k, 0 ≤ k < GetWidth img * GetHeight img → k ∈ writes_to (GetData o) tr.
Proof.
  intros Hwf Hfuel. do 3 eexists. split; [by apply split_frame_wf|].
  cbn [outputImage0 outputImage45 outputImage90 outputImage135].
  pose proof (wf_raw_length m img raw Hwf) as Hlen.
  pose proof (wf_pixels m img raw Hwf) as [Hpix _].
  split.
  { cbn [channel_image GetData]. repeat (apply NoDup_cons; split; [set_unfold; lia|]).
    apply NoDup_nil_2. }
  intros off o Ho.
  assert ((off < 4)%nat ∧ o = channel_image img (length m + 1 + off))
    as (Hoff & ->).
  { destruct off as [|[|[|[|off]]]]; try done; injection Ho as <-;
      (split; [lia|]); f_equal; lia. }
  cbn [channel_image GetData GetSizeFilled].
  split; [by apply (wf_out_size m img raw)|]. split.
  - exists (spec_channel off raw). split; [|split].
    + rewrite lookup_app_r by lia.
      replace (length m + 1 + off - length m)%nat with (S off) by lia.
      by destruct off as [|[|[|[|]]]]; try lia.
    + by rewrite (spec_channel_length off raw _ Hlen).
    + intros k Hk. rewrite spec_channel_lookup by done.
      rewrite decide_True by lia. split; [done|].
      apply (raw_lookup raw (Z.to_nat (GetWidth img * GetHeight img))); lia.
  - intros k Hk. replace k with (Z.of_nat (Z.to_nat k)) by lia.
    apply elem_of_writes; [|lia].
    destruct off as [|[|[|[|]]]]; try lia;
      [replace (length m + 1 + 0)%nat with (length m + 1)%nat by lia
      |replace (length m + 1 + 1)%nat with (length m + 2)%nat by lia
      |replace (length m + 1 + 2)%nat with (length m + 3)%nat by lia
      |replace (length m + 1 + 3)%nat with (length m + 4)%nat by lia];
      set_solver.
Qed.

(** The frame of the scenario, over buffers that held 255 everywhere. *)
Lemma C6_four_full_channel_frames_witness :
  ∃ m' ch tr,
    split_frame OwnsData (λ _ _, 255) 2 [ex_raw] ex_img = Ret (m', ch, tr)
    ∧ NoDup [GetData (outputImage0 ch); GetData (outputImage45 ch);
             GetData (outputImage90 ch); GetData (outputImage135 ch)]
    ∧ ∀ (off : nat) (o : IImage),
        [outputImage0 ch; outputImage45 ch; outputImage90 ch; outputImage135 ch] !! off
          = Some o →
        GetSizeFilled o = GetWidth ex_img * GetHeight ex_img
        ∧ (∃ bytes, m' !! GetData o = Some bytes
                    ∧ Z.of_nat (length bytes) = GetWidth ex_img * GetHeight ex_img
                    ∧ ∀ k : nat, Z.of_nat k < GetWidth ex_img * GetHeight ex_img →
                        bytes !! k = Some (nth (4 * k + off) ex_raw 0)
                        ∧ ex_raw !! (4 * k + off)%nat = Some (nth (4 * k + off) ex_raw 0))
        ∧ ∀ k, 0 ≤ k < GetWidth ex_img * GetHeight ex_img → k ∈ writes_to (GetData o) tr.
Proof.
  apply (C6_four_full_channel_frames (λ _ _, 255) [ex_raw] ex_img ex_raw 2).
  - split; reflexivity.
  - vm_compute. lia.
Defined.

(** ** The frame splitter: purity *)

(** C9 - Splitting is a deterministic function of the RawFrame bytes:
    calling the splitter twice on the same RawFrame, the second time in the
    memory the first call left and whatever the fresh buffers happen to
    contain, yields byte-identical ChannelFrames for all four angles; the
    RawFrame, like everything allocated before, is left unchanged. *)
Theorem C9_split_is_pure
    (junk1 junk2 : ptr → nat → Z) (m : Mem) (img : IImage) (raw : list Z)
    (fuel1 fuel2 : nat) :
  wf_frame m img raw →
  (Z.to_nat (GetWidth img * GetHeight img) ≤ fuel1)%nat →
  (Z.to_nat (GetWidth img * GetHeight img) ≤ fuel2)%nat →
  ∃ m1 ch1 tr1 m2 ch2 tr2 b0 b45 b90 b135,
    split_frame OwnsData junk1 fuel1 m img = Ret (m1, ch1, tr1)
    ∧ split_frame OwnsData junk2 fuel2 m1 img = Ret (m2, ch2, tr2)
    ∧ (image_bytes m1 (outputImage0 ch1) = Some b0
       ∧ image_bytes m2 (outputImage0 ch2) = Some b0)
    ∧ (image_bytes m1 (outputImage45 ch1) = Some b45
       ∧ image_bytes m2 (outputImage45 ch2) = Some b45)
    ∧ (image_bytes m1 (outputImage90 ch1) = Some b90
       ∧ image_bytes m2 (outputImage90 ch2) = Some b90)
    ∧ (image_bytes m1 (outputImage135 ch1) = Some b135
       ∧ image_bytes m2 (outputImage135 ch2) = Some b135)
    ∧ m1 !! GetData img = Some raw ∧ m2 !! GetData img = Some raw
    ∧ m `prefix_of` m1 ∧ m1 `prefix_of` m2.
Proof.
  intros Hwf Hfuel1 Hfuel2.
  set (m1 := m ++ [junk1 (length m) <$> seq 0 (Z.to_nat (GetWidth img * GetHeight img));
                   spec_channel 0 raw; spec_channel 1 raw;
                   spec_channel 2 raw; spec_channel 3 raw]).
  assert (Hpre : m `prefix_of` m1) by apply prefix_app_r, reflexivity.
  pose proof (wf_frame_extend m m1 img raw Hwf Hpre) as Hwf1.
  exists m1. do 5 eexists.
  exists (spec_channel 0 raw), (spec_channel 1 raw), (spec_channel 2 raw), (spec_channel 3 raw).
  split; [by apply split_frame_wf|]. split; [by apply split_frame_wf|].
  cbn [outputImage0 outputImage45 outputImage90 outputImage135].
  pose proof (split_frame_wf_bytes m img raw) as B1.
  pose proof (split_frame_wf_bytes m1 img raw) as B2.
  split; [split; [apply (B1 _ 0%nat)|apply (B2 _ 0%nat)]; (done || lia)|].
  split; [split; [apply (B1 _ 1%nat)|apply (B2 _ 1%nat)]; (done || lia)|].
  split; [split; [apply (B1 _ 2%nat)|apply (B2 _ 2%nat)]; (done || lia)|].
  split; [split; [apply (B1 _ 3%nat)|apply (B2 _ 3%nat)]; (done || lia)|].
  clear B1 B2.
  split; [by destruct Hwf1|].
  split; [|split; [done|apply prefix_app_r; reflexivity]].
  apply (prefix_lookup_Some m1); [by destruct Hwf1|apply prefix_app_r; reflexivity].
Qed.

Lemma C9_split_is_pure_witness :
  ∃ m1 ch1 tr1 m2 ch2 tr2 b0 b45 b90 b135,
    split_frame OwnsData (λ _ _, 0) 2 [ex_raw] ex_img = Ret (m1, ch1, tr1)
    ∧ split_frame OwnsData (λ _ _, 255) 3 m1 ex_img = Ret (m2, ch2, tr2)
    ∧ (image_bytes m1 (outputImage0 ch1) = Some b0
       ∧ image_bytes m2 (outputImage0 ch2) = Some b0)
    ∧ (image_bytes m1 (outputImage45 ch1) = Some b45
       ∧ image_bytes m2 (outputImage45 ch2) = Some b45)
    ∧ (image_bytes m1 (outputImage90 ch1) = Some b90
       ∧ image_bytes m2 (outputImage90 ch2) = Some b90)
    ∧ (image_bytes m1 (outputImage135 ch1) = Some b135
       ∧ image_bytes m2 (outputImage135 ch2) = Some b135)
    ∧ m1 !! GetData ex_img = Some ex_raw ∧ m2 !! GetData ex_img = Some ex_raw
    ∧ [ex_raw] `prefix_of` m1 ∧ m1 `prefix_of` m2.
Proof.
  apply (C9_split_is_pure (λ _ _, 0) (λ _ _, 255) [ex_raw] ex_img ex_raw 2 3).
  - split; reflexivity.
  - vm_compute. lia.
  - vm_compute. lia.
Defined.

(** ** [main]: argument checks *)

(** C10 - Whenever the arguments parse to a width or a height of 0, [main]
    returns the failure code -1 and leaves the world as it found it: nothing
    is configured on the device and no stream is started. *)
Theorem C10_zero_dimension_rejected
    (own : Ownership) (env : Env) (fuel : nat) (args : list string) (s : Sys)
    (width height numImages : Z) (fps : float) :
  parse_args env args WIDTH HEIGHT NUM_IMAGES FRAMES_PER_SECOND
    = Parsed width height numImages fps →
  width = 0 ∨ height = 0 →
  main own env fuel args s = (Ret (-1), s).
Proof.
  intros Hparse Hzero. unfold main. rewrite Hparse.
  destruct (Z.eqb_spec height 0), (Z.eqb_spec width 0); simpl; (done || lia).
Qed.

(** The spec's scenario: [-w 0 -h 64], a width of 0 and a height of 64. *)
Lemma C10_zero_dimension_rejected_witness :
  main OwnsData (ex_env 2) 5 ["-w"; "0"; "-h"; "64"] ex_sys = (Ret (-1), ex_sys).
Proof.
  apply (C10_zero_dimension_rejected OwnsData (ex_env 2) 5 ["-w"; "0"; "-h"; "64"]
           ex_sys 0 64 NUM_IMAGES FRAMES_PER_SECOND)%string.
  - reflexivity.
  - left. reflexivity.
Defined.

(** ** [main]: the phases of the session *)

Lemma set_device_id (s : Sys) : set_device (device s) s = s.
Proof. by destruct s. Qed.

Lemma M_bind_eq {A B : Type} (c : M A) (k : A → M B) (s : Sys) :
  (c ≫= k) s = match c s with
               | (Ret a, s) => k a s
               | (Throw e, s) => (Throw e, s)
               | (Fault, s) => (Fault, s)
               | (OutOfFuel, s) => (OutOfFuel, s)
               end.
Proof. reflexivity. Qed.

Lemma on_device_get_string (k : string) (s : Sys) :
  on_device (GetNodeValue_string k) s
  = match device s !! k with
    | Some (StringNode v) => (Ret v, s)
    | _ => (Throw (null_node k), s)
    end.
Proof.
  unfold on_device, lift, GetNodeValue_string.
  destruct (device s !! k) as [[| | |]|]; by rewrite ?set_device_id.
Qed.

Lemma on_device_get_bool (k : string) (s : Sys) :
  on_device (GetNodeValue_bool k) s
  = match device s !! k with
    | Some (BooleanNode v) => (Ret v, s)
    | _ => (Throw (null_node k), s)
    end.
Proof.
  unfold on_device, lift, GetNodeValue_bool.
  destruct (device s !! k) as [[| | |]|]; by rewrite ?set_device_id.
Qed.

Lemma on_device_get_double (k : string) (s : Sys) :
  on_device (GetNodeValue_double k) s
  = match device s !! k with
    | Some (FloatNode v _ _) => (Ret v, s)
    | _ => (Throw (null_node k), s)
    end.
Proof.
  unfold on_device, lift, GetNodeValue_double.
  destruct (device s !! k) as [[| | |]|]; by rewrite ?set_device_id.
Qed.

Lemma on_device_get_int64 (k : string) (s : Sys) :
  on_device (GetNodeValue_int64 k) s
  = match device s !! k with
    | Some (IntegerNode v _ _ _) => (Ret v, s)
    | _ => (Throw (null_node k), s)
    end.
Proof.
  unfold on_device, lift, GetNodeValue_int64.
  destruct (device s !! k) as [[| | |]|]; by rewrite ?set_device_id.
Qed.

Lemma store_initial_settings_cases (s : Sys) :
  (∃ e, store_initial_settings s = (Throw e, s))
  ∨ (∃ init, store_initial_settings s = (Ret init, s)
       ∧ device s !! "AcquisitionMode" = Some (StringNode (acquisitionModeInitial init))
       ∧ device s !! "AcquisitionFrameRateEnable"
         = Some (BooleanNode (frameRateEnableInitial init))
       ∧ (frameRateEnableInitial init = true →
          ∃ mn mx, device s !! "AcquisitionFrameRate"
                   = Some (FloatNode (frameRateInitial init) mn mx))
       ∧ (∃ mn mx inc, device s !! "Width"
                       = Some (IntegerNode (imageWidthInitial init) mn mx inc))
       ∧ (∃ mn mx inc, device s !! "Height"
                       = Some (IntegerNode (imageHeightInitial init) mn mx inc))).
Proof.
  unfold store_initial_settings.
  rewrite M_bind_eq, on_device_get_string.
  destruct (device s !! "AcquisitionMode") as [[| | |mode]|] eqn:Hmode;
    try (left; by eexists).
  rewrite M_bind_eq, on_device_get_bool.
  destruct (device s !! "AcquisitionFrameRateEnable") as [[| |enable|]|] eqn:Henable;
    try (left; by eexists).
  destruct enable.
  - rewrite M_bind_eq, on_device_get_double.
    destruct (device s !! "AcquisitionFrameRate") as [[|rate rmn rmx| |]|] eqn:Hrate;
      try (left; by eexists).
    rewrite M_bind_eq, on_device_get_int64.
    destruct (device s !! "Width") as [[w wmn wmx winc| | |]|] eqn:Hw;
      try (left; by eexists).
    rewrite M_bind_eq, on_device_get_int64.
    destruct (device s !! "Height") as [[h hmn hmx hinc| | |]|] eqn:Hh;
      try (left; by eexists).
    right. eexists. split; [done|]. cbn. repeat split; eauto.
  - rewrite M_bind_eq. cbn [mret M_mret].
    rewrite M_bind_eq, on_device_get_int64.
    destruct (device s !! "Width") as [[w wmn wmx winc| | |]|] eqn:Hw;
      try (left; by eexists).
    rewrite M_bind_eq, on_device_get_int64.
    destruct (device s !! "Height") as [[h hmn hmx hinc| | |]|] eqn:Hh;
      try (left; by eexists).
    right. eexists. split; [done|]. cbn. repeat split; eauto. done.
Qed.

Lemma on_device_set_string (k v : string) (s : Sys) :
  on_device (SetNodeValue_string k v) s
  = match device s !! k with
    | Some (StringNode _) => (Ret (), set_device (<[k := StringNode v]> (device s)) s)
    | _ => (Throw (null_node k), s)
    end.
Proof.
  unfold on_device, lift, SetNodeValue_string.
  by destruct (device s !! k) as [[| | |]|].
Qed.

Lemma on_device_set_bool (k : string) (v : bool) (s : Sys) :
  on_device (SetNodeValue_bool k v) s
  = match device s !! k with
    | Some (BooleanNode _) => (Ret (), set_device (<[k := BooleanNode v]> (device s)) s)
    | _ => (Throw (null_node k), s)
    end.
Proof.
  unfold on_device, lift, SetNodeValue_bool.
  by destruct (device s !! k) as [[| | |]|].
Qed.

Lemma on_tlstream_set_bool (k : string) (v : bool) (s : Sys) :
  on_tlstream (SetNodeValue_bool k v) s
  = match tlstream s !! k with
    | Some (BooleanNode _) =>
        (Ret (), set_tlstream (<[k := BooleanNode v]> (tlstream s)) s)
    | _ => (Throw (null_node k), s)
    end.
Proof.
  unfold on_tlstream, lift, SetNodeValue_bool.
  by destruct (tlstream s !! k) as [[| | |]|].
Qed.

Lemma on_device_SetIntValue (k : string) (value : Z) (s : Sys) :
  on_device (λ nm, SetIntValue nm k value) s
  = match device s !! k with
    | Some (IntegerNode _ mn mx inc) =>
        if div_traps (wrap_i64 (value - mn)) inc then (Fault, s)
        else if IInteger_accepts mn mx inc (snap_clamp mn mx inc value)
             then (Ret (snap_clamp mn mx inc value),
                   set_device (<[k := IntegerNode (snap_clamp mn mx inc value) mn mx inc]>
                                 (device s)) s)
             else (Throw (out_of_range k), s)
    | _ => (Throw (null_node k), s)
    end.
Proof.
  unfold on_device, lift.
  destruct (device s !! k) as [[v mn mx inc| | |]|] eqn:Hnode;
    try (by unfold SetIntValue; rewrite Hnode).
  rewrite (SetIntValue_eq _ _ v mn mx inc) by done.
  destruct (div_traps _ _); [reflexivity|].
  by destruct (IInteger_accepts _ _ _ _).
Qed.

Lemma on_device_SetFloatValue (k : string) (value : float) (s : Sys) :
  on_device (λ nm, SetFloatValue nm k value) s
  = match device s !! k with
    | Some (FloatNode _ mn mx) =>
        (Ret (clamp_float mn mx value),
         set_device (<[k := FloatNode (clamp_float mn mx value) mn mx]> (device s)) s)
    | _ => (Throw (null_node k), s)
    end.
Proof.
  unfold on_device, lift, SetFloatValue, clamp_float.
  destruct (device s !! k) as [[| | |]|]; reflexivity.
Qed.

Lemma configure_device_cases (width height : Z) (fps : float) (s : Sys) :
  positive_increments (device s) →
  (∃ e s', configure_device width height fps s = (Throw e, s') ∧ same_session s s')
  ∨ (∃ w h f s', configure_device width height fps s = (Ret (w, h, f), s')
       ∧ same_session s s'
       ∧ device s' = configured (device s) width height fps
       ∧ (∃ v, device s !! "AcquisitionMode" = Some (StringNode v))
       ∧ (∃ v, device s !! "AcquisitionFrameRateEnable" = Some (BooleanNode v))
       ∧ (∃ v mn mx inc, device s !! "Width" = Some (IntegerNode v mn mx inc))
       ∧ (∃ v mn mx inc, device s !! "Height" = Some (IntegerNode v mn mx inc))
       ∧ (∃ v mn mx, device s !! "AcquisitionFrameRate" = Some (FloatNode v mn mx))).
Proof.
  intros [Hwinc Hhinc]. unfold configure_device, configured.
  rewrite M_bind_eq, on_device_set_string.
  destruct (device s !! "AcquisitionMode") as [[| | |mode]|] eqn:Hmode; try phase_throws.
  rewrite M_bind_eq, on_device_set_string. cbn [device set_device].
  rewrite lookup_insert_ne by done.
  destruct (device s !! "PixelFormat") as [[| | |pf]|] eqn:Hpf; try phase_throws.
  rewrite M_bind_eq, on_device_SetIntValue. cbn [device set_device].
  rewrite !lookup_insert_ne by done.
  destruct (device s !! "Width") as [[w wmn wmx winc| | |]|] eqn:Hw; try phase_throws.
  rewrite (div_traps_positive _ winc) by done.
  destruct (IInteger_accepts wmn wmx winc _); [|phase_throws].
  rewrite M_bind_eq, on_device_SetIntValue. cbn [device set_device].
  rewrite !lookup_insert_ne by done.
  destruct (device s !! "Height") as [[h hmn hmx hinc| | |]|] eqn:Hh; try phase_throws.
  rewrite (div_traps_positive _ hinc) by done.
  destruct (IInteger_accepts hmn hmx hinc _); [|phase_throws].
  rewrite M_bind_eq, on_device_set_bool. cbn [device set_device].
  rewrite !lookup_insert_ne by done.
  destruct (device s !! "AcquisitionFrameRateEnable") as [[| |enable|]|] eqn:Hen;
    try phase_throws.
  rewrite M_bind_eq, on_device_SetFloatValue. cbn [device set_device].
  rewrite !lookup_insert_ne by done.
  destruct (device s !! "AcquisitionFrameRate") as [[|rate fmn fmx| |]|] eqn:Hfr;
    try phase_throws.
  rewrite M_bind_eq, on_tlstream_set_bool. cbn [tlstream set_device].
  destruct (tlstream s !! "StreamAutoNegotiatePacketSize") as [[| |neg|]|] eqn:Hneg;
    try phase_throws.
  rewrite M_bind_eq, on_tlstream_set_bool. cbn [tlstream set_tlstream].
  rewrite !lookup_insert_ne by done.
  destruct (tlstream s !! "StreamPacketResendEnable") as [[| |resend|]|] eqn:Hres;
    try phase_throws.
  right. do 4 eexists. split; [reflexivity|]. split; [by repeat split|].
  split; [reflexivity|]. repeat split; eauto.
Qed.

(** ** What a phase leaves alone *)

Section keeps.
Context {X : Type} (f : Sys → X).

Lemma keeps_bind {A B : Type} (c : M A) (k : A → M B) :
  keeps f c → (∀ a, keeps f (k a)) → keeps f (c ≫= k).
Proof.
  intros Hc Hk s. rewrite M_bind_eq. specialize (Hc s).
  destruct (c s) as [[a| | |] s1]; simpl in *; try done.
  by rewrite Hk.
Qed.

Lemma keeps_ret {A : Type} (a : A) : keeps f (mret a).
Proof. by intros s. Qed.

Lemma keeps_lift {A S : Type} (get : Sys → S) (set : S → Sys → Sys)
    (g : S → res (S * A)) :
  (∀ x s, f (set x s) = f s) → keeps f (lift get set g).
Proof.
  intros Hset s. unfold lift. by destruct (g (get s)) as [[x a]| | |]; simpl.
Qed.

End keeps.

Lemma VideoRecorder_keeps {X : Type} (f : Sys → X) :
  (∀ v s, f (set_videos v s) = f s) →
  (∀ params fileName, keeps f (VideoRecorder_new params fileName))
  ∧ (∀ fileName, keeps f (VideoRecorder_SetH264Mp4BGR8 fileName))
  ∧ (∀ env fileName, keeps f (VideoRecorder_Open env fileName))
  ∧ (∀ fileName pData, keeps f (VideoRecorder_AppendImage fileName pData))
  ∧ (∀ fileName, keeps f (VideoRecorder_Close fileName)).
Proof.
  intros Hset. repeat split.
  - intros params fileName s. apply Hset.
  - intros fileName s. unfold VideoRecorder_SetH264Mp4BGR8.
    by destruct (videos s !! fileName); simpl.
  - intros env fileName s. unfold VideoRecorder_Open.
    destruct (videos s !! fileName) as [r|]; [|done].
    destruct (vr_state r); try done. by destruct (can_open env fileName); simpl.
  - intros fileName pData s. unfold VideoRecorder_AppendImage.
    destruct (videos s !! fileName) as [r|]; [|done].
    destruct (vr_state r); try done. by destruct (mem s !! pData); simpl.
  - intros fileName s. unfold VideoRecorder_Close.
    destruct (videos s !! fileName) as [r|]; [|done].
    by destruct (vr_state r); simpl.
Qed.

(** [RecordVideo] works on memory and files only. *)
Lemma RecordVideo_keeps {X : Type} (f : Sys → X) own env fuel images fps :
  (∀ v s, f (set_videos v s) = f s) → (∀ m s, f (set_mem m s) = f s) →
  keeps f (RecordVideo own env fuel images fps).
Proof.
  intros Hv Hm.
  destruct (VideoRecorder_keeps f Hv) as (Hnew & Hset & Hopen & Happ & Hclose).
  assert (Hframe : ∀ img, keeps f (append_frame own env fuel img)).
  { intros img. unfold append_frame.
    repeat (apply keeps_bind; [by (apply keeps_lift || apply Happ)|intros ?]).
    apply Happ. }
  assert (Himages : ∀ imgs, keeps f (append_images own env fuel imgs)).
  { induction imgs as [|img imgs IH]; [apply keeps_ret|].
    cbn [append_images]. by apply keeps_bind. }
  unfold RecordVideo. destruct images as [|first rest]; [by intros s|].
  repeat (apply keeps_bind; [by (apply Hnew || apply Hset || apply Hopen
                                 || apply Himages || apply Hclose)|intros ?]).
  apply Hclose.
Qed.

Lemma capture_keeps {X : Type} (f : Sys → X) env count images :
  (∀ n s, f (set_grabbed n s) = f s) → (∀ m s, f (set_mem m s) = f s) →
  keeps f (capture env count images).
Proof.
  intros Hg Hm. revert images.
  induction count as [|count IH]; intros images; [apply keeps_ret|].
  cbn [capture]. apply keeps_bind.
  - intros s. unfold Device_GetImage. destruct (streaming s); [|done].
    by destruct (GetImage env (grabbed s)); simpl.
  - intros pImage. apply keeps_bind; [by apply keeps_lift|]. intros img. apply IH.
Qed.

(** A grab that times out ends the capture loop with an exception. *)
Lemma capture_timeout env (count j : nat) :
  ∀ images s,
    streaming s = true → (j < count)%nat → GetImage env (grabbed s + j) = None →
    ∃ e s', capture env count images s = (Throw e, s').
Proof.
  revert j. induction count as [|count IH]; intros j images s Hstream Hj Hnone; [lia|].
  cbn [capture]. rewrite M_bind_eq. unfold Device_GetImage. rewrite Hstream.
  destruct (GetImage env (grabbed s)) as [frame|] eqn:Hgrab; [|by eauto].
  destruct j as [|j]; [by rewrite Nat.add_0_r, Hgrab in Hnone|].
  rewrite M_bind_eq. unfold on_mem, lift.
  destruct (ImageFactory_Copy (mem (set_grabbed (S (grabbed s)) s)) frame) as [m img].
  apply (IH j); [done|lia|]. cbn. by rewrite <- Nat.add_succ_r.
Qed.

(** ** [main]: waiting for the enter key *)

Lemma clear_input_pending (input : list ascii) :
  ∀ (fuel k : nat),
    (k < fuel)%nat → input !! k = Some "010"%char →
    ∃ rest, clear_input fuel input = Ret rest.
Proof.
  induction input as [|c input IH]; intros fuel k Hk Hnl; [done|].
  destruct fuel as [|fuel]; [lia|]. cbn [clear_input].
  destruct (Ascii.eqb_spec c "010") as [->|Hc]; [by eexists|].
  destruct k as [|k]; [by injection Hnl|].
  apply (IH fuel k); [lia|done].
Qed.

Lemma clear_input_ended (fuel : nat) : clear_input fuel [] = OutOfFuel.
Proof. induction fuel as [|fuel IH]; [done|exact IH]. Qed.

(** Without a line end on the input the loop never ends. *)
Lemma clear_input_no_enter (input : list ascii) :
  "010"%char ∉ input → ∀ fuel, clear_input fuel input = OutOfFuel.
Proof.
  induction input as [|c input IH]; intros Hno fuel; [apply clear_input_ended|].
  destruct fuel as [|fuel]; [done|]. cbn [clear_input].
  apply not_elem_of_cons in Hno as [Hc Hno].
  destruct (Ascii.eqb_spec c "010") as [->|_]; [done|]. by apply IH.
Qed.

Lemma press_enter_pending (fuel : nat) (env : Env) (code : Z) :
  enter_pending fuel env → press_enter fuel (pending env) code = Ret code.
Proof.
  intros (k & Hk & Hnl). unfold press_enter.
  by destruct (clear_input_pending (pending env) fuel k Hk Hnl) as (rest & ->).
Qed.

Lemma press_enter_cases (fuel : nat) (input : list ascii) (code : Z) :
  press_enter fuel input code = Ret code ∨ press_enter fuel input code = OutOfFuel.
Proof.
  unfold press_enter. revert input.
  induction fuel as [|fuel IH]; intros input; [by right|].
  destruct input as [|c input]; cbn [clear_input]; [apply IH|].
  destruct (Ascii.eqb c "010"); [by left|apply IH].
Qed.

Lemma press_enter_failure (fuel : nat) (input : list ascii) (s s' : Sys) :
  (press_enter fuel input (-1), s) ≠ (Ret 0, s').
Proof. destruct (press_enter_cases fuel input (-1)) as [-> | ->]; by intros [=]. Qed.

Lemma press_enter_success (fuel : nat) (input : list ascii) (s s' : Sys) :
  (press_enter fuel input 0, s) = (Ret 0, s') → s' = s.
Proof. by intros [= _ <-]. Qed.

(** ** [main]: a failed grab *)

Lemma configure_device_keeps {X : Type} (f : Sys → X) (width height : Z) (fps : float) :
  (∀ nm s, f (set_device nm s) = f s) → (∀ nm s, f (set_tlstream nm s) = f s) →
  keeps f (configure_device width height fps).
Proof.
  intros Hd Ht. unfold configure_device.
  repeat (apply keeps_bind; [by apply keeps_lift|intros ?]). apply keeps_ret.
Qed.

(** A grab that times out ends the session with an exception before
    [RecordVideo] is reached, unless the device configuration has failed
    before. *)
Lemma session_timeout (own : Ownership) (env : Env) (fuel : nat) (s : Sys)
    (width height numImages : Z) (fps : float) (j : nat) :
  deviceInfos env ≠ 0%nat →
  Z.of_nat j < numImages →
  GetImage env (grabbed s + j) = None →
  ∃ r s', session own env fuel width height numImages fps s = (r, s')
          ∧ videos s' = videos s
          ∧ (∀ code, r ≠ Ret code)
          ∧ (positive_increments (device s) → ∃ e, r = Throw e).
Proof.
  intros Hdev Hj Hnone. unfold session.
  destruct (Nat.eqb_spec (deviceInfos env) 0) as [|_]; [done|].
  destruct (Z.eqb_spec numImages 0) as [|_]; [lia|].
  rewrite M_bind_eq.
  destruct (store_initial_settings_cases s) as [(e & ->)|(init & -> & _)];
    [by eauto 10|].
  rewrite M_bind_eq.
  pose proof (configure_device_keeps videos width height fps
                ltac:(done) ltac:(done) s) as Hvideos.
  pose proof (configure_device_keeps grabbed width height fps
                ltac:(done) ltac:(done) s) as Hgrabbed.
  pose proof (configure_device_cases width height fps s) as Hcases.
  destruct (configure_device width height fps s) as [[[[w h] f]|e| |] s1];
    cbn [snd] in Hvideos, Hgrabbed.
  2: { exists (Throw e), s1. by eauto 10. }
  2: { exists Fault, s1. split_and!; try done.
       intros Hinc. by destruct (Hcases Hinc) as [(? & ? & ? & _)|(? & ? & ? & ? & ? & _)]. }
  2: { exists OutOfFuel, s1. split_and!; try done.
       intros Hinc. by destruct (Hcases Hinc) as [(? & ? & ? & _)|(? & ? & ? & ? & ? & _)]. }
  rewrite M_bind_eq. cbn [Device_StartStream]. rewrite M_bind_eq.
  destruct (capture_timeout env (Z.to_nat numImages) j [] (set_streaming true s1))
    as (e & s2 & Hcap); [done|lia|by cbn; rewrite Hgrabbed|].
  pose proof (capture_keeps videos env (Z.to_nat numImages) []
                ltac:(done) ltac:(done) (set_streaming true s1)) as Hkeep.
  rewrite Hcap in *. cbn in Hkeep. exists (Throw e), s2.
  split_and!; [done|by rewrite Hkeep|done|by eauto].
Qed.

(** C8 - When a camera is connected and some grab before the last of the
    [numImages] frames times out, the session aborts: the recorders are
    exactly as before the run, so the recording phase was never entered, no
    video stream was opened and none of the four output files was
    finalized, and [main] does not return the success code.  When the
    integer nodes have a positive increment and the enter key is waiting on
    the standard input, [main] returns the failure code -1. *)
Theorem C8_capture_timeout_aborts
    (own : Ownership) (env : Env) (fuel : nat) (args : list string) (s : Sys)
    (width height numImages : Z) (fps : float) (j : nat) :
  parse_args env args WIDTH HEIGHT NUM_IMAGES FRAMES_PER_SECOND
    = Parsed width height numImages fps →
  deviceInfos env ≠ 0%nat →
  Z.of_nat j < numImages →
  GetImage env (grabbed s + j) = None →
  ∃ r s', main own env fuel args s = (r, s')
          ∧ videos s' = videos s
          ∧ r ≠ Ret 0
          ∧ (positive_increments (device s) → enter_pending fuel env → r = Ret (-1)).
Proof.
  intros Hparse Hdev Hj Hnone. unfold main. rewrite Hparse.
  assert (Hpress : ∀ s',
            videos s' = videos s →
            ∃ r s'', (press_enter fuel (pending env) (-1), s') = (r, s'')
                     ∧ videos s'' = videos s ∧ r ≠ Ret 0
                     ∧ (positive_increments (device s) → enter_pending fuel env
                        → r = Ret (-1))).
  { intros s' Hs'. exists (press_enter fuel (pending env) (-1)), s'.
    split_and!; [done|done| |].
    - by destruct (press_enter_cases fuel (pending env) (-1)) as [-> | ->].
    - intros _ Henter. by apply press_enter_pending. }
  destruct ((height =? 0) || (width =? 0)); [by exists (Ret (-1)), s|].
  destruct (negb (Ascii.eqb (continueExample env) "y")); [by apply Hpress|].
  destruct (session_timeout own env fuel s width height numImages fps j)
    as (r & s' & -> & Hvideos & Hnoret & Hthrow); [done..|].
  destruct r as [x|e| |].
  - by destruct (Hnoret x).
  - by apply Hpress.
  - exists Fault, s'. split_and!; try done. by intros (e & [=])%Hthrow.
  - exists OutOfFuel, s'. split_and!; try done. by intros (e & [=])%Hthrow.
Qed.

(** The second of two grabs times out: no recorder exists afterwards. *)
Lemma C8_capture_timeout_aborts_witness :
  ∃ s', main OwnsData (ex_env 1) 5 ["-n"; "2"; "-w"; "64"; "-h"; "64"] ex_sys
          = (Ret (-1), s')
        ∧ videos s' = videos ex_sys.
Proof.
  destruct (C8_capture_timeout_aborts OwnsData (ex_env 1) 5
              ["-n"; "2"; "-w"; "64"; "-h"; "64"]%string ex_sys 64 64 2
              FRAMES_PER_SECOND 1)
    as (r & s' & Hrun & Hvideos & _ & Hcode);
    [reflexivity|discriminate|reflexivity|reflexivity|].
  exists s'. rewrite Hrun, Hcode; [done| |].
  - split; vm_compute; reflexivity.
  - exists 0%nat. split; [lia|reflexivity].
Defined.

(** ** [main]: restoring the device *)

Lemma wrap_i64_small (z : Z) : - 2 ^ 63 ≤ z < 2 ^ 63 → wrap_i64 z = z.
Proof. intros. unfold wrap_i64. rewrite Z.mod_small by lia. lia. Qed.

(** Setting an integer node to the value it holds leaves it as it is. *)
Lemma snap_clamp_valid (v mn mx inc : Z) :
  int_setting_valid (Some (IntegerNode v mn mx inc)) → snap_clamp mn mx inc v = v.
Proof.
  intros (Hrange & Hinc & Hmod & Hlo & Hhi & Hdiff). unfold snap_clamp.
  rewrite (wrap_i64_small (v - mn)) by lia.
  rewrite Z.quot_div_nonneg by lia.
  pose proof (Z.div_mod (v - mn) inc ltac:(lia)) as Hdm. rewrite Hmod in Hdm.
  assert (0 ≤ (v - mn) / inc ≤ v - mn) as Hq.
  { split; [apply Z.div_pos; lia|]. apply Z.div_le_upper_bound; nia. }
  rewrite (wrap_i64_small ((v - mn) / inc)) by lia.
  replace ((v - mn) / inc * inc) with (v - mn) by lia.
  rewrite (wrap_i64_small (v - mn)) by lia.
  replace (v - mn + mn) with v by lia.
  rewrite (wrap_i64_small v) by lia.
  destruct (Z.ltb_spec v mn); [lia|]. rewrite Z.gtb_ltb.
  destruct (Z.ltb_spec mx v); [lia|done].
Qed.



Lemma restore_initial_settings_ret (init : Initial) (s s' : Sys) :
  restore_initial_settings init s = (Ret (), s') →
  device s' = restored (device s) init.
Proof.
  unfold restore_initial_settings, restored.
  rewrite M_bind_eq, on_device_SetIntValue.
  destruct (device s !! "Width") as [[w wmn wmx winc| | |]|] eqn:Hw; try by intros [=].
  destruct (div_traps _ winc); [by intros [=]|].
  destruct (IInteger_accepts wmn wmx winc _); [|by intros [=]].
  rewrite M_bind_eq, on_device_SetIntValue. cbn [device set_device].
  rewrite !lookup_insert_ne by done.
  destruct (device s !! "Height") as [[h hmn hmx hinc| | |]|] eqn:Hh; try by intros [=].
  destruct (div_traps _ hinc); [by intros [=]|].
  destruct (IInteger_accepts hmn hmx hinc _); [|by intros [=]].
  rewrite M_bind_eq, on_device_set_string. cbn [device set_device].
  rewrite !lookup_insert_ne by done.
  destruct (device s !! "AcquisitionMode") as [[| | |mode]|] eqn:Hmode; try by intros [=].
  rewrite M_bind_eq, on_device_set_bool. cbn [device set_device].
  rewrite !lookup_insert_ne by done.
  destruct (device s !! "AcquisitionFrameRateEnable") as [[| |enable|]|] eqn:Hen;
    try by intros [=].
  destruct (frameRateEnableInitial init).
  - rewrite M_bind_eq, on_device_SetFloatValue. cbn [device set_device].
    rewrite !lookup_insert_ne by done.
    destruct (device s !! "AcquisitionFrameRate") as [[|rate fmn fmx| |]|] eqn:Hfr;
      try by intros [=].
    by intros [= <-].
  - by intros [= <-].
Qed.






(** ** Appending one frame *)

Lemma on_mem_split_frame (junk_env : Env) (fuel : nat) (img : IImage) (raw : list Z)
    (s : Sys) :
  wf_frame (mem s) img raw →
  (Z.to_nat (GetWidth img * GetHeight img) ≤ fuel)%nat →
  on_mem (λ m, '(m, ch, _) ← split_frame OwnsData (junk junk_env) fuel m img; Ret (m, ch)) s
  = (Ret {| outputImage0 := channel_image img (length (mem s) + 1);
            outputImage45 := channel_image img (length (mem s) + 2);
            outputImage90 := channel_image img (length (mem s) + 3);
            outputImage135 := channel_image img (length (mem s) + 4) |},
     set_mem (mem s ++ [junk junk_env (length (mem s))
                          <$> seq 0 (Z.to_nat (GetWidth img * GetHeight img));
                        spec_channel 0 raw; spec_channel 1 raw;
                        spec_channel 2 raw; spec_channel 3 raw]) s).
Proof.
  intros Hwf Hfuel. unfold on_mem, lift.
  by rewrite (split_frame_wf _ _ _ raw).
Qed.

Lemma on_mem_convert (img : IImage) (blk : list Z) (s : Sys) :
  mem s !! GetData img = Some blk →
  Z.to_nat (GetSizeFilled img) = length blk →
  on_mem (λ m, ImageFactory_Convert_RGB8 m img) s
  = (Ret {| GetData := length (mem s); GetSizeFilled := 3 * GetSizeFilled img;
            GetWidth := GetWidth img; GetHeight := GetHeight img;
            GetPixelFormat := RGB8 |},
     set_mem (mem s ++ [mono8_to_rgb8 blk]) s).
Proof.
  intros Hblk Hsize. unfold on_mem, lift, ImageFactory_Convert_RGB8.
  rewrite Hblk, Hsize. destruct (Nat.leb_spec (length blk) (length blk)); [|lia].
  cbn [alloc]. by rewrite firstn_all.
Qed.

Lemma AppendImage_open (fileName : string) (params : VideoParams)
    (frames : list (list Z)) (pData : ptr) (blk : list Z) (s : Sys) :
  videos s !! fileName = Some (recorder params Open frames) →
  mem s !! pData = Some blk →
  VideoRecorder_AppendImage fileName pData s
  = (Ret (), set_videos (<[fileName := recorder params Open (frames ++ [blk])]> (videos s)) s).
Proof.
  intros Hrec Hblk. unfold VideoRecorder_AppendImage. by rewrite Hrec, Hblk.
Qed.

(** With four open streams, a frame of the data model is split and each
    stream receives the plane of its own angle. *)
Lemma append_frame_spec (env : Env) (fuel : nat) (img : IImage) (raw : list Z) (s : Sys)
    (params : VideoParams) (f0 f45 f90 f135 : list (list Z)) :
  wf_frame (mem s) img raw →
  (Z.to_nat (GetWidth img * GetHeight img) ≤ fuel)%nat →
  streams s params Open f0 f45 f90 f135 →
  ∃ s', append_frame OwnsData env fuel img s = (Ret (), s')
        ∧ streams s' params Open (f0 ++ [encoded 0 raw]) (f45 ++ [encoded 1 raw])
                                 (f90 ++ [encoded 2 raw]) (f135 ++ [encoded 3 raw])
        ∧ mem s `prefix_of` mem s'.
Proof.
  intros Hwf Hfuel (H0 & H45 & H90 & H135).
  pose proof (wf_out_size _ _ _ Hwf) as Hout.
  pose proof (wf_raw_length _ _ _ Hwf) as Hlen.
  assert (Hsize : ∀ off, Z.to_nat (out_size img) = length (spec_channel off raw)).
  { intros off. by rewrite (spec_channel_length off raw _ Hlen), Hout. }
  unfold FILE_NAME_0, FILE_NAME_45, FILE_NAME_90, FILE_NAME_135 in *.
  unfold append_frame.
  rewrite M_bind_eq, (on_mem_split_frame env fuel img raw) by done.
  cbn [outputImage0 outputImage45 outputImage90 outputImage135].
  set (m1 := mem s ++ _).
  assert (Hm1 : ∀ off blk,
            [spec_channel 0 raw; spec_channel 1 raw; spec_channel 2 raw;
             spec_channel 3 raw] !! off = Some blk →
            m1 !! (length (mem s) + S off)%nat = Some blk).
  { intros off blk Hoff. unfold m1.
    rewrite lookup_app_r by lia. by rewrite Nat.add_sub'. }
  assert (Hlen1 : length m1 = (length (mem s) + 5)%nat)
    by (unfold m1; by rewrite length_app).
  (* angle 0 *)
  rewrite M_bind_eq, (on_mem_convert _ (spec_channel 0 raw)); cycle 1.
  { apply (Hm1 0%nat). done. }
  { apply Hsize. }
  rewrite M_bind_eq, (AppendImage_open _ params f0 _ (mono8_to_rgb8 (spec_channel 0 raw)));
    [|done|by cbn; rewrite list_lookup_middle].
  (* angle 45 *)
  rewrite M_bind_eq, (on_mem_convert _ (spec_channel 1 raw)); cycle 1.
  { cbn. rewrite lookup_app_l by lia. by apply (Hm1 1%nat). }
  { apply Hsize. }
  rewrite M_bind_eq, (AppendImage_open _ params f45 _ (mono8_to_rgb8 (spec_channel 1 raw)));
    [|by cbn; rewrite lookup_insert_ne|by cbn; rewrite list_lookup_middle].
  (* angle 90 *)
  rewrite M_bind_eq, (on_mem_convert _ (spec_channel 2 raw)); cycle 1.
  { cbn. rewrite !lookup_app_l by (rewrite ?length_app; lia). by apply (Hm1 2%nat). }
  { apply Hsize. }
  rewrite M_bind_eq, (AppendImage_open _ params f90 _ (mono8_to_rgb8 (spec_channel 2 raw)));
    [|by cbn; rewrite !lookup_insert_ne|by cbn; rewrite list_lookup_middle].
  (* angle 135 *)
  rewrite M_bind_eq, (on_mem_convert _ (spec_channel 3 raw)); cycle 1.
  { cbn. rewrite !lookup_app_l by (rewrite ?length_app; lia). by apply (Hm1 3%nat). }
  { apply Hsize. }
  rewrite (AppendImage_open _ params f135 _ (mono8_to_rgb8 (spec_channel 3 raw)));
    [|by cbn; rewrite !lookup_insert_ne|by cbn; rewrite list_lookup_middle].
  eexists. split; [reflexivity|]. split.
  - unfold streams, encoded, FILE_NAME_0, FILE_NAME_45, FILE_NAME_90, FILE_NAME_135.
    cbn [videos mem set_videos set_mem].
    repeat split; by repeat (rewrite lookup_insert_eq || rewrite lookup_insert_ne by done).
  - cbn [videos mem set_videos set_mem]. unfold m1. rewrite <- !app_assoc. by eexists.
Qed.

(** ** Appending all frames *)

Lemma append_images_spec (env : Env) (fuel : nat) (params : VideoParams)
    (images : list IImage) :
  ∀ (raws : list (list Z)) (s : Sys) (f0 f45 f90 f135 : list (list Z)),
    Forall2 (wf_frame (mem s)) images raws →
    enough_fuel fuel images →
    streams s params Open f0 f45 f90 f135 →
    ∃ s', append_images OwnsData env fuel images s = (Ret (), s')
          ∧ streams s' params Open (f0 ++ (encoded 0 <$> raws)) (f45 ++ (encoded 1 <$> raws))
                                   (f90 ++ (encoded 2 <$> raws)) (f135 ++ (encoded 3 <$> raws))
          ∧ mem s `prefix_of` mem s'.
Proof.
  induction images as [|img images IH]; intros raws s f0 f45 f90 f135 Hwf Hfuel Hopen.
  - apply Forall2_nil_inv_l in Hwf as ->. exists s. cbn [fmap list_fmap].
    by rewrite !app_nil_r.
  - apply Forall2_cons_inv_l in Hwf as (raw & raws' & Hraw & Hrest & ->).
    apply Forall_cons in Hfuel as [Hfuel1 Hfuel].
    cbn [append_images]. rewrite M_bind_eq.
    destruct (append_frame_spec env fuel img raw s params f0 f45 f90 f135)
      as (s1 & -> & Hopen1 & Hpre1); [done..|].
    destruct (IH raws' s1 (f0 ++ [encoded 0 raw]) (f45 ++ [encoded 1 raw])
                (f90 ++ [encoded 2 raw]) (f135 ++ [encoded 3 raw]))
      as (s2 & -> & Hopen2 & Hpre2); [|done|exact Hopen1|].
    { eapply Forall2_impl; [exact Hrest|]. intros i r Hi. by eapply wf_frame_extend. }
    exists s2. split; [done|]. rewrite !fmap_cons, !cons_middle, !app_assoc.
    split; [done|by etrans].
Qed.

Lemma SetH264Mp4BGR8_new (fileName : string) (params : VideoParams) (s : Sys) :
  videos s !! fileName
    = Some {| vr_params := params; vr_h264_mp4_bgr8 := false;
              vr_state := Unopened; vr_frames := [] |} →
  VideoRecorder_SetH264Mp4BGR8 fileName s
  = (Ret (), set_videos (<[fileName := recorder params Unopened []]> (videos s)) s).
Proof. intros H. unfold VideoRecorder_SetH264Mp4BGR8. by rewrite H. Qed.

Lemma Open_unopened (env : Env) (fileName : string) (params : VideoParams) (s : Sys) :
  videos s !! fileName = Some (recorder params Unopened []) →
  can_open env fileName = true →
  VideoRecorder_Open env fileName s
  = (Ret (), set_videos (<[fileName := recorder params Open []]> (videos s)) s).
Proof. intros H Hopen. unfold VideoRecorder_Open. by rewrite H, Hopen. Qed.

Lemma Close_open (fileName : string) (params : VideoParams) (frames : list (list Z))
    (s : Sys) :
  videos s !! fileName = Some (recorder params Open frames) →
  VideoRecorder_Close fileName s
  = (Ret (), set_videos (<[fileName := recorder params Closed frames]> (videos s)) s).
Proof. intros H. unfold VideoRecorder_Close. by rewrite H. Qed.

(** [RecordVideo] on frames of the data model: every stream ends closed,
    holding the plane of its angle of every frame, in capture order. *)
Lemma RecordVideo_spec (env : Env) (fuel : nat) (first : IImage) (rest : list IImage)
    (raws : list (list Z)) (fps : float) (s : Sys) :
  Forall2 (wf_frame (mem s)) (first :: rest) raws →
  enough_fuel fuel (first :: rest) →
  can_open env FILE_NAME_0 = true → can_open env FILE_NAME_45 = true →
  can_open env FILE_NAME_90 = true → can_open env FILE_NAME_135 = true →
  ∃ s', RecordVideo OwnsData env fuel (first :: rest) fps s = (Ret (), s')
        ∧ streams s' {| vp_width := GetWidth first; vp_height := GetHeight first;
                        vp_fps := fps |} Closed
            (encoded 0 <$> raws) (encoded 1 <$> raws) (encoded 2 <$> raws) (encoded 3 <$> raws).
Proof.
  intros Hwf Hfuel Hc0 Hc45 Hc90 Hc135.
  unfold RecordVideo. set (params := {| vp_width := _ |}).
  unfold FILE_NAME_0, FILE_NAME_45, FILE_NAME_90, FILE_NAME_135 in *.
  do 4 (rewrite M_bind_eq; cbn [VideoRecorder_new]).
  rewrite M_bind_eq, (SetH264Mp4BGR8_new _ params) by video_lookup.
  rewrite M_bind_eq, (SetH264Mp4BGR8_new _ params) by video_lookup.
  rewrite M_bind_eq, (SetH264Mp4BGR8_new _ params) by video_lookup.
  rewrite M_bind_eq, (SetH264Mp4BGR8_new _ params) by video_lookup.
  rewrite M_bind_eq, (Open_unopened _ _ params) by (done || video_lookup).
  rewrite M_bind_eq, (Open_unopened _ _ params) by (done || video_lookup).
  rewrite M_bind_eq, (Open_unopened _ _ params) by (done || video_lookup).
  rewrite M_bind_eq, (Open_unopened _ _ params) by (done || video_lookup).
  rewrite M_bind_eq.
  match goal with
  | |- context [append_images _ _ _ _ ?s1] =>
      destruct (append_images_spec env fuel params (first :: rest) raws s1 [] [] [] [])
        as (s2 & -> & (H0 & H45 & H90 & H135) & _);
        [done|done|unfold streams, FILE_NAME_0, FILE_NAME_45, FILE_NAME_90, FILE_NAME_135;
                   repeat split; video_lookup|]
  end.
  unfold FILE_NAME_0, FILE_NAME_45, FILE_NAME_90, FILE_NAME_135 in *.
  rewrite !app_nil_l in *.
  rewrite M_bind_eq, (Close_open _ params (encoded 0 <$> raws)) by done.
  rewrite M_bind_eq, (Close_open _ params (encoded 1 <$> raws)) by video_lookup.
  rewrite M_bind_eq, (Close_open _ params (encoded 2 <$> raws)) by video_lookup.
  rewrite (Close_open _ params (encoded 3 <$> raws)) by video_lookup.
  eexists. split; [reflexivity|].
  unfold streams, FILE_NAME_0, FILE_NAME_45, FILE_NAME_90, FILE_NAME_135.
  repeat split; video_lookup.
Qed.

(** ** The recorder: frame alignment across the four streams *)

(** C4 - For every list of N >= 1 captured RawFrames, [RecordVideo] appends
    exactly N frames to each of the four video streams, and for every frame
    index [i] the four ChannelFrames derived from RawFrame [i] sit at
    position [i] of their respective streams, in capture order. *)
Theorem C4_streams_hold_all_frames_in_order
    (env : Env) (fuel : nat) (images : list IImage) (raws : list (list Z))
    (fps : float) (s : Sys) :
  images ≠ [] →
  Forall2 (wf_frame (mem s)) images raws →
  enough_fuel fuel images →
  can_open env FILE_NAME_0 = true → can_open env FILE_NAME_45 = true →
  can_open env FILE_NAME_90 = true → can_open env FILE_NAME_135 = true →
  ∃ s' r0 r45 r90 r135,
    RecordVideo OwnsData env fuel images fps s = (Ret (), s')
    ∧ videos s' !! FILE_NAME_0 = Some r0 ∧ videos s' !! FILE_NAME_45 = Some r45
    ∧ videos s' !! FILE_NAME_90 = Some r90 ∧ videos s' !! FILE_NAME_135 = Some r135
    ∧ length (vr_frames r0) = length images ∧ length (vr_frames r45) = length images
    ∧ length (vr_frames r90) = length images ∧ length (vr_frames r135) = length images
    ∧ ∀ (i : nat) (raw : list Z), raws !! i = Some raw →
        vr_frames r0 !! i = Some (mono8_to_rgb8 (spec_channel 0 raw))
        ∧ vr_frames r45 !! i = Some (mono8_to_rgb8 (spec_channel 1 raw))
        ∧ vr_frames r90 !! i = Some (mono8_to_rgb8 (spec_channel 2 raw))
        ∧ vr_frames r135 !! i = Some (mono8_to_rgb8 (spec_channel 3 raw)).
Proof.
  intros Hne Hwf Hfuel Hc0 Hc45 Hc90 Hc135.
  destruct images as [|first rest]; [done|].
  destruct (RecordVideo_spec env fuel first rest raws fps s)
    as (s' & Hrun & H0 & H45 & H90 & H135); [done..|].
  pose proof (Forall2_length _ _ _ Hwf) as Hlen.
  eexists s', _, _, _, _. split; [exact Hrun|].
  split; [exact H0|]. split; [exact H45|]. split; [exact H90|]. split; [exact H135|].
  cbn [vr_frames recorder]. rewrite !length_fmap.
  repeat (split; [by symmetry|]).
  intros i raw Hi. rewrite !list_lookup_fmap, Hi. by repeat split.
Qed.

(** The frame of the scenario, recorded alone. *)
Lemma C4_streams_hold_all_frames_in_order_witness :
  ∃ s' r0 r45 r90 r135,
    RecordVideo OwnsData (ex_env 1) 2 [ex_img] 10 ex_captured = (Ret (), s')
    ∧ videos s' !! FILE_NAME_0 = Some r0 ∧ videos s' !! FILE_NAME_45 = Some r45
    ∧ videos s' !! FILE_NAME_90 = Some r90 ∧ videos s' !! FILE_NAME_135 = Some r135
    ∧ length (vr_frames r0) = 1%nat ∧ length (vr_frames r45) = 1%nat
    ∧ length (vr_frames r90) = 1%nat ∧ length (vr_frames r135) = 1%nat
    ∧ ∀ (i : nat) (raw : list Z), [ex_raw] !! i = Some raw →
        vr_frames r0 !! i = Some (mono8_to_rgb8 (spec_channel 0 raw))
        ∧ vr_frames r45 !! i = Some (mono8_to_rgb8 (spec_channel 1 raw))
        ∧ vr_frames r90 !! i = Some (mono8_to_rgb8 (spec_channel 2 raw))
        ∧ vr_frames r135 !! i = Some (mono8_to_rgb8 (spec_channel 3 raw)).
Proof.
  apply (C4_streams_hold_all_frames_in_order (ex_env 1) 2 [ex_img] [ex_raw] 10 ex_captured).
  - discriminate.
  - constructor; [split; reflexivity|constructor].
  - constructor; [vm_compute; lia|constructor].
  - reflexivity.
  - reflexivity.
  - reflexivity.
  - reflexivity.
Defined.

(** ** The recorder: what each stream is handed *)

(** C3 (as amended) - The dummy buffer passed to the four
    [ImageFactory::Create] calls only supplies the initial contents of the
    four images: each image owns a data block of its own, different from the
    dummy buffer and from the other three.  At append time the four
    per-angle buffers are therefore four distinct buffers, and the stream of
    each angle is handed the samples of that angle, [RawFrame[4k + a]] at
    index [k], expanded to three bytes per pixel. *)
Theorem C3_each_stream_gets_its_own_plane
    (env : Env) (fuel : nat) (img : IImage) (raw : list Z) (s : Sys)
    (params : VideoParams) (f0 f45 f90 f135 : list (list Z)) :
  wf_frame (mem s) img raw →
  (Z.to_nat (GetWidth img * GetHeight img) ≤ fuel)%nat →
  streams s params Open f0 f45 f90 f135 →
  (∃ m' ch tr,
     split_frame OwnsData (junk env) fuel (mem s) img = Ret (m', ch, tr)
     ∧ NoDup [length (mem s); GetData (outputImage0 ch); GetData (outputImage45 ch);
              GetData (outputImage90 ch); GetData (outputImage135 ch)])
  ∧ ∃ s', append_frame OwnsData env fuel img s = (Ret (), s')
          ∧ streams s' params Open
              (f0 ++ [mono8_to_rgb8 (spec_channel 0 raw)])
              (f45 ++ [mono8_to_rgb8 (spec_channel 1 raw)])
              (f90 ++ [mono8_to_rgb8 (spec_channel 2 raw)])
              (f135 ++ [mono8_to_rgb8 (spec_channel 3 raw)]).
Proof.
  intros Hwf Hfuel Hopen. split.
  - do 3 eexists. split; [by apply split_frame_wf|].
    cbn [outputImage0 outputImage45 outputImage90 outputImage135 channel_image GetData].
    repeat (apply NoDup_cons; split; [set_unfold; lia|]). apply NoDup_nil_2.
  - destruct (append_frame_spec env fuel img raw s params f0 f45 f90 f135)
      as (s' & Hrun & Hstreams & _); [done..|].
    by exists s'.
Qed.

Lemma C3_each_stream_gets_its_own_plane_witness :
  (∃ m' ch tr,
     split_frame OwnsData (junk (ex_env 1)) 2 (mem ex_recording) ex_img = Ret (m', ch, tr)
     ∧ NoDup [length (mem ex_recording); GetData (outputImage0 ch);
              GetData (outputImage45 ch); GetData (outputImage90 ch);
              GetData (outputImage135 ch)])
  ∧ ∃ s', append_frame OwnsData (ex_env 1) 2 ex_img ex_recording = (Ret (), s')
          ∧ streams s' ex_params Open
              ([] ++ [mono8_to_rgb8 (spec_channel 0 ex_raw)])
              ([] ++ [mono8_to_rgb8 (spec_channel 1 ex_raw)])
              ([] ++ [mono8_to_rgb8 (spec_channel 2 ex_raw)])
              ([] ++ [mono8_to_rgb8 (spec_channel 3 ex_raw)]).
Proof.
  apply (C3_each_stream_gets_its_own_plane (ex_env 1) 2 ex_img ex_raw ex_recording
           ex_params [] [] [] []).
  - split; reflexivity.
  - vm_compute. lia.
  - repeat split; vm_compute; reflexivity.
Defined.

(** With a factory that copies, the stream of angle 0 receives [10,11] and
    the stream of angle 135 receives [40,41], each tripled: the four streams
    are not handed the same bytes. *)
Lemma C3_streams_differ : ¬ streams_receive_identical_frames OwnsData.
Proof.
  intros H.
  assert (Hr : (RecordVideo OwnsData (ex_env 1) 2 [ex_img] 10 ex_captured).1 = Ret ())
    by (vm_compute; reflexivity).
  assert (H0 : vr_frames <$> videos (RecordVideo OwnsData (ex_env 1) 2 [ex_img] 10
                                       ex_captured).2 !! FILE_NAME_0
               = Some [[10; 10; 10; 11; 11; 11]]) by (vm_compute; reflexivity).
  assert (H135 : vr_frames <$> videos (RecordVideo OwnsData (ex_env 1) 2 [ex_img] 10
                                         ex_captured).2 !! FILE_NAME_135
                 = Some [[40; 40; 40; 41; 41; 41]]) by (vm_compute; reflexivity).
  destruct (RecordVideo OwnsData (ex_env 1) 2 [ex_img] 10 ex_captured) as [r s'] eqn:Hrun.
  cbn [fst snd] in Hr, H0, H135. subst r.
  specialize (H (ex_env 1) 2%nat [ex_img] 10%float ex_captured s' Hrun
                FILE_NAME_0 FILE_NAME_135 ltac:(repeat constructor)
                ltac:(repeat constructor)).
  rewrite H0, H135 in H. discriminate H.
Qed.

(** ** The other reading of [ImageFactory::Create]

    Were the four images to keep the dummy buffer itself, the four output
    pointers would be one block, every store of a group would land on the
    same byte, and the last one - the 135-degree sample - would stay. *)

Lemma split_frame_shares (junk : ptr → nat → Z) (m : Mem) (img : IImage) (raw : list Z)
    (N fuel : nat) :
  frame_fits m img raw N → (N ≤ fuel)%nat →
  split_frame SharesData junk fuel m img
  = Ret (m ++ [plane (junk (length m)) raw N (Z.to_nat (out_size img)) 3],
         {| outputImage0 := channel_image img (length m);
            outputImage45 := channel_image img (length m);
            outputImage90 := channel_image img (length m);
            outputImage135 := channel_image img (length m) |},
         seq 0 N ≫= group_accesses (GetData img) (length m) (length m)
                      (length m) (length m) raw).
Proof.
  intros Hfits Hfuel. pose proof Hfits as [Hdata Hsize Hlast Heach Hraw Hout Hu32].
  pose proof (out_size_nonneg img) as Hpos.
  pose proof (lookup_lt_Some _ _ _ Hdata) as Hin.
  set (dummy := junk (length m) <$> seq 0 (Z.to_nat (out_size img))).
  assert (Hdl : length dummy = Z.to_nat (out_size img))
    by (unfold dummy; by rewrite length_fmap, length_seq).
  unfold split_frame, new_array, alloc. fold (out_size img). fold dummy.
  set (M1 := m ++ [dummy]).
  assert (HM1 : M1 !! length m = Some dummy) by (unfold M1; by rewrite list_lookup_middle).
  do 4 (rewrite (ImageFactory_Create_shares M1 (length m) dummy) by done; res_step).
  cbn [GetData]. unfold wrap_u64. rewrite Z.mod_small by lia.
  destruct (split_loop_spec (GetData img) (length m) (length m) (length m) (length m) raw N)
    with (buffer_size := GetSizeFilled img - 1) (cnt := N) (j := 0%nat)
         (m := M1) (tr := @nil access) (fuel := fuel)
    as (m' & Hrun & Hlen & Hblen & Hkeep & Hpeek);
    [lia|done|done|done|done|done|done| | |].
  { unfold M1. by rewrite lookup_app_l. }
  { intros o Ho. exists (Z.to_nat (out_size img)). split; [|lia].
    assert (o = length m) as ->.
    { repeat (apply elem_of_cons in Ho as [->|Ho]); try done. by apply elem_of_nil in Ho. }
    unfold blen. by rewrite HM1; simpl; rewrite Hdl. }
  change (4 * Z.of_nat 0%nat) with 0 in Hrun. change (Z.of_nat 0) with 0 in Hrun.
  rewrite Hrun. res_step. cbn [app]. f_equal. f_equal. clear Hrun. f_equal.
  apply list_eq. intros q.
  destruct (decide (q < length m)%nat) as [Hq|Hq].
  - rewrite Hkeep by (set_unfold; lia). unfold M1. by rewrite !lookup_app_l.
  - destruct (decide (q = length m)) as [->|Hne].
    + rewrite list_lookup_middle by done. apply mem_block_eq.
      * rewrite Hblen, plane_length. unfold blen. by rewrite HM1; simpl; rewrite Hdl.
      * intros k. rewrite Hpeek. erewrite plane_lookup by exact Hfits.
        assert (writer (length m) (length m) (length m) (length m) (length m) = Some 3%nat)
          as -> by (unfold writer; by rewrite decide_True).
        destruct (decide (k < N)%nat).
        -- rewrite !decide_True by lia. apply (raw_lookup raw N); [done|done|lia].
        -- rewrite !decide_False by lia. unfold peek. rewrite HM1. simpl.
           unfold dummy. rewrite list_lookup_fmap.
           case_decide; [by rewrite lookup_seq_lt|by rewrite lookup_seq_ge by lia].
    + rewrite (lookup_ge_None_2 (m ++ _)) by (rewrite length_app; simpl; lia).
      apply lookup_ge_None. rewrite Hlen. unfold M1. rewrite length_app. simpl. lia.
Qed.

(** The scenario under that reading: the four images are one block holding
    [40,41], and each of the four streams is handed [40,41] tripled. *)
Lemma shared_buffer_scenario :
  (∀ junk, split_frame SharesData junk 2 [ex_raw] ex_img
           = Ret ([ex_raw; [40; 41]],
                  {| outputImage0 := channel_image ex_img 1;
                     outputImage45 := channel_image ex_img 1;
                     outputImage90 := channel_image ex_img 1;
                     outputImage135 := channel_image ex_img 1 |},
                  seq 0 2 ≫= group_accesses 0 1 1 1 1 ex_raw))
  ∧ ∀ name, name ∈ [FILE_NAME_0; FILE_NAME_45; FILE_NAME_90; FILE_NAME_135] →
      vr_frames <$> videos (RecordVideo SharesData (ex_env 1) 2 [ex_img] 10 ex_captured).2
                      !! name
      = Some [[40; 40; 40; 41; 41; 41]].
Proof.
  split.
  - intros junk. by rewrite (split_frame_shares junk [ex_raw] ex_img ex_raw 2 2 ex_img_fits).
  - intros name Hname.
    repeat (apply elem_of_cons in Hname as [->|Hname]);
      try (by apply elem_of_nil in Hname); vm_compute; reflexivity.
Qed.

(** ** The argument loop *)

Lemma wrap_i64_range (z : Z) : - 2 ^ 63 ≤ wrap_i64 z < 2 ^ 63.
Proof.
  unfold wrap_i64. pose proof (Z.mod_pos_bound (z + 2 ^ 63) (2 ^ 64) ltac:(lia)). lia.
Qed.

Lemma wrap_u32_range (z : Z) : 0 ≤ wrap_u32 z < 2 ^ 32.
Proof. unfold wrap_u32. apply Z.mod_pos_bound. lia. Qed.

Lemma parse_args_in_range (env : Env) (n : nat) :
  ∀ (args : list string) (width height numImages : Z) (fps : float),
    (length args ≤ n)%nat →
    parse_in_range (Parsed width height numImages fps) →
    parse_in_range (parse_args env args width height numImages fps).
Proof.
  induction n as [|n IH]; intros args width height numImages fps Hlen Hin.
  - destruct args; [done|simpl in Hlen; lia].
  - destruct args as [|a [|v rest]]; [done| |].
    + cbn [parse_args]. destruct (String.eqb a "--help"); simpl; auto.
    + cbn [parse_args]. cbn [length] in Hlen.
      destruct Hin as (Hw & Hh & Hn & Hf).
      pose proof (wrap_i64_range (strtol env v)).
      pose proof (wrap_u32_range (strtol env v)).
      destruct (String.eqb a "-w").
      { apply IH; [lia|]. cbn [parse_in_range]. split_and!; try done; lia. }
      destruct (String.eqb a "-h").
      { apply IH; [lia|]. cbn [parse_in_range]. split_and!; try done; lia. }
      destruct (String.eqb a "-n").
      { apply IH; [lia|]. cbn [parse_in_range]. split_and!; try done; lia. }
      destruct (String.eqb a "-fps").
      { destruct (strtof env v <=? 0)%float eqn:Hfps; [simpl; auto|].
        apply IH; [lia|]. cbn [parse_in_range]. split_and!; try done; lia. }
      destruct (String.eqb a "--help"); simpl; auto.
Qed.

(** X1 - Whatever the arguments and whatever [strtol] and [strtof] return,
    the argument loop either hands on a width and a height within
    [int64_t], a frame count within [uint32_t] and a frame rate that is not
    [<= 0], or it ends the program with exit code 0 or -1. *)
Theorem X1_parse_args_in_range (env : Env) (args : list string) :
  parse_in_range (parse_args env args WIDTH HEIGHT NUM_IMAGES FRAMES_PER_SECOND).
Proof.
  apply (parse_args_in_range env (length args)); [done|].
  unfold WIDTH, HEIGHT, NUM_IMAGES, FRAMES_PER_SECOND. cbn [parse_in_range].
  split_and!; try done; lia.
Qed.

Lemma parse_args_snoc (env : Env) (a : string) (n : nat) :
  ∀ (args : list string) (width height numImages : Z) (fps : float)
    (width' height' numImages' : Z) (fps' : float),
    (length args ≤ n)%nat →
    parse_args env args width height numImages fps
      = Parsed width' height' numImages' fps' →
    parse_args env (args ++ [a]) width height numImages fps
      = ParseExit (if String.eqb a "--help" then 0 else -1).
Proof.
  induction n as [|n IH];
    intros args width height numImages fps width' height' numImages' fps' Hlen Hparse.
  - destruct args; [|simpl in Hlen; lia]. cbn. by destruct (String.eqb a "--help").
  - destruct args as [|a0 [|v rest]].
    + cbn. by destruct (String.eqb a "--help").
    + cbn in Hparse. by destruct (String.eqb a0 "--help").
    + cbn [app parse_args] in *. cbn [length] in Hlen.
      destruct (rest ++ [a]) as [|x l] eqn:Hrest; [by destruct rest|]. rewrite <- Hrest.
      destruct (String.eqb a0 "-w"); [eapply IH; [lia|done]|].
      destruct (String.eqb a0 "-h"); [eapply IH; [lia|done]|].
      destruct (String.eqb a0 "-n"); [eapply IH; [lia|done]|].
      destruct (String.eqb a0 "-fps").
      { destruct (strtof env v <=? 0)%float; [done|]. eapply IH; [lia|done]. }
      by destruct (String.eqb a0 "--help").
Qed.

(** X2 - An argument left alone at the end of the command line ends the
    program: with exit code 0 when it is [--help], with -1 otherwise.  In
    particular an option ([-w], [-h], [-n], [-fps]) given last, without its
    value, is rejected as an invalid argument. *)
Theorem X2_trailing_argument_rejected
    (env : Env) (args : list string) (a : string)
    (width height numImages : Z) (fps : float) :
  parse_args env args WIDTH HEIGHT NUM_IMAGES FRAMES_PER_SECOND
    = Parsed width height numImages fps →
  parse_args env (args ++ [a]) WIDTH HEIGHT NUM_IMAGES FRAMES_PER_SECOND
    = ParseExit (if String.eqb a "--help" then 0 else -1).
Proof. intros Hparse. by eapply (parse_args_snoc env a (length args)). Qed.

Lemma X2_trailing_argument_rejected_witness :
  parse_args (ex_env 1) (["-w"; "64"] ++ ["-h"]) WIDTH HEIGHT NUM_IMAGES FRAMES_PER_SECOND
  = ParseExit (-1).
Proof.
  apply (X2_trailing_argument_rejected (ex_env 1) ["-w"; "64"] "-h"
           64 HEIGHT NUM_IMAGES FRAMES_PER_SECOND)%string.
  reflexivity.
Defined.

(** ** [main]: leaving before the session *)

(** X3 - With arguments that parse to non-zero dimensions, [main] leaves
    without touching the device, the memory or the files: with exit code -1
    when the prompt is not answered with [y] and the enter key follows, and
    with exit code 0 when the answer is [y] but no camera is found or the
    number of images is 0. *)
Theorem X3_main_leaves_early
    (own : Ownership) (env : Env) (fuel : nat) (args : list string) (s : Sys)
    (width height numImages : Z) (fps : float) :
  parse_args env args WIDTH HEIGHT NUM_IMAGES FRAMES_PER_SECOND
    = Parsed width height numImages fps →
  width ≠ 0 → height ≠ 0 →
  (continueExample env ≠ "y"%char ∧ enter_pending fuel env)
  ∨ (continueExample env = "y"%char ∧ (deviceInfos env = 0%nat ∨ numImages = 0)) →
  main own env fuel args s
  = (Ret (if Ascii.eqb (continueExample env) "y" then 0 else -1), s).
Proof.
  intros Hparse Hw Hh Hearly. unfold main. rewrite Hparse.
  destruct (Z.eqb_spec height 0); [done|]. destruct (Z.eqb_spec width 0); [done|].
  cbn [orb]. destruct (Ascii.eqb_spec (continueExample env) "y") as [Hy|Hy].
  - cbn [negb]. unfold session.
    destruct Hearly as [[? _]|[_ [->| ->]]]; [done|done|].
    by destruct (deviceInfos env =? 0)%nat.
  - cbn [negb]. destruct Hearly as [[_ Henter]|[? _]]; [|done].
    by rewrite press_enter_pending.
Qed.

Lemma X3_main_leaves_early_witness :
  main OwnsData (ex_env 2) 5 ["-n"; "0"] ex_sys = (Ret 0, ex_sys).
Proof.
  apply (X3_main_leaves_early OwnsData (ex_env 2) 5 ["-n"; "0"] ex_sys
           WIDTH HEIGHT 0 FRAMES_PER_SECOND)%string.
  - reflexivity.
  - discriminate.
  - discriminate.
  - right. split; [reflexivity|]. right. reflexivity.
Defined.

(** X14 - When the prompt is not answered with [y] and no line end follows
    on the standard input, [main] does not return: "clear input" asks for
    the next character for ever.  No loop bound lets the model reach the
    [return -1] behind it; the device, the memory and the files are as
    before. *)
Theorem X14_no_enter_no_exit
    (own : Ownership) (env : Env) (fuel : nat) (args : list string) (s : Sys)
    (width height numImages : Z) (fps : float) :
  parse_args env args WIDTH HEIGHT NUM_IMAGES FRAMES_PER_SECOND
    = Parsed width height numImages fps →
  width ≠ 0 → height ≠ 0 →
  continueExample env ≠ "y"%char →
  "010"%char ∉ pending env →
  main own env fuel args s = (OutOfFuel, s).
Proof.
  intros Hparse Hw Hh Hy Hno. unfold main. rewrite Hparse.
  destruct (Z.eqb_spec height 0); [done|]. destruct (Z.eqb_spec width 0); [done|].
  cbn [orb]. destruct (Ascii.eqb_spec (continueExample env) "y"); [done|].
  cbn [negb]. unfold press_enter. by rewrite clear_input_no_enter.
Qed.

(** The answer [n], and then the end of the input. *)
Lemma X14_no_enter_no_exit_witness :
  main OwnsData ex_silent 1000 [] ex_sys = (OutOfFuel, ex_sys).
Proof.
  apply (X14_no_enter_no_exit OwnsData ex_silent 1000 [] ex_sys
           WIDTH HEIGHT NUM_IMAGES FRAMES_PER_SECOND).
  - reflexivity.
  - discriminate.
  - discriminate.
  - discriminate.
  - apply not_elem_of_nil.
Defined.

(** ** [SetIntValue] and [SetFloatValue]: the increment grid *)

Lemma snap_clamp_spec (mn mx inc value : Z) :
  0 < inc → mn ≤ mx → (mx - mn) mod inc = 0 →
  - 2 ^ 63 ≤ mn → mx < 2 ^ 63 →
  - 2 ^ 63 ≤ value < 2 ^ 63 → - 2 ^ 63 ≤ value - mn < 2 ^ 63 →
  mn ≤ snap_clamp mn mx inc value ≤ mx
  ∧ (snap_clamp mn mx inc value - mn) mod inc = 0
  ∧ (mn ≤ value ≤ mx →
     snap_clamp mn mx inc value ≤ value < snap_clamp mn mx inc value + inc).
Proof.
  intros Hinc Hle Hgrid Hlo Hhi Hval Hdiff. unfold snap_clamp.
  pose proof (Z.quot_rem' (value - mn) inc) as Hqr.
  assert (Hrem : (0 ≤ value - mn → 0 ≤ Z.rem (value - mn) inc < inc)
               ∧ (value - mn ≤ 0 → - inc < Z.rem (value - mn) inc ≤ 0)).
  { split; intros Hsign.
    - apply Z.rem_bound_pos; lia.
    - pose proof (Z.rem_bound_pos (- (value - mn)) inc ltac:(lia) ltac:(lia)) as Hb.
      rewrite Z.rem_opp_l' in Hb. lia. }
  set (q := (value - mn) ÷ inc) in *. set (r := Z.rem (value - mn) inc) in *.
  destruct Hrem as [Hpos Hneg].
  rewrite (wrap_i64_small (value - mn)) by lia. fold q.
  assert (Hq : - 2 ^ 63 ≤ q < 2 ^ 63 ∧ - 2 ^ 63 ≤ q * inc < 2 ^ 63
               ∧ - 2 ^ 63 ≤ q * inc + mn < 2 ^ 63).
  { destruct (Z.le_ge_cases 0 (value - mn)) as [Hs|Hs].
    - specialize (Hpos Hs). assert (0 ≤ q) by nia. assert (q ≤ q * inc) by nia. lia.
    - specialize (Hneg Hs). assert (q ≤ 0) by nia. assert (q * inc ≤ q) by nia. lia. }
  rewrite (wrap_i64_small q), (wrap_i64_small (q * inc)), (wrap_i64_small (q * inc + mn))
    by lia.
  assert (Hmod : (q * inc + mn - mn) mod inc = 0).
  { replace (q * inc + mn - mn) with (q * inc) by lia. apply Z_mod_mult. }
  rewrite Z.gtb_ltb.
  destruct (Z.ltb_spec (q * inc + mn) mn).
  - destruct (Z.ltb_spec mx mn); [lia|].
    replace (mn - mn) with 0 by lia. rewrite Z.mod_0_l by lia.
    split_and!; try lia; intros Hin; specialize (Hpos ltac:(lia)); nia.
  - destruct (Z.ltb_spec mx (q * inc + mn)).
    + split_and!; try done; try lia; intros Hin; specialize (Hpos ltac:(lia)); nia.
    + split_and!; try done; try lia; intros Hin; specialize (Hpos ltac:(lia)); nia.
Qed.

(** On such a node the division is defined and the node takes the value. *)
Lemma SetIntValue_on_grid (nm : INodeMap) (nodeName : string) (v0 mn mx inc value : Z) :
  nm !! nodeName = Some (IntegerNode v0 mn mx inc) →
  0 < inc → mn ≤ mx → (mx - mn) mod inc = 0 →
  - 2 ^ 63 ≤ mn → mx < 2 ^ 63 →
  - 2 ^ 63 ≤ value < 2 ^ 63 → - 2 ^ 63 ≤ value - mn < 2 ^ 63 →
  SetIntValue nm nodeName value
  = Ret (<[nodeName := IntegerNode (snap_clamp mn mx inc value) mn mx inc]> nm,
         snap_clamp mn mx inc value).
Proof.
  intros Hnode Hinc Hle Hgrid Hlo Hhi Hval Hdiff.
  rewrite (SetIntValue_eq _ _ v0 mn mx inc) by done.
  rewrite div_traps_positive by done.
  destruct (snap_clamp_spec mn mx inc value) as (Hin & Hon & _); try done.
  by rewrite (proj2 (IInteger_accepts_spec mn mx inc _)).
Qed.

(** X4 - For an integer node whose maximum lies on the increment grid
    (and as long as the [int64_t] arithmetic does not overflow),
    [SetIntValue] always sets a value on the grid, [min + n * inc], within
    [min, max]; a request that is already within [min, max] is rounded down
    to the grid, by less than one increment. *)
Theorem X4_SetIntValue_lands_on_grid
    (nm : INodeMap) (nodeName : string) (v0 mn mx inc value : Z) :
  nm !! nodeName = Some (IntegerNode v0 mn mx inc) →
  0 < inc → mn ≤ mx → (mx - mn) mod inc = 0 →
  - 2 ^ 63 ≤ mn → mx < 2 ^ 63 →
  - 2 ^ 63 ≤ value < 2 ^ 63 → - 2 ^ 63 ≤ value - mn < 2 ^ 63 →
  ∃ v, SetIntValue nm nodeName value
         = Ret (<[nodeName := IntegerNode v mn mx inc]> nm, v)
       ∧ mn ≤ v ≤ mx ∧ (v - mn) mod inc = 0
       ∧ (mn ≤ value ≤ mx → v ≤ value < v + inc).
Proof.
  intros Hnode Hinc Hle Hgrid Hlo Hhi Hval Hdiff.
  exists (snap_clamp mn mx inc value). split; [|by apply snap_clamp_spec].
  by apply (SetIntValue_on_grid nm nodeName v0).
Qed.

(** A width of 1001 on a node with range [8, 2448] and increment 8 is set
    to 1000. *)
Lemma X4_SetIntValue_lands_on_grid_witness :
  ∃ v, SetIntValue ex_device "Width" 1001
         = Ret (<["Width" := IntegerNode v 8 2448 8]> ex_device, v)
       ∧ 8 ≤ v ≤ 2448 ∧ (v - 8) mod 8 = 0
       ∧ (8 ≤ 1001 ≤ 2448 → v ≤ 1001 < v + 8).
Proof.
  apply (X4_SetIntValue_lands_on_grid ex_device "Width"%string 2448 8 2448 8 1001);
    (reflexivity || lia).
Defined.

Lemma clamp_float_idempotent (mn mx value : float) :
  (mn <=? mx)%float = true →
  clamp_float mn mx (clamp_float mn mx value) = clamp_float mn mx value.
Proof.
  intros Hle. unfold clamp_float.
  pose proof (float_leb_not_ltb _ _ Hle) as Hmxmn.
  pose proof (float_leb_not_ltb _ _ (float_leb_refl mn (float_leb_not_nan_l _ _ Hle))) as Hmn.
  pose proof (float_leb_not_ltb _ _ (float_leb_refl mx (float_leb_not_nan_r _ _ Hle))) as Hmx.
  destruct (value <? mn)%float eqn:Hlo.
  - by rewrite Hmxmn, Hmn, Hmxmn.
  - destruct (mx <? value)%float eqn:Hhi.
    + by rewrite Hmxmn, Hmx.
    + by rewrite Hlo, Hhi.
Qed.

(** X5 - Setting is idempotent: setting a node again to the value
    [SetIntValue] or [SetFloatValue] has just returned gives the same value
    back and leaves the node map as it is.  For an integer node this needs
    the maximum to lie on the increment grid (and arithmetic within
    [int64_t]); for a float node it needs [min <= max]. *)
Theorem X5_setting_is_idempotent :
  (∀ (nm : INodeMap) (nodeName : string) (v0 mn mx inc value : Z),
     nm !! nodeName = Some (IntegerNode v0 mn mx inc) →
     0 < inc → mn ≤ mx → (mx - mn) mod inc = 0 →
     - 2 ^ 63 ≤ mn → mx < 2 ^ 63 → mx - mn < 2 ^ 63 →
     - 2 ^ 63 ≤ value < 2 ^ 63 → - 2 ^ 63 ≤ value - mn < 2 ^ 63 →
     ∃ nm1 v, SetIntValue nm nodeName value = Ret (nm1, v)
              ∧ SetIntValue nm1 nodeName v = Ret (nm1, v))
  ∧
  (∀ (nm : INodeMap) (nodeName : string) (v0 mn mx value : float),
     nm !! nodeName = Some (FloatNode v0 mn mx) →
     (mn <=? mx)%float = true →
     ∃ nm1 v, SetFloatValue nm nodeName value = Ret (nm1, v)
              ∧ SetFloatValue nm1 nodeName v = Ret (nm1, v)).
Proof.
  split.
  - intros nm nodeName v0 mn mx inc value Hnode Hinc Hle Hgrid Hlo Hhi Hspan Hval Hdiff.
    destruct (snap_clamp_spec mn mx inc value) as (Hin & Hon & _); try done.
    exists (<[nodeName := IntegerNode (snap_clamp mn mx inc value) mn mx inc]> nm),
           (snap_clamp mn mx inc value).
    split; [by apply (SetIntValue_on_grid nm nodeName v0)|].
    rewrite (SetIntValue_on_grid _ nodeName (snap_clamp mn mx inc value) mn mx inc)
      by (done || lia || apply lookup_insert_eq).
    rewrite snap_clamp_valid by (cbn; lia). by rewrite insert_insert_eq.
  - intros nm nodeName v0 mn mx value Hnode Hle.
    exists (<[nodeName := FloatNode (clamp_float mn mx value) mn mx]> nm),
           (clamp_float mn mx value).
    assert (Hset : ∀ nm' w x, nm' !! nodeName = Some (FloatNode w mn mx) →
              SetFloatValue nm' nodeName x
              = Ret (<[nodeName := FloatNode (clamp_float mn mx x) mn mx]> nm',
                     clamp_float mn mx x)).
    { intros nm' w x Hnode'. unfold SetFloatValue, clamp_float. by rewrite Hnode'. }
    split; [by apply (Hset nm v0)|].
    rewrite (Hset _ (clamp_float mn mx value)) by apply lookup_insert_eq.
    by rewrite clamp_float_idempotent, insert_insert_eq.
Qed.

Lemma X5_setting_is_idempotent_witness :
  (∃ nm1 v, SetIntValue ex_device "Width" 1001 = Ret (nm1, v)
            ∧ SetIntValue nm1 "Width" v = Ret (nm1, v))
  ∧ (∃ nm1 v, SetFloatValue ex_device "AcquisitionFrameRate" 1000 = Ret (nm1, v)
              ∧ SetFloatValue nm1 "AcquisitionFrameRate" v = Ret (nm1, v)).
Proof.
  split.
  - apply (proj1 X5_setting_is_idempotent ex_device "Width"%string 2448 8 2448 8 1001);
      (reflexivity || lia).
  - apply (proj2 X5_setting_is_idempotent ex_device "AcquisitionFrameRate"%string
             30 1 100 1000)%float; reflexivity.
Defined.

(** ** The frame splitter: frames that are not full *)

Lemma writes_below (inp o0 o45 o90 o135 : ptr) (raw : list Z) (N : nat) (o : ptr) (k : Z) :
  k ∈ writes_to o (seq 0 N ≫= group_accesses inp o0 o45 o90 o135 raw) →
  0 ≤ k < Z.of_nat N.
Proof.
  unfold writes_to. rewrite list_elem_of_omap. intros (a & Ha & Hk).
  apply list_elem_of_bind in Ha as (j & Ha & Hj). apply elem_of_seq in Hj.
  unfold group_accesses in Ha.
  repeat (apply elem_of_cons in Ha as [->|Ha]); try (by apply elem_of_nil in Ha);
    try done; case_decide; try done; injection Hk as <-; lia.
Qed.

(** X6 - When the loop runs only [N] stride groups on a frame whose output
    buffers hold more than [N] bytes (a frame filled short), the entries
    from [N] on of each of the four ChannelFrames are never written: they
    keep whatever the array from [new uint8_t[...]] happened to hold, which
    nothing sets to zero. *)
Theorem X6_short_frame_tail_left_as_allocated
    (junk : ptr → nat → Z) (m : Mem) (img : IImage) (raw : list Z) (N fuel : nat) :
  frame_fits m img raw N → (N ≤ fuel)%nat →
  ∃ m' ch tr,
    split_frame OwnsData junk fuel m img = Ret (m', ch, tr)
    ∧ ∀ o, o ∈ [outputImage0 ch; outputImage45 ch; outputImage90 ch; outputImage135 ch] →
        ∀ k : nat, (N ≤ k)%nat → Z.of_nat k < out_size img →
          peek m' (GetData o) k = Some (junk (length m) k)
          ∧ Z.of_nat k ∉ writes_to (GetData o) tr.
Proof.
  intros Hfits Hfuel. do 3 eexists.
  split; [by apply (split_frame_owns junk m img raw N)|].
  cbn [outputImage0 outputImage45 outputImage90 outputImage135].
  intros o Ho k HN Hk.
  assert (∃ off, (off < 4)%nat ∧ o = channel_image img (length m + 1 + off))
    as (off & Hoff & ->).
  { repeat (apply elem_of_cons in Ho as [->|Ho]);
      [exists 0%nat|exists 1%nat|exists 2%nat|exists 3%nat|by apply elem_of_nil in Ho];
      (split; [lia|]); f_equal; lia. }
  cbn [channel_image GetData]. split.
  - unfold peek. rewrite lookup_app_r by lia.
    replace (length m + 1 + off - length m)%nat with (S off) by lia.
    transitivity (plane (junk (length m)) raw N (Z.to_nat (out_size img)) off !! k).
    { by destruct off as [|[|[|[|]]]]; try lia. }
    erewrite plane_lookup by exact Hfits.
    rewrite decide_False by lia. by rewrite decide_True by lia.
  - intros Hin%writes_below. lia.
Qed.

Lemma X6_short_frame_tail_left_as_allocated_witness :
  ∃ m' ch tr,
    split_frame OwnsData (λ _ _, 255) 1 [ex_raw] ex_half = Ret (m', ch, tr)
    ∧ ∀ o, o ∈ [outputImage0 ch; outputImage45 ch; outputImage90 ch; outputImage135 ch] →
        ∀ k : nat, (1 ≤ k)%nat → Z.of_nat k < out_size ex_half →
          peek m' (GetData o) k = Some 255
          ∧ Z.of_nat k ∉ writes_to (GetData o) tr.
Proof.
  apply (X6_short_frame_tail_left_as_allocated (λ _ _, 255) [ex_raw] ex_half ex_raw 1 1).
  - split; [reflexivity|cbn; lia|cbn; lia|intros k Hk; cbn; lia|cbn; lia
           |vm_compute; congruence|cbn; lia].
  - lia.
Defined.

(** ** The frame splitter: a counter that cannot reach the bound *)

Lemma split_loop_never_returns (inp o0 o45 o90 o135 : ptr) (buffer_size : Z) (fuel : nat) :
  2 ^ 32 ≤ buffer_size →
  ∀ (m : Mem) (tr : list access) (i bufferIndex : Z) (r : Mem * list access),
    0 ≤ i < 2 ^ 32 →
    split_loop fuel inp o0 o45 o90 o135 buffer_size m tr i bufferIndex ≠ Ret r.
Proof.
  intros Hsize. induction fuel as [|fuel IH]; intros m tr i bufferIndex r Hi.
  - cbn. by destruct (Z.ltb_spec i buffer_size); [|lia].
  - cbn [split_loop]. destruct (Z.ltb_spec i buffer_size); [|lia].
    destruct (split_step inp o0 o45 o90 o135 m i bufferIndex) as [[m1 ev]| | |];
      res_step; try done.
    apply IH, wrap_u32_range.
Qed.

(** X7 - [buffer_size] is [GetSizeFilled() - 1] in [size_t] and the loop
    counter is a [uint32_t].  For a frame whose filled size is 0 the
    subtraction wraps to 2^64 - 1, and for one of more than 2^32 bytes the
    bound is beyond the counter: in both cases the test [i < buffer_size]
    never fails, so the splitting loop has no normal exit - it goes on until
    an access leaves a buffer. *)
Theorem X7_no_exit_when_bound_exceeds_counter
    (own : Ownership) (junk : ptr → nat → Z) (fuel : nat) (m : Mem) (img : IImage)
    (r : Mem * Channels * list access) :
  GetSizeFilled img = 0 ∨ 2 ^ 32 < GetSizeFilled img < 2 ^ 64 →
  split_frame own junk fuel m img ≠ Ret r.
Proof.
  intros Hsize.
  assert (Hbound : 2 ^ 32 ≤ wrap_u64 (GetSizeFilled img - 1)).
  { unfold wrap_u64. destruct Hsize as [->|Hsize]; [done|].
    rewrite Z.mod_small; lia. }
  unfold split_frame.
  destruct (new_array _ _ _) as [m0 dummyBuffer].
  destruct (ImageFactory_Create own m0 _ _ _ _ _) as [[m1 i0]| | |]; res_step; try done.
  destruct (ImageFactory_Create own m1 _ _ _ _ _) as [[m2 i45]| | |]; res_step; try done.
  destruct (ImageFactory_Create own m2 _ _ _ _ _) as [[m3 i90]| | |]; res_step; try done.
  destruct (ImageFactory_Create own m3 _ _ _ _ _) as [[m4 i135]| | |]; res_step; try done.
  pose proof (split_loop_never_returns (GetData img) (GetData i0) (GetData i45)
                (GetData i90) (GetData i135) _ fuel Hbound m4 [] 0 0) as Hloop.
  destruct (split_loop _ _ _ _ _ _ _ _ _ _ _) as [[m5 tr]| | |]; res_step; try done.
  by destruct (Hloop (m5, tr)).
Qed.

(** An empty frame. *)
Lemma X7_no_exit_when_bound_exceeds_counter_witness :
  split_frame OwnsData (λ _ _, 0) 7 [[]]
    {| GetData := 0%nat; GetSizeFilled := 0; GetWidth := 0; GetHeight := 0;
       GetPixelFormat := PolarizedAngles_0d_45d_90d_135d_Mono8 |}
  ≠ Ret ([[]], {| outputImage0 := ex_img; outputImage45 := ex_img;
                  outputImage90 := ex_img; outputImage135 := ex_img |}, []).
Proof.
  apply (X7_no_exit_when_bound_exceeds_counter OwnsData (λ _ _, 0) 7 [[]]).
  left. reflexivity.
Defined.

(** ** The capture loop when every grab succeeds *)

Lemma capture_delivers (env : Env) (frames : list Frame) :
  ∀ (images : list IImage) (s : Sys),
    streaming s = true → delivers env (grabbed s) frames →
    capture env (length frames) images s
    = (Ret (images ++ copied (length (mem s)) frames),
       set_mem (mem s ++ (frame_bytes <$> frames))
         (set_grabbed (grabbed s + length frames) s)).
Proof.
  induction frames as [|f frames IH]; intros images s Hstream Hdel.
  - cbn. rewrite !app_nil_r, Nat.add_0_r. by destruct s.
  - cbn [length capture]. rewrite M_bind_eq. unfold Device_GetImage at 1.
    rewrite Hstream. pose proof (Hdel 0%nat f eq_refl) as H0.
    rewrite Nat.add_0_r in H0. rewrite H0.
    rewrite M_bind_eq. unfold on_mem, lift, ImageFactory_Copy, alloc. cbn [mem set_grabbed].
    rewrite IH; cycle 1.
    { done. }
    { intros i g Hi. cbn. rewrite <- Nat.add_succ_r. by apply Hdel. }
    cbn [mem set_mem grabbed set_grabbed copied fmap list_fmap].
    rewrite length_app. cbn [length]. rewrite Nat.add_1_r, <- !app_assoc. cbn [app].
    f_equal. destruct s. unfold set_mem, set_grabbed. cbn. f_equal. lia.
Qed.

Lemma copied_lookup (frames : list Frame) :
  ∀ (base i : nat),
    copied base frames !! i
    = (λ f, {| GetData := base + i; GetSizeFilled := frame_size f;
               GetWidth := frame_width f; GetHeight := frame_height f;
               GetPixelFormat := PolarizedAngles_0d_45d_90d_135d_Mono8 |})
        <$> frames !! i.
Proof.
  induction frames as [|f frames IH]; intros base i; [done|].
  destruct i as [|i]; cbn [copied].
  - cbn. by rewrite Nat.add_0_r.
  - rewrite !lookup_cons_ne_0, IH by done. cbn. by rewrite Nat.add_succ_r.
Qed.

Lemma copied_length (frames : list Frame) (base : nat) :
  length (copied base frames) = length frames.
Proof. revert base. induction frames as [|f frames IH]; intros base; cbn; by rewrite ?IH. Qed.

(** X8 - When the stream is running and the camera delivers a frame at
    every grab, the capture loop returns exactly as many images as it was
    asked for, in the order of the grabs; image [i] is a copy of frame [i]
    in a block of its own (same bytes, width, height and filled size), the
    blocks allocated before are untouched, and the device has been asked
    exactly that many times. *)
Theorem X8_capture_copies_every_frame
    (env : Env) (frames : list Frame) (s : Sys) :
  streaming s = true → delivers env (grabbed s) frames →
  ∃ images s',
    capture env (length frames) [] s = (Ret images, s')
    ∧ length images = length frames
    ∧ (∀ i f, frames !! i = Some f →
         ∃ img, images !! i = Some img
                ∧ mem s' !! GetData img = Some (frame_bytes f)
                ∧ GetWidth img = frame_width f ∧ GetHeight img = frame_height f
                ∧ GetSizeFilled img = frame_size f)
    ∧ NoDup (GetData <$> images)
    ∧ mem s `prefix_of` mem s'
    ∧ grabbed s' = (grabbed s + length frames)%nat.
Proof.
  intros Hstream Hdel. do 2 eexists.
  split; [by apply capture_delivers|]. cbn [app mem set_mem grabbed set_grabbed].
  split; [apply copied_length|]. split; [|split; [|split; [by eexists|done]]].
  - intros i f Hi. eexists. rewrite copied_lookup, Hi. split; [done|]. cbn.
    split; [|done].
    rewrite lookup_app_r by lia. rewrite Nat.add_sub', list_lookup_fmap. by rewrite Hi.
  - apply NoDup_alt. intros i j p. rewrite !list_lookup_fmap, !copied_lookup.
    destruct (frames !! i), (frames !! j); cbn; try done. intros [= <-] [= Hj]. lia.
Qed.

Lemma X8_capture_copies_every_frame_witness :
  ∃ images s',
    capture (ex_env 2) (length [ex_frame; ex_frame]) []
      (set_streaming true ex_sys) = (Ret images, s')
    ∧ length images = length [ex_frame; ex_frame]
    ∧ (∀ i f, [ex_frame; ex_frame] !! i = Some f →
         ∃ img, images !! i = Some img
                ∧ mem s' !! GetData img = Some (frame_bytes f)
                ∧ GetWidth img = frame_width f ∧ GetHeight img = frame_height f
                ∧ GetSizeFilled img = frame_size f)
    ∧ NoDup (GetData <$> images)
    ∧ mem (set_streaming true ex_sys) `prefix_of` mem s'
    ∧ grabbed s' = (grabbed (set_streaming true ex_sys) + length [ex_frame; ex_frame])%nat.
Proof.
  apply (X8_capture_copies_every_frame (ex_env 2) [ex_frame; ex_frame]
           (set_streaming true ex_sys)).
  - reflexivity.
  - intros [|[|i]] f Hi; try done; by injection Hi as <-.
Defined.

(** ** [RecordVideo]: a stream that cannot be opened *)

Lemma Open_refused (env : Env) (fileName : string) (params : VideoParams) (s : Sys) :
  videos s !! fileName = Some (recorder params Unopened []) →
  can_open env fileName = false →
  ∃ e, VideoRecorder_Open env fileName s = (Throw e, s).
Proof. intros H Hno. unfold VideoRecorder_Open. rewrite H, Hno. by eexists. Qed.

(** A refused [Open] ends [RecordVideo] before the first frame. *)
Lemma RecordVideo_open_refused
    (own : Ownership) (env : Env) (fuel : nat) (images : list IImage) (fps : float)
    (s : Sys) :
  images ≠ [] →
  can_open env FILE_NAME_0 = false ∨ can_open env FILE_NAME_45 = false
  ∨ can_open env FILE_NAME_90 = false ∨ can_open env FILE_NAME_135 = false →
  ∃ e s',
    RecordVideo own env fuel images fps s = (Throw e, s')
    ∧ mem s' = mem s
    ∧ ∀ name, name ∈ [FILE_NAME_0; FILE_NAME_45; FILE_NAME_90; FILE_NAME_135] →
        ∃ r, videos s' !! name = Some r ∧ vr_frames r = [] ∧ vr_state r ≠ Closed.
Proof.
  intros Hne Hfail. destruct images as [|first rest]; [done|].
  unfold RecordVideo. set (params := {| vp_width := _ |}).
  unfold FILE_NAME_0, FILE_NAME_45, FILE_NAME_90, FILE_NAME_135 in *.
  do 4 (rewrite M_bind_eq; cbn [VideoRecorder_new]). sys_norm.
  rewrite M_bind_eq, (SetH264Mp4BGR8_new _ params) by video_lookup. sys_norm.
  rewrite M_bind_eq, (SetH264Mp4BGR8_new _ params) by video_lookup. sys_norm.
  rewrite M_bind_eq, (SetH264Mp4BGR8_new _ params) by video_lookup. sys_norm.
  rewrite M_bind_eq, (SetH264Mp4BGR8_new _ params) by video_lookup. sys_norm.
  rewrite M_bind_eq.
  destruct (can_open env "video_0.mp4") eqn:H0; [|open_fails Open_refused params].
  rewrite (Open_unopened _ _ params) by (done || video_lookup). sys_norm.
  rewrite M_bind_eq.
  destruct (can_open env "video_45.mp4") eqn:H45; [|open_fails Open_refused params].
  rewrite (Open_unopened _ _ params) by (done || video_lookup). sys_norm.
  rewrite M_bind_eq.
  destruct (can_open env "video_90.mp4") eqn:H90; [|open_fails Open_refused params].
  rewrite (Open_unopened _ _ params) by (done || video_lookup). sys_norm.
  rewrite M_bind_eq.
  destruct (can_open env "video_135.mp4") eqn:H135; [|open_fails Open_refused params].
  by destruct Hfail as [?|[?|[?|?]]].
Qed.

(** X9 - [RecordVideo] opens the four streams, in the order 0, 45, 90, 135,
    before it touches any frame.  If one of them cannot be opened the call
    ends with the exception of that [Open]: no frame has been split (the
    memory is as before), no stream holds a frame, and none of the four
    [Close] calls at the end of the function is reached. *)
Theorem X9_open_failure_before_any_frame
    (own : Ownership) (env : Env) (fuel : nat) (images : list IImage) (fps : float)
    (s : Sys) :
  images ≠ [] →
  can_open env FILE_NAME_0 = false ∨ can_open env FILE_NAME_45 = false
  ∨ can_open env FILE_NAME_90 = false ∨ can_open env FILE_NAME_135 = false →
  ∃ e s',
    RecordVideo own env fuel images fps s = (Throw e, s')
    ∧ mem s' = mem s
    ∧ ∀ name, name ∈ [FILE_NAME_0; FILE_NAME_45; FILE_NAME_90; FILE_NAME_135] →
        ∃ r, videos s' !! name = Some r ∧ vr_frames r = [] ∧ vr_state r ≠ Closed.
Proof. apply RecordVideo_open_refused. Qed.

(** The 90-degree file cannot be created: the 0 and 45-degree streams
    have been opened, and all four are empty. *)
Lemma X9_open_failure_before_any_frame_witness :
  ∃ e s',
    RecordVideo OwnsData ex_locked 2 [ex_img] 10 ex_captured = (Throw e, s')
    ∧ mem s' = mem ex_captured
    ∧ ∀ name, name ∈ [FILE_NAME_0; FILE_NAME_45; FILE_NAME_90; FILE_NAME_135] →
        ∃ r, videos s' !! name = Some r ∧ vr_frames r = [] ∧ vr_state r ≠ Closed.
Proof.
  apply (X9_open_failure_before_any_frame OwnsData ex_locked 2 [ex_img] 10 ex_captured).
  - discriminate.
  - right. right. left. reflexivity.
Defined.

(** ** The session on a device that has every node *)

Lemma store_initial_settings_ready (s : Sys) :
  device_ready (device s) → ∃ init, store_initial_settings s = (Ret init, s).
Proof.
  intros ((mode & Hmode) & _ & (en & Hen) & (fv & fmn & fmx & Hfr) & Rw & Rh).
  destruct (device s !! "Width") as [[wv wmn wmx winc| | |]|] eqn:Hw; try done.
  destruct (device s !! "Height") as [[hv hmn hmx hinc| | |]|] eqn:Hh; try done.
  unfold store_initial_settings.
  rewrite M_bind_eq, on_device_get_string, Hmode.
  rewrite M_bind_eq, on_device_get_bool, Hen.
  destruct en.
  - rewrite M_bind_eq, on_device_get_double, Hfr.
    rewrite M_bind_eq, on_device_get_int64, Hw.
    rewrite M_bind_eq, on_device_get_int64, Hh. by eexists.
  - rewrite M_bind_eq. cbn [mret M_mret].
    rewrite M_bind_eq, on_device_get_int64, Hw.
    rewrite M_bind_eq, on_device_get_int64, Hh. by eexists.
Qed.

(** What [configure_device] has done when it returns: the node maps it
    leaves, and the values the device settled on. *)
Lemma configure_device_ret (width height : Z) (fps : float) (s s' : Sys)
    (w h : Z) (f : float) :
  configure_device width height fps s = (Ret (w, h, f), s') →
  same_session s s'
  ∧ device s' = configured (device s) width height fps
  ∧ tlstream s' = negotiated (tlstream s)
  ∧ ∃ wv wmn wmx winc hv hmn hmx hinc fv fmn fmx,
      device s !! "Width" = Some (IntegerNode wv wmn wmx winc)
      ∧ device s !! "Height" = Some (IntegerNode hv hmn hmx hinc)
      ∧ device s !! "AcquisitionFrameRate" = Some (FloatNode fv fmn fmx)
      ∧ f = clamp_float fmn fmx fps.
Proof.
  unfold configure_device, negotiated, configured.
  rewrite M_bind_eq, on_device_set_string.
  destruct (device s !! "AcquisitionMode") as [[| | |mode]|] eqn:Hmode; try by intros [=].
  rewrite M_bind_eq, on_device_set_string. cbn [device set_device].
  rewrite lookup_insert_ne by done.
  destruct (device s !! "PixelFormat") as [[| | |pf]|] eqn:Hpf; try by intros [=].
  rewrite M_bind_eq, on_device_SetIntValue. cbn [device set_device].
  rewrite !lookup_insert_ne by done.
  destruct (device s !! "Width") as [[wv wmn wmx winc| | |]|] eqn:Hw; try by intros [=].
  destruct (div_traps _ winc); [by intros [=]|].
  destruct (IInteger_accepts wmn wmx winc _); [|by intros [=]].
  rewrite M_bind_eq, on_device_SetIntValue. cbn [device set_device].
  rewrite !lookup_insert_ne by done.
  destruct (device s !! "Height") as [[hv hmn hmx hinc| | |]|] eqn:Hh; try by intros [=].
  destruct (div_traps _ hinc); [by intros [=]|].
  destruct (IInteger_accepts hmn hmx hinc _); [|by intros [=]].
  rewrite M_bind_eq, on_device_set_bool. cbn [device set_device].
  rewrite !lookup_insert_ne by done.
  destruct (device s !! "AcquisitionFrameRateEnable") as [[| |enable|]|] eqn:Hen;
    try by intros [=].
  rewrite M_bind_eq, on_device_SetFloatValue. cbn [device set_device].
  rewrite !lookup_insert_ne by done.
  destruct (device s !! "AcquisitionFrameRate") as [[|rate fmn fmx| |]|] eqn:Hfr;
    try by intros [=].
  rewrite M_bind_eq, on_tlstream_set_bool. cbn [tlstream set_device].
  destruct (tlstream s !! "StreamAutoNegotiatePacketSize") as [[| |neg|]|] eqn:Hneg;
    try by intros [=].
  rewrite M_bind_eq, on_tlstream_set_bool. cbn [tlstream set_tlstream].
  rewrite !lookup_insert_ne by done.
  destruct (tlstream s !! "StreamPacketResendEnable") as [[| |resend|]|] eqn:Hres;
    try discriminate.
  intros Hrun.
  pose proof (f_equal snd Hrun) as Hs'. cbn [snd] in Hs'. subst s'.
  pose proof (f_equal (λ r : res (Z * Z * float) * Sys,
                match r.1 with Ret (_, _, x) => x | _ => fps end) Hrun) as Hf.
  change (clamp_float fmn fmx fps = f) in Hf. subst f.
  split; [by repeat split|]. split; [reflexivity|]. split; [reflexivity|].
  by exists wv, wmn, wmx, winc, hv, hmn, hmx, hinc, rate, fmn, fmx.
Qed.

(** A well-formed node takes what [SetIntValue] settles on for a request
    that fits. *)
Lemma int_node_ready_accepts (v mn mx inc value : Z) :
  int_node_ready (Some (IntegerNode v mn mx inc)) → request_fits value →
  div_traps (wrap_i64 (value - mn)) inc = false
  ∧ IInteger_accepts mn mx inc (snap_clamp mn mx inc value) = true
  ∧ mn ≤ snap_clamp mn mx inc value ≤ mx.
Proof.
  intros (Hinc & Hv & Hgrid & Hlo & Hhi) Hfits. unfold request_fits in Hfits.
  destruct (snap_clamp_spec mn mx inc value) as (Hin & Hon & _); try lia.
  split; [by apply div_traps_positive|]. split; [|done].
  by apply IInteger_accepts_spec.
Qed.

Lemma int_node_ready_fits (v mn mx inc : Z) :
  int_node_ready (Some (IntegerNode v mn mx inc)) → request_fits v.
Proof. intros (Hinc & Hv & Hgrid & Hlo & Hhi). unfold request_fits. lia. Qed.

Lemma configure_device_ready (width height : Z) (fps : float) (s : Sys) :
  device_ready (device s) → stream_ready (tlstream s) →
  request_fits width → request_fits height →
  ∃ w h f s', configure_device width height fps s = (Ret (w, h, f), s').
Proof.
  intros ((mode & Hmode) & (pf & Hpf) & (en & Hen) & (fv & fmn & fmx & Hfr) & Rw & Rh)
         ((neg & Hneg) & (resend & Hres)) Fw Fh.
  destruct (device s !! "Width") as [[wv wmn wmx winc| | |]|] eqn:Hw; try done.
  destruct (device s !! "Height") as [[hv hmn hmx hinc| | |]|] eqn:Hh; try done.
  destruct (int_node_ready_accepts _ _ _ _ width Rw Fw) as (Tw & Aw & _).
  destruct (int_node_ready_accepts _ _ _ _ height Rh Fh) as (Th & Ah & _).
  unfold configure_device.
  rewrite M_bind_eq, on_device_set_string, Hmode.
  rewrite M_bind_eq, on_device_set_string. cbn [device set_device].
  rewrite lookup_insert_ne, Hpf by done.
  rewrite M_bind_eq, on_device_SetIntValue. cbn [device set_device].
  rewrite !lookup_insert_ne, Hw, Tw, Aw by done.
  rewrite M_bind_eq, on_device_SetIntValue. cbn [device set_device].
  rewrite !lookup_insert_ne, Hh, Th, Ah by done.
  rewrite M_bind_eq, on_device_set_bool. cbn [device set_device].
  rewrite !lookup_insert_ne, Hen by done.
  rewrite M_bind_eq, on_device_SetFloatValue. cbn [device set_device].
  rewrite !lookup_insert_ne, Hfr by done.
  rewrite M_bind_eq, on_tlstream_set_bool. cbn [tlstream set_device]. rewrite Hneg.
  rewrite M_bind_eq, on_tlstream_set_bool. cbn [tlstream set_tlstream].
  rewrite !lookup_insert_ne, Hres by done.
  by do 4 eexists.
Qed.

Lemma device_ready_positive (nm : INodeMap) : device_ready nm → positive_increments nm.
Proof.
  intros (_ & _ & _ & _ & Rw & Rh). unfold positive_increments.
  destruct (nm !! "Width") as [[wv wmn wmx winc| | |]|]; try done.
  destruct (nm !! "Height") as [[hv hmn hmx hinc| | |]|]; try done.
  split; [apply Rw|apply Rh].
Qed.

Lemma device_ready_configured (nm : INodeMap) (width height : Z) (fps : float) :
  device_ready nm → request_fits width → request_fits height →
  device_ready (configured nm width height fps).
Proof.
  intros ((mode & Hmode) & (pf & Hpf) & (en & Hen) & (fv & fmn & fmx & Hfr) & Rw & Rh)
         Fw Fh.
  unfold configured.
  destruct (nm !! "Width") as [[wv wmn wmx winc| | |]|] eqn:Hw; try done.
  destruct (nm !! "Height") as [[hv hmn hmx hinc| | |]|] eqn:Hh; try done.
  rewrite Hfr.
  destruct (int_node_ready_accepts _ _ _ _ width Rw Fw) as (_ & _ & Iw).
  destruct (int_node_ready_accepts _ _ _ _ height Rh Fh) as (_ & _ & Ih).
  unfold device_ready.
  repeat (rewrite lookup_insert_eq || rewrite lookup_insert_ne by done).
  rewrite ?Hpf. split_and!; eauto.
  - unfold int_node_ready in *. destruct Rw as (? & ? & ? & ? & ?).
    split_and!; (done || lia).
  - unfold int_node_ready in *. destruct Rh as (? & ? & ? & ? & ?).
    split_and!; (done || lia).
Qed.

Lemma restore_initial_settings_ready (init : Initial) (s : Sys) :
  device_ready (device s) →
  request_fits (imageWidthInitial init) → request_fits (imageHeightInitial init) →
  restore_initial_settings init s = (Ret (), set_device (restored (device s) init) s).
Proof.
  intros ((mode & Hmode) & _ & (en & Hen) & (fv & fmn & fmx & Hfr) & Rw & Rh) Fw Fh.
  destruct (device s !! "Width") as [[wv wmn wmx winc| | |]|] eqn:Hw; try done.
  destruct (device s !! "Height") as [[hv hmn hmx hinc| | |]|] eqn:Hh; try done.
  destruct (int_node_ready_accepts _ _ _ _ (imageWidthInitial init) Rw Fw) as (Tw & Aw & _).
  destruct (int_node_ready_accepts _ _ _ _ (imageHeightInitial init) Rh Fh)
    as (Th & Ah & _).
  unfold restore_initial_settings, restored. rewrite Hw, Hh, Hfr.
  rewrite M_bind_eq, on_device_SetIntValue, Hw, Tw, Aw.
  rewrite M_bind_eq, on_device_SetIntValue. cbn [device set_device].
  rewrite !lookup_insert_ne, Hh, Th, Ah by done.
  rewrite M_bind_eq, on_device_set_string. cbn [device set_device].
  rewrite !lookup_insert_ne, Hmode by done.
  rewrite M_bind_eq, on_device_set_bool. cbn [device set_device].
  rewrite !lookup_insert_ne, Hen by done.
  destruct (frameRateEnableInitial init).
  - rewrite M_bind_eq, on_device_SetFloatValue. cbn [device set_device].
    rewrite !lookup_insert_ne, Hfr by done. by destruct s.
  - by destruct s.
Qed.

Lemma restore_initial_settings_keeps {X : Type} (f : Sys → X) (init : Initial) :
  (∀ nm s, f (set_device nm s) = f s) → keeps f (restore_initial_settings init).
Proof.
  intros Hset. unfold restore_initial_settings.
  repeat (apply keeps_bind; [by apply keeps_lift|intros ?]).
  destruct (frameRateEnableInitial init); [|apply keeps_ret].
  apply keeps_bind; [by apply keeps_lift|intros ?]. apply keeps_ret.
Qed.

Lemma copied_wf (m : Mem) (frames : list Frame) :
  ∀ base,
    Forall frame_ok frames →
    (∀ i f, frames !! i = Some f → m !! (base + i)%nat = Some (frame_bytes f)) →
    Forall2 (wf_frame m) (copied base frames) (frame_bytes <$> frames).
Proof.
  induction frames as [|f frames IH]; intros base Hok Hm; cbn [copied fmap list_fmap];
    constructor.
  - apply Forall_cons in Hok as [(Hw & Hh & Hsize & Hlen & Hu32) _].
    split; cbn; try done.
    rewrite <- (Nat.add_0_r base). by apply Hm.
  - apply Forall_cons in Hok as [_ Hok]. apply IH; [done|].
    intros i g Hi. rewrite Nat.add_succ_comm. by apply Hm.
Qed.

Lemma copied_fuel (fuel : nat) (frames : list Frame) :
  ∀ base,
    Forall (λ f, (Z.to_nat (frame_width f * frame_height f) ≤ fuel)%nat) frames →
    enough_fuel fuel (copied base frames).
Proof.
  induction frames as [|f frames IH]; intros base Hfuel; cbn [copied]; constructor.
  - by apply Forall_cons in Hfuel as [? _].
  - apply IH. by apply Forall_cons in Hfuel as [_ ?].
Qed.

Lemma ex_sys_ready : device_ready (device ex_sys) ∧ stream_ready (tlstream ex_sys).
Proof.
  split.
  - unfold device_ready. split_and!.
    1-4: repeat eexists; reflexivity.
    all: vm_compute; split_and!; (reflexivity || congruence).
  - split; eexists; reflexivity.
Qed.

(** ** [main]: what a failed grab leaves behind *)

(** X10 - When the device has every node the session uses, the requests
    fit, the enter key is waiting on the standard input and a grab times
    out, [main] returns -1 from its catch clause with the acquisition still
    running and the device as [configure_device] left it: the requested
    width, height and frame rate (as accepted by the nodes), continuous mode,
    the four-angle pixel format, and both stream settings switched on.
    Neither [StopStream] nor the restoring code is reached. *)
Theorem X10_timeout_leaves_stream_running
    (own : Ownership) (env : Env) (fuel : nat) (args : list string) (s : Sys)
    (width height numImages : Z) (fps : float) (j : nat) :
  parse_args env args WIDTH HEIGHT NUM_IMAGES FRAMES_PER_SECOND
    = Parsed width height numImages fps →
  width ≠ 0 → height ≠ 0 →
  request_fits width → request_fits height →
  continueExample env = "y"%char → enter_pending fuel env →
  deviceInfos env ≠ 0%nat →
  device_ready (device s) → stream_ready (tlstream s) →
  Z.of_nat j < numImages →
  GetImage env (grabbed s + j) = None →
  ∃ s', main own env fuel args s = (Ret (-1), s')
        ∧ streaming s' = true
        ∧ device s' = configured (device s) width height fps
        ∧ tlstream s' = negotiated (tlstream s).
Proof.
  intros Hparse Hwidth Hheight Fw Fh Hcont Henter Hdev Hready Hstream Hj Hnone.
  unfold main. rewrite Hparse, Hcont.
  destruct (Z.eqb_spec height 0) as [|_]; [done|].
  destruct (Z.eqb_spec width 0) as [|_]; [done|].
  cbn [orb negb Ascii.eqb Bool.eqb andb].
  unfold session.
  destruct (Nat.eqb_spec (deviceInfos env) 0) as [|_]; [done|].
  destruct (Z.eqb_spec numImages 0) as [|_]; [lia|].
  rewrite M_bind_eq.
  destruct (store_initial_settings_ready s Hready) as (init & ->).
  rewrite M_bind_eq.
  destruct (configure_device_ready width height fps s Hready Hstream Fw Fh)
    as (w & h & f & s1 & Hconf).
  rewrite Hconf.
  destruct (configure_device_ret _ _ _ _ _ _ _ _ Hconf)
    as ((_ & _ & Hgrabbed & _) & Hdev1 & Htl1 & _).
  rewrite M_bind_eq. cbn [Device_StartStream]. rewrite M_bind_eq.
  destruct (capture_timeout env (Z.to_nat numImages) j [] (set_streaming true s1))
    as (e & s2 & Hcap); [done|lia|by cbn; rewrite Hgrabbed|].
  pose proof (capture_keeps streaming env (Z.to_nat numImages) []
                ltac:(done) ltac:(done) (set_streaming true s1)) as Hk1.
  pose proof (capture_keeps device env (Z.to_nat numImages) []
                ltac:(done) ltac:(done) (set_streaming true s1)) as Hk2.
  pose proof (capture_keeps tlstream env (Z.to_nat numImages) []
                ltac:(done) ltac:(done) (set_streaming true s1)) as Hk3.
  rewrite Hcap in *. cbn in Hk1, Hk2, Hk3. exists s2.
  rewrite press_enter_pending by done.
  split; [done|]. split; [done|]. split; congruence.
Qed.

Lemma ex_env_enter (good : nat) : enter_pending 5 (ex_env good).
Proof. exists 0%nat. split; [lia|reflexivity]. Qed.

(** The second of two grabs times out. *)
Lemma X10_timeout_leaves_stream_running_witness :
  ∃ s', main OwnsData (ex_env 1) 5 ["-n"; "2"; "-w"; "64"; "-h"; "64"] ex_sys
          = (Ret (-1), s')
        ∧ streaming s' = true
        ∧ device s' = configured (device ex_sys) 64 64 FRAMES_PER_SECOND
        ∧ tlstream s' = negotiated (tlstream ex_sys).
Proof.
  apply (X10_timeout_leaves_stream_running OwnsData (ex_env 1) 5
           ["-n"; "2"; "-w"; "64"; "-h"; "64"] ex_sys 64 64 2 FRAMES_PER_SECOND 1)%string.
  - reflexivity.
  - lia.
  - lia.
  - unfold request_fits. lia.
  - unfold request_fits. lia.
  - reflexivity.
  - apply ex_env_enter.
  - cbn. lia.
  - apply ex_sys_ready.
  - apply ex_sys_ready.
  - lia.
  - reflexivity.
Defined.

(** ** [main]: a complete run *)

(** X11 - A complete run, end to end.  When the arguments parse to
    requests that fit, the user confirms and the enter key is waiting on the
    standard input, the device has every node the session uses, the camera
    delivers a well-formed frame at each of the [numImages] grabs and the
    four files can be created, [main] returns 0 with the four streams
    closed; stream [a] holds, in capture order, the plane of angle [a] of
    every delivered frame as three bytes per pixel.  The video dimensions
    are those of the first delivered frame, and the frame rate of the files
    is the one the device settled on, not the one requested. *)
Theorem X11_complete_run_records_every_frame
    (env : Env) (fuel : nat) (args : list string) (s : Sys)
    (width height numImages : Z) (fps fv fmn fmx : float)
    (first : Frame) (rest : list Frame) :
  parse_args env args WIDTH HEIGHT NUM_IMAGES FRAMES_PER_SECOND
    = Parsed width height numImages fps →
  width ≠ 0 → height ≠ 0 →
  request_fits width → request_fits height →
  continueExample env = "y"%char → enter_pending fuel env →
  deviceInfos env ≠ 0%nat →
  device_ready (device s) → stream_ready (tlstream s) →
  device s !! "AcquisitionFrameRate" = Some (FloatNode fv fmn fmx) →
  numImages = Z.of_nat (length (first :: rest)) →
  delivers env (grabbed s) (first :: rest) →
  Forall frame_ok (first :: rest) →
  Forall (λ f, (Z.to_nat (frame_width f * frame_height f) ≤ fuel)%nat) (first :: rest) →
  can_open env FILE_NAME_0 = true → can_open env FILE_NAME_45 = true →
  can_open env FILE_NAME_90 = true → can_open env FILE_NAME_135 = true →
  ∃ s', main OwnsData env fuel args s = (Ret 0, s')
        ∧ streams s' {| vp_width := frame_width first; vp_height := frame_height first;
                        vp_fps := clamp_float fmn fmx fps |} Closed
            (encoded 0 <$> (frame_bytes <$> first :: rest))
            (encoded 1 <$> (frame_bytes <$> first :: rest))
            (encoded 2 <$> (frame_bytes <$> first :: rest))
            (encoded 3 <$> (frame_bytes <$> first :: rest))
        ∧ streaming s' = false
        ∧ grabbed s' = (grabbed s + length (first :: rest))%nat.
Proof.
  intros Hparse Hwidth Hheight Fw Fh Hcont Henter Hdev Hready Hstream Hrate Hn Hdel Hok
         Hfuel Hc0 Hc45 Hc90 Hc135.
  unfold main. rewrite Hparse, Hcont.
  destruct (Z.eqb_spec height 0) as [|_]; [done|].
  destruct (Z.eqb_spec width 0) as [|_]; [done|].
  cbn [orb negb Ascii.eqb Bool.eqb andb].
  unfold session.
  destruct (Nat.eqb_spec (deviceInfos env) 0) as [|_]; [done|].
  destruct (Z.eqb_spec numImages 0) as [Hzero|_]; [by rewrite Hn in Hzero|].
  rewrite M_bind_eq.
  destruct (store_initial_settings_cases s)
    as [(e & Hstore)|(init & -> & _ & _ & _ & Hw0 & Hh0)].
  { destruct (store_initial_settings_ready s Hready) as (init & Hinit). congruence. }
  assert (Finit : request_fits (imageWidthInitial init)
                  ∧ request_fits (imageHeightInitial init)).
  { destruct Hready as (_ & _ & _ & _ & Rw & Rh).
    destruct Hw0 as (wmn & wmx & winc & Hw0). destruct Hh0 as (hmn & hmx & hinc & Hh0).
    rewrite Hw0 in Rw. rewrite Hh0 in Rh.
    split; by eapply int_node_ready_fits. }
  rewrite M_bind_eq.
  destruct (configure_device_ready width height fps s Hready Hstream Fw Fh)
    as (w & h & f & s1 & Hconf).
  rewrite Hconf.
  destruct (configure_device_ret _ _ _ _ _ _ _ _ Hconf)
    as ((_ & Hmem1 & Hgrabbed1 & _) & Hdev1 & _
        & (? & ? & ? & ? & ? & ? & ? & ? & ? & fmn' & fmx' & _ & _ & Hrate' & ->)).
  rewrite Hrate in Hrate'. injection Hrate' as _ <- <-.
  rewrite M_bind_eq. cbn [Device_StartStream]. rewrite M_bind_eq.
  rewrite Hn, Nat2Z.id.
  rewrite capture_delivers by (by cbn; rewrite ?Hgrabbed1).
  cbn [app]. rewrite M_bind_eq. cbn [Device_StopStream]. rewrite M_bind_eq.
  sys_norm. cbn [copied].
  match goal with
  | |- context [RecordVideo _ _ _ (?img :: ?imgs) ?f ?s2] =>
      destruct (RecordVideo_spec env fuel img imgs (frame_bytes <$> first :: rest) f s2)
        as (s3 & Hrec & Hstreams); [| |done..|];
      [| |pose proof (RecordVideo_keeps device OwnsData env fuel (img :: imgs) f
                        ltac:(done) ltac:(done) s2) as Hk1;
          pose proof (RecordVideo_keeps streaming OwnsData env fuel (img :: imgs) f
                        ltac:(done) ltac:(done) s2) as Hk2;
          pose proof (RecordVideo_keeps grabbed OwnsData env fuel (img :: imgs) f
                        ltac:(done) ltac:(done) s2) as Hk3]
  end.
  { apply (copied_wf _ (first :: rest) (length (mem s1))); [done|].
    intros i g Hi. sys_norm. rewrite lookup_app_r by lia.
    rewrite Nat.add_sub', list_lookup_fmap. by rewrite Hi. }
  { by apply (copied_fuel fuel (first :: rest)). }
  rewrite Hrec in *. cbn [fst snd] in Hk1, Hk2, Hk3. sys_norm_in Hk1. sys_norm_in Hk2.
  sys_norm_in Hk3.
  rewrite M_bind_eq, restore_initial_settings_ready; [|..|apply Finit|apply Finit];
    cycle 1.
  { rewrite Hk1, Hdev1. by apply device_ready_configured. }
  cbn [mret M_mret]. rewrite press_enter_pending by done.
  eexists. split; [reflexivity|].
  split; [exact Hstreams|]. sys_norm. split; [done|]. by rewrite Hk3, Hgrabbed1.
Qed.

(** Two frames, asked for with [-n 2 -w 64 -h 64], on the example camera. *)
Lemma X11_complete_run_records_every_frame_witness :
  ∃ s', main OwnsData (ex_env 2) 5 ["-n"; "2"; "-w"; "64"; "-h"; "64"] ex_sys = (Ret 0, s')
        ∧ streams s' {| vp_width := 2; vp_height := 1;
                        vp_fps := clamp_float 1 100 FRAMES_PER_SECOND |} Closed
            (encoded 0 <$> [ex_raw; ex_raw]) (encoded 1 <$> [ex_raw; ex_raw])
            (encoded 2 <$> [ex_raw; ex_raw]) (encoded 3 <$> [ex_raw; ex_raw])
        ∧ streaming s' = false
        ∧ grabbed s' = 2%nat.
Proof.
  apply (X11_complete_run_records_every_frame (ex_env 2) 5
           ["-n"; "2"; "-w"; "64"; "-h"; "64"]%string ex_sys 64 64 2 FRAMES_PER_SECOND
           30%float 1%float 100%float ex_frame [ex_frame]).
  - reflexivity.
  - lia.
  - lia.
  - unfold request_fits. lia.
  - unfold request_fits. lia.
  - reflexivity.
  - apply ex_env_enter.
  - cbn. lia.
  - apply ex_sys_ready.
  - apply ex_sys_ready.
  - reflexivity.
  - reflexivity.
  - intros [|[|i]] f Hf; [by injection Hf as <-..|done].
  - repeat constructor; cbn; lia.
  - repeat constructor; cbn; lia.
  - reflexivity.
  - reflexivity.
  - reflexivity.
  - reflexivity.
Defined.

(** ** [main]: what the restoring code does not put back *)

Lemma restored_lookup_ne (nm : INodeMap) (init : Initial) (k : string) :
  k ≠ "Width"%string → k ≠ "Height"%string → k ≠ "AcquisitionMode"%string →
  k ≠ "AcquisitionFrameRateEnable"%string → k ≠ "AcquisitionFrameRate"%string →
  restored nm init !! k = nm !! k.
Proof.
  intros Hw Hh Hmode Hen Hfr. unfold restored.
  destruct (nm !! "Width") as [[| | |]|]; try done.
  destruct (nm !! "Height") as [[| | |]|]; try done.
  destruct (frameRateEnableInitial init).
  - destruct (nm !! "AcquisitionFrameRate") as [[| | |]|];
      by rewrite ?lookup_insert_ne by done.
  - by rewrite !lookup_insert_ne by done.
Qed.

Lemma restored_frame_rate_off (nm : INodeMap) (init : Initial) :
  frameRateEnableInitial init = false →
  restored nm init !! "AcquisitionFrameRate" = nm !! "AcquisitionFrameRate".
Proof.
  intros Hoff. unfold restored. rewrite Hoff.
  destruct (nm !! "Width") as [[| | |]|]; try done.
  destruct (nm !! "Height") as [[| | |]|]; try done.
  by rewrite !lookup_insert_ne by done.
Qed.

(** X12 - What a complete run does not undo.  When [main] has gone through
    the whole session and returns 0, the pixel format is still the
    four-angle format the session selected, both stream settings are still
    switched on, and the acquisition is stopped; and if frame-rate control
    was off before the run, the frame-rate node keeps the rate the session
    set, since the restoring code writes it back only when control was on. *)
Theorem X12_complete_run_keeps_pixel_format
    (own : Ownership) (env : Env) (fuel : nat) (args : list string) (s s' : Sys)
    (width height numImages : Z) (fps : float) :
  parse_args env args WIDTH HEIGHT NUM_IMAGES FRAMES_PER_SECOND
    = Parsed width height numImages fps →
  numImages ≠ 0 → deviceInfos env ≠ 0%nat →
  main own env fuel args s = (Ret 0, s') →
  device s' !! "PixelFormat" = Some (StringNode "PolarizedAngles_0d_45d_90d_135d_Mono8")
  ∧ tlstream s' = negotiated (tlstream s)
  ∧ streaming s' = false
  ∧ (device s !! "AcquisitionFrameRateEnable" = Some (BooleanNode false) →
     ∀ v mn mx, device s !! "AcquisitionFrameRate" = Some (FloatNode v mn mx) →
       device s' !! "AcquisitionFrameRate"
       = Some (FloatNode (clamp_float mn mx fps) mn mx)).
Proof.
  intros Hparse Hn Hdev. unfold main. rewrite Hparse.
  destruct ((height =? 0) || (width =? 0)); [by intros [=]|].
  destruct (negb (Ascii.eqb (continueExample env) "y"));
    [by intros ?%press_enter_failure|].
  unfold session.
  destruct (Nat.eqb_spec (deviceInfos env) 0) as [|_]; [done|].
  destruct (Z.eqb_spec numImages 0) as [|_]; [done|].
  rewrite M_bind_eq.
  destruct (store_initial_settings_cases s)
    as [(e & ->)|(init & -> & _ & Hen & _)]; [by intros ?%press_enter_failure|].
  rewrite M_bind_eq.
  destruct (configure_device width height fps s) as [[[[w h] f]|e| |] s1] eqn:Hconf;
    try (by intros [=]); try (by intros ?%press_enter_failure).
  destruct (configure_device_ret _ _ _ _ _ _ _ _ Hconf)
    as (_ & Hdev1 & Htl1
        & (wv & wmn & wmx & winc & hv & hmn & hmx & hinc & fv & fmn & fmx
           & Hw & Hh & Hfr & _)).
  rewrite M_bind_eq. cbn [Device_StartStream]. rewrite M_bind_eq.
  pose proof (capture_keeps device env (Z.to_nat numImages) []
                ltac:(done) ltac:(done) (set_streaming true s1)) as Hd2.
  pose proof (capture_keeps tlstream env (Z.to_nat numImages) []
                ltac:(done) ltac:(done) (set_streaming true s1)) as Ht2.
  destruct (capture env (Z.to_nat numImages) [] (set_streaming true s1))
    as [[images|e| |] s2];
    try (by intros [=]); try (by intros ?%press_enter_failure).
  cbn in Hd2, Ht2. rewrite M_bind_eq. cbn [Device_StopStream]. rewrite M_bind_eq.
  pose proof (RecordVideo_keeps device own env fuel images f
                ltac:(done) ltac:(done) (set_streaming false s2)) as Hd3.
  pose proof (RecordVideo_keeps tlstream own env fuel images f
                ltac:(done) ltac:(done) (set_streaming false s2)) as Ht3.
  pose proof (RecordVideo_keeps streaming own env fuel images f
                ltac:(done) ltac:(done) (set_streaming false s2)) as Hs3.
  destruct (RecordVideo own env fuel images f (set_streaming false s2))
    as [[[]|e| |] s3];
    try (by intros [=]); try (by intros ?%press_enter_failure).
  cbn in Hd3, Ht3, Hs3. rewrite M_bind_eq.
  pose proof (restore_initial_settings_keeps tlstream init ltac:(done) s3) as Ht4.
  pose proof (restore_initial_settings_keeps streaming init ltac:(done) s3) as Hs4.
  destruct (restore_initial_settings init s3) as [[[]|e| |] s4] eqn:Hrestore;
    try (by intros [=]); try (by intros ?%press_enter_failure).
  cbn in Ht4, Hs4. intros ->%press_enter_success.
  rewrite (restore_initial_settings_ret init s3 s4 Hrestore), Hd3, Hd2, Hdev1.
  split; [|split; [congruence|split; [congruence|]]].
  - rewrite restored_lookup_ne by done. unfold configured. rewrite Hw, Hh, Hfr.
    by repeat (rewrite lookup_insert_eq || rewrite lookup_insert_ne by done).
  - intros Hoff v mn mx Hnode. rewrite Hen in Hoff. injection Hoff as Hoff.
    rewrite restored_frame_rate_off by done. unfold configured. rewrite Hw, Hh, Hfr.
    rewrite lookup_insert_eq. congruence.
Qed.

(** The example camera with frame-rate control switched off. *)
Lemma X12_complete_run_keeps_pixel_format_witness :
  ∃ s', main OwnsData (ex_env 2) 5 ["-n"; "2"; "-w"; "64"; "-h"; "64"] ex_sys_free
          = (Ret 0, s')
        ∧ device s' !! "PixelFormat"
          = Some (StringNode "PolarizedAngles_0d_45d_90d_135d_Mono8")
        ∧ tlstream s' = negotiated (tlstream ex_sys_free)
        ∧ streaming s' = false
        ∧ (device ex_sys_free !! "AcquisitionFrameRateEnable" = Some (BooleanNode false) →
           ∀ v mn mx,
             device ex_sys_free !! "AcquisitionFrameRate" = Some (FloatNode v mn mx) →
             device s' !! "AcquisitionFrameRate"
             = Some (FloatNode (clamp_float mn mx FRAMES_PER_SECOND) mn mx)).
Proof.
  eexists. split; [vm_compute; reflexivity|].
  apply (X12_complete_run_keeps_pixel_format OwnsData (ex_env 2) 5
           ["-n"; "2"; "-w"; "64"; "-h"; "64"]%string ex_sys_free _ 64 64 2
           FRAMES_PER_SECOND).
  - reflexivity.
  - lia.
  - cbn. lia.
  - vm_compute. reflexivity.
Defined.

(** ** [main]: every run ends with an exit code *)

(** From grab [g] on, either one of the next [count] grabs times out or
    there are [count] frames to deliver. *)
Lemma delivered_or_timeout (env : Env) (count : nat) :
  ∀ g, (∃ j, (j < count)%nat ∧ GetImage env (g + j) = None)
       ∨ (∃ frames, length frames = count ∧ delivers env g frames).
Proof.
  induction count as [|count IH]; intros g.
  - right. exists []. split; [done|]. by intros i f Hi.
  - destruct (GetImage env g) as [f|] eqn:Hg.
    + destruct (IH (S g)) as [(j & Hj & Hnone)|(frames & Hlen & Hdel)].
      * left. exists (S j). split; [lia|]. by rewrite Nat.add_succ_r.
      * right. exists (f :: frames). split; [by cbn; rewrite Hlen|].
        intros [|i] f' Hi.
        -- injection Hi as <-. by rewrite Nat.add_0_r.
        -- rewrite Nat.add_succ_r. by apply Hdel.
    + left. exists 0%nat. split; [lia|]. by rewrite Nat.add_0_r.
Qed.

Lemma RecordVideo_cases (env : Env) (fuel : nat) (first : IImage) (rest : list IImage)
    (raws : list (list Z)) (fps : float) (s : Sys) :
  Forall2 (wf_frame (mem s)) (first :: rest) raws →
  enough_fuel fuel (first :: rest) →
  (∃ e s', RecordVideo OwnsData env fuel (first :: rest) fps s = (Throw e, s'))
  ∨ (∃ s', RecordVideo OwnsData env fuel (first :: rest) fps s = (Ret (), s')).
Proof.
  intros Hwf Hfuel.
  destruct (can_open env FILE_NAME_0) eqn:H0; cycle 1.
  { left. destruct (RecordVideo_open_refused OwnsData env fuel (first :: rest) fps s)
      as (e & s' & Hrun & _); [done|by left|]. by exists e, s'. }
  destruct (can_open env FILE_NAME_45) eqn:H45; cycle 1.
  { left. destruct (RecordVideo_open_refused OwnsData env fuel (first :: rest) fps s)
      as (e & s' & Hrun & _); [done|by right; left|]. by exists e, s'. }
  destruct (can_open env FILE_NAME_90) eqn:H90; cycle 1.
  { left. destruct (RecordVideo_open_refused OwnsData env fuel (first :: rest) fps s)
      as (e & s' & Hrun & _); [done|by right; right; left|]. by exists e, s'. }
  destruct (can_open env FILE_NAME_135) eqn:H135; cycle 1.
  { left. destruct (RecordVideo_open_refused OwnsData env fuel (first :: rest) fps s)
      as (e & s' & Hrun & _); [done|by right; right; right|]. by exists e, s'. }
  right. destruct (RecordVideo_spec env fuel first rest raws fps s)
    as (s' & Hrun & _); [done..|]. by exists s'.
Qed.

Lemma restore_initial_settings_cases (init : Initial) (s : Sys) :
  positive_increments (device s) →
  (∃ e s', restore_initial_settings init s = (Throw e, s'))
  ∨ (∃ s', restore_initial_settings init s = (Ret (), s')).
Proof.
  intros [Hwinc Hhinc]. unfold restore_initial_settings.
  rewrite M_bind_eq, on_device_SetIntValue.
  destruct (device s !! "Width") as [[w wmn wmx winc| | |]|] eqn:Hw;
    try (left; by do 2 eexists).
  rewrite (div_traps_positive _ winc) by done.
  destruct (IInteger_accepts wmn wmx winc _); [|left; by do 2 eexists].
  rewrite M_bind_eq, on_device_SetIntValue. cbn [device set_device].
  rewrite !lookup_insert_ne by done.
  destruct (device s !! "Height") as [[h hmn hmx hinc| | |]|] eqn:Hh;
    try (left; by do 2 eexists).
  rewrite (div_traps_positive _ hinc) by done.
  destruct (IInteger_accepts hmn hmx hinc _); [|left; by do 2 eexists].
  rewrite M_bind_eq, on_device_set_string. cbn [device set_device].
  rewrite !lookup_insert_ne by done.
  destruct (device s !! "AcquisitionMode") as [[| | |mode]|] eqn:Hmode;
    try (left; by do 2 eexists).
  rewrite M_bind_eq, on_device_set_bool. cbn [device set_device].
  rewrite !lookup_insert_ne by done.
  destruct (device s !! "AcquisitionFrameRateEnable") as [[| |enable|]|] eqn:Hen;
    try (left; by do 2 eexists).
  destruct (frameRateEnableInitial init); [|right; by eexists].
  rewrite M_bind_eq, on_device_SetFloatValue. cbn [device set_device].
  rewrite !lookup_insert_ne by done.
  destruct (device s !! "AcquisitionFrameRate") as [[|rate fmn fmx| |]|] eqn:Hfr;
    try (left; by do 2 eexists).
  right. by eexists.
Qed.

Lemma positive_increments_configured (nm : INodeMap) (width height : Z) (fps : float) :
  positive_increments nm → positive_increments (configured nm width height fps).
Proof.
  intros H. pose proof H as [Hw Hh]. unfold configured.
  destruct (nm !! "Width") as [[wv wmn wmx winc| | |]|] eqn:Ew; try done.
  destruct (nm !! "Height") as [[hv hmn hmx hinc| | |]|] eqn:Eh; try done.
  destruct (nm !! "AcquisitionFrameRate") as [[| | |]|]; try done.
  unfold positive_increments.
  by repeat (rewrite lookup_insert_eq || rewrite lookup_insert_ne by done).
Qed.

(** X13 - Every run ends with an exit code.  When the two integer nodes
    have a positive increment, every frame the camera can deliver is well
    formed and within the loop bound given to the model, and the enter key
    is waiting on the standard input, [main] returns 0 or -1 whatever the
    arguments, the user's answer, the nodes present on the device, the
    values the nodes refuse, the grabs that time out and the files that
    cannot be created: the division in [SetIntValue], the [images[0]] of
    [RecordVideo] and the indexing of the splitting loop are never reached
    outside their domain. *)
Theorem X13_main_returns_exit_code
    (env : Env) (fuel : nat) (args : list string) (s : Sys) :
  positive_increments (device s) →
  (∀ n f, GetImage env n = Some f →
          frame_ok f ∧ (Z.to_nat (frame_width f * frame_height f) ≤ fuel)%nat) →
  enter_pending fuel env →
  ∃ code s', main OwnsData env fuel args s = (Ret code, s') ∧ (code = 0 ∨ code = -1).
Proof.
  intros Hinc Hframes Henter. unfold main.
  pose proof (parse_args_in_range env (length args) args WIDTH HEIGHT NUM_IMAGES
                FRAMES_PER_SECOND ltac:(done)) as Hrange.
  destruct (parse_args env args WIDTH HEIGHT NUM_IMAGES FRAMES_PER_SECOND)
    as [width height numImages fps|code].
  2: { exists code, s. split; [done|]. apply Hrange.
       unfold WIDTH, HEIGHT, NUM_IMAGES, FRAMES_PER_SECOND. cbn [parse_in_range].
       split_and!; try done; lia. }
  destruct Hrange as (_ & _ & [Hn _] & _).
  { unfold WIDTH, HEIGHT, NUM_IMAGES, FRAMES_PER_SECOND. cbn [parse_in_range].
    split_and!; try done; lia. }
  rewrite !press_enter_pending by done.
  destruct ((height =? 0) || (width =? 0)); [by exists (-1), s; eauto|].
  destruct (negb (Ascii.eqb (continueExample env) "y")); [by exists (-1), s; eauto|].
  unfold session.
  destruct (deviceInfos env =? 0)%nat; [by exists 0, s; eauto|].
  destruct (Z.eqb_spec numImages 0) as [|Hnz]; [by exists 0, s; eauto|].
  rewrite M_bind_eq.
  destruct (store_initial_settings_cases s) as [(e & ->)|(init & -> & _)];
    [by exists (-1), s; eauto|].
  rewrite M_bind_eq.
  destruct (configure_device_cases width height fps s Hinc)
    as [(e & s1 & -> & _)|(w & h & f & s1 & -> & (_ & Hmem1 & _) & Hdev1 & _)];
    [by exists (-1), s1; eauto|].
  rewrite M_bind_eq. cbn [Device_StartStream]. rewrite M_bind_eq.
  destruct (delivered_or_timeout env (Z.to_nat numImages) (grabbed (set_streaming true s1)))
    as [(j & Hj & Hnone)|(frames & Hlen & Hdel)].
  { destruct (capture_timeout env (Z.to_nat numImages) j [] (set_streaming true s1))
      as (e & s2 & ->); [done..|]. by exists (-1), s2; eauto. }
  rewrite <- Hlen, capture_delivers by done.
  destruct frames as [|first rest]; [cbn in Hlen; lia|].
  cbn [app]. rewrite M_bind_eq. cbn [Device_StopStream]. rewrite M_bind_eq.
  cbn [copied].
  match goal with
  | |- context [RecordVideo _ _ _ (?img :: ?imgs) ?f ?s2] =>
      pose proof (RecordVideo_keeps device OwnsData env fuel (img :: imgs) f
                    ltac:(done) ltac:(done) s2) as Hk;
      destruct (RecordVideo_cases env fuel img imgs (frame_bytes <$> first :: rest) f s2)
        as [(e & s3 & Hrec)|(s3 & Hrec)]
  end.
  { apply (copied_wf _ (first :: rest) (length (mem (set_streaming true s1)))).
    - apply Forall_lookup. intros i g Hi. by apply (Hframes _ _ (Hdel i g Hi)).
    - intros i g Hi. sys_norm. rewrite lookup_app_r by lia.
      rewrite Nat.add_sub', list_lookup_fmap. by rewrite Hi. }
  { apply (copied_fuel fuel (first :: rest)).
    apply Forall_lookup. intros i g Hi. by apply (Hframes _ _ (Hdel i g Hi)). }
  { rewrite Hrec. by exists (-1), s3; eauto. }
  rewrite Hrec in *. cbn [fst snd] in Hk. sys_norm_in Hk.
  rewrite M_bind_eq.
  destruct (restore_initial_settings_cases init s3) as [(e & s4 & ->)|(s4 & ->)].
  { rewrite Hk, Hdev1. by apply positive_increments_configured. }
  { by exists (-1), s4; eauto. }
  by exists 0, s4; eauto.
Qed.

(** The example camera, on which the second grab times out. *)
Lemma X13_main_returns_exit_code_witness :
  ∃ code s', main OwnsData (ex_env 1) 5 ["-n"; "2"; "-w"; "64"; "-h"; "64"] ex_sys
               = (Ret code, s')
             ∧ (code = 0 ∨ code = -1).
Proof.
  apply (X13_main_returns_exit_code (ex_env 1) 5 ["-n"; "2"; "-w"; "64"; "-h"; "64"]%string
           ex_sys).
  - apply device_ready_positive, ex_sys_ready.
  - intros n f. unfold ex_env. cbn [GetImage].
    destruct (n <? 1)%nat; [|done]. intros [= <-].
    split; [|cbn; lia]. repeat split; cbn; lia.
  - apply ex_env_enter.
Defined.
